(** * PRISM Council front end: the session state machine

    A shallow embedding of the streaming client ([api.js]), of the
    application shell ([App.jsx]) and of the chat view ([ChatInterface.jsx]),
    and the properties of the conversation document they maintain. *)

From Stdlib Require Import String Ascii List ZArith Lia Bool.
From stdpp Require Import base option list strings gmap pretty.

Open Scope string_scope.
Open Scope list_scope.

(** ** JavaScript values and completions *)

(** The values that reach the front end: what [JSON.parse] produces, and
    [undefined], which a missing property reads as.  Numbers are the integers
    among the doubles.  An object is kept as its list of members in source
    order; a later member with the same key shadows an earlier one, as in
    [JSON.parse]. *)
#[warnings="-register-all"]
Inductive value : Type :=
  | Undefined
  | Null
  | Bool (b : bool)
  | Num (n : Z)
  | Str (s : string)
  | Arr (xs : list value)
  | Obj (members : list (string * value)).

Inductive exn : Type :=
  | TypeError
  | SyntaxError
  | NetworkError
  | Error (message : string).

(** How a JavaScript computation ends: normally with a value, or by throwing. *)
Inductive completion (A : Type) : Type :=
  | Normal (a : A)
  | Throw (e : exn).
Arguments Normal {A} a.
Arguments Throw {A} e.

Definition is_throw {A} (c : completion A) : bool :=
  match c with Normal _ => false | Throw _ => true end.

(** [!!v] of JavaScript. *)
Definition truthy (v : value) : bool :=
  match v with
  | Undefined | Null => false
  | Bool b => b
  | Num n => negb (n =? 0)%Z
  | Str s => negb (s =? "")
  | Arr _ | Obj _ => true
  end.

(** [v === 's'] for a string literal ['s']. *)
Definition is_string (s : string) (v : value) : bool :=
  match v with
  | Str t => t =? s
  | _ => false
  end.

(** [a || b] of JavaScript. *)
Definition js_or (a b : value) : value := if truthy a then a else b.

Fixpoint lookup_member (k : string) (ms : list (string * value)) : option value :=
  match ms with
  | [] => None
  | (k', v) :: rest =>
      match lookup_member k rest with
      | Some w => Some w
      | None => if k =? k' then Some v else None
      end
  end.

(** [v.k]: reading a property of [undefined] or [null] throws; a primitive
    or an array has none of the properties the front end reads ([type],
    [data], [metadata], [message], [title]). *)
Definition get_prop (v : value) (k : string) : completion value :=
  match v with
  | Undefined | Null => Throw TypeError
  | Obj ms => Normal (default Undefined (lookup_member k ms))
  | _ => Normal Undefined
  end.

(** [v?.k]: as [v.k], but [undefined] where [v] is [undefined] or [null]. *)
Definition get_opt (v : value) (k : string) : value :=
  match get_prop v k with Normal w => w | Throw _ => Undefined end.

(** ** Strings *)

Definition newline : ascii := "010"%char.

(** The double quote. *)
Definition dquote : ascii := "034"%char.

(** [s.split('\n')]: never empty, [""] splits into one empty line. *)
Fixpoint split_lines (s : string) : list string :=
  match s with
  | "" => [""]
  | String c rest =>
      if Ascii.eqb c newline then "" :: split_lines rest
      else match split_lines rest with
           | l :: ls => String c l :: ls
           | [] => [String c ""]
           end
  end.

(** [s.slice(n)] for [0 <= n]. *)
Fixpoint slice_from (n : nat) (s : string) : string :=
  match n, s with
  | O, _ => s
  | S n', String _ rest => slice_from n' rest
  | S _, "" => ""
  end.

(** [s.slice(0, n)] for [0 <= n]. *)
Fixpoint slice_to (n : nat) (s : string) : string :=
  match n, s with
  | S n', String c rest => String c (slice_to n' rest)
  | _, _ => ""
  end.

(** [s.startsWith(p)]. *)
Definition startsWith (s p : string) : bool := String.prefix p s.

(** [ls.join(sep)]. *)
Definition join (sep : string) (ls : list string) : string := String.concat sep ls.

(** ** White space

    A string is held as the bytes of its UTF-8 encoding.  The white space
    of JavaScript, what [\s] matches and [trim] strips, is the characters
    U+0009 to U+000D, U+0020, U+00A0, U+1680, U+2000 to U+200A, U+2028,
    U+2029, U+202F, U+205F, U+3000 and U+FEFF. *)

Definition utf8 (bytes : list nat) : string :=
  string_of_list_ascii (map ascii_of_nat bytes).

(** The white-space characters, each as its bytes. *)
Definition white_space : list string :=
  Eval cbv in
    map utf8
      [ [9]; [10]; [11]; [12]; [13]; [32]; [194; 160]; [225; 154; 128];
        [226; 128; 128]; [226; 128; 129]; [226; 128; 130]; [226; 128; 131];
        [226; 128; 132]; [226; 128; 133]; [226; 128; 134]; [226; 128; 135];
        [226; 128; 136]; [226; 128; 137]; [226; 128; 138];
        [226; 128; 168]; [226; 128; 169]; [226; 128; 175]; [226; 129; 159];
        [227; 128; 128]; [239; 187; 191] ].

(** [s] starts with the bytes [e]. *)
Fixpoint begins (e s : string) : bool :=
  match e, s with
  | "", _ => true
  | String a e', String b s' => Ascii.eqb a b && begins e' s'
  | String _ _, "" => false
  end.

(** The white-space character [s] starts with, if it starts with one. *)
Definition space_at (s : string) : option string :=
  find (fun e => begins e s) white_space.

(** A string read character by character, as far as white space goes: a
    white-space character, or a byte of another character. *)
Inductive token : Type :=
  | Space (e : string)
  | Byte (b : ascii).

(** [skip] bytes of a white-space character are still to be passed. *)
Fixpoint lex_from (skip : nat) (s : string) : list token :=
  match s with
  | "" => []
  | String b rest =>
      match skip with
      | S k => lex_from k rest
      | O =>
          match space_at s with
          | Some e => Space e :: lex_from (String.length e - 1) rest
          | None => Byte b :: lex_from 0 rest
          end
      end
  end.

Definition lex (s : string) : list token := lex_from 0 s.

Definition text_of (t : token) : string :=
  match t with
  | Space e => e
  | Byte b => String b ""
  end.

(** The string of a list of tokens. *)
Definition unlex (ts : list token) : string :=
  fold_right (fun t s => text_of t +:+ s) "" ts.

Definition is_space (t : token) : bool :=
  match t with Space _ => true | Byte _ => false end.

(** The maximal runs of bytes between white space. *)
Fixpoint word_runs (ts : list token) : list string :=
  match ts with
  | [] => []
  | Space _ :: rest => word_runs rest
  | Byte b :: rest =>
      match rest with
      | Byte _ :: _ =>
          match word_runs rest with
          | w :: ws => String b w :: ws
          | [] => [String b ""]
          end
      | _ => String b "" :: word_runs rest
      end
  end.

(** [s.trim().split(/\s+/).filter(Boolean)]: the maximal runs of characters
    that are not white space. *)
Definition words (s : string) : list string := word_runs (lex s).

(** White space taken off the front, and off the end. *)
Fixpoint drop_spaces (ts : list token) : list token :=
  match ts with
  | Space _ :: rest => drop_spaces rest
  | _ => ts
  end.

Fixpoint drop_spaces_end (ts : list token) : list token :=
  match ts with
  | [] => []
  | t :: rest =>
      match drop_spaces_end rest with
      | [] => if is_space t then [] else [t]
      | rest' => t :: rest'
      end
  end.

(** [s.trim()]. *)
Definition trim (s : string) : string :=
  unlex (drop_spaces_end (drop_spaces (lex s))).

(** A byte that continues a character of more than one byte. *)
Definition continuation (b : ascii) : bool :=
  (128 <=? nat_of_ascii b)%nat && (nat_of_ascii b <? 192)%nat.

(** [s.length]: the UTF-16 code units of the text, one for each character
    and two for a character of four bytes. *)
Fixpoint length16 (s : string) : nat :=
  match s with
  | "" => 0
  | String b rest =>
      (if continuation b then 0
       else if (240 <=? nat_of_ascii b)%nat then 2 else 1) + length16 rest
  end.

(** [t] does not start in the middle of a character. *)
Definition starts_clear (t : string) : bool :=
  match t with
  | "" => true
  | String b _ => negb (continuation b)
  end.

(** Every byte of [s] continues a character. *)
Fixpoint all_continue (s : string) : bool :=
  match s with
  | "" => true
  | String b rest => continuation b && all_continue rest
  end.

(** No white space starts anywhere in [s]. *)
Fixpoint no_space (s : string) : bool :=
  match s with
  | "" => true
  | String _ rest => match space_at s with None => no_space rest | Some _ => false end
  end.

(** A word: not empty, and without white space. *)
Definition is_word (w : string) : Prop := w <> "" /\ no_space w = true.

(** The white space of a reading is white space. *)
Definition token_ok (t : token) : Prop :=
  match t with
  | Space e => e ∈ white_space
  | Byte _ => True
  end.

(** [ts] reads as itself. *)
Definition lexed (ts : list token) : Prop := lex (unlex ts) = ts.

Definition bytes (w : string) : list token := map Byte (list_ascii_of_string w).

(** ** A model of [JSON.parse]

    The built-in is not part of the repository.  The general results below
    take the parser as a parameter; this recursive-descent model of it is
    used where a concrete input is run.  It covers the JSON grammar with
    integer numbers and with the two-character escapes in strings; on such
    texts it accepts and rejects as the built-in does. *)
Module JSON.

Definition is_ws (c : ascii) : bool :=
  match c with
  | " " | "009" | "010" | "013" => true
  | _ => false
  end%char.

Fixpoint skip_ws (s : string) : string :=
  match s with
  | String c rest => if is_ws c then skip_ws rest else s
  | "" => ""
  end.

Definition digit (c : ascii) : option Z :=
  match Ascii.is_nat c with Some n => Some (Z.of_nat n) | None => None end.

(** The digits at the head of [s], folded into [acc]. *)
Fixpoint digits (acc : Z) (s : string) : Z * string :=
  match s with
  | String c rest =>
      match digit c with
      | Some d => digits (10 * acc + d) rest
      | None => (acc, s)
      end
  | "" => (acc, "")
  end.

(** [int = "0" | digit1-9 digit*]: no leading zero. *)
Definition parse_nat (s : string) : option (Z * string) :=
  match s with
  | String c rest =>
      match digit c with
      | Some 0%Z => Some (0%Z, rest)
      | Some d => Some (digits d rest)
      | None => None
      end
  | "" => None
  end.

(** A number must not run on into a fraction or an exponent, which the
    model does not cover. *)
Definition number_ends (s : string) : bool :=
  match s with
  | String c _ =>
      negb (Ascii.eqb c "." || Ascii.eqb c "e" || Ascii.eqb c "E")%char
  | "" => true
  end.

Definition parse_number (s : string) : option (value * string) :=
  let '(neg, s') :=
    match s with
    | String "-" rest => (true, rest)
    | _ => (false, s)
    end in
  match parse_nat s' with
  | Some (n, rest) =>
      if number_ends rest then Some (Num (if neg then - n else n)%Z, rest)
      else None
  | None => None
  end.

Definition unescape (c : ascii) : option ascii :=
  match c with
  | "034" => Some dquote
  | "\" => Some "\"
  | "/" => Some "/"
  | "n" => Some "010"
  | "r" => Some "013"
  | "t" => Some "009"
  | "b" => Some "008"
  | "f" => Some "012"
  | _ => None
  end%char.

(** The characters of a string after its opening quote, up to and
    including the closing quote. *)
Fixpoint parse_chars (s : string) : option (string * string) :=
  match s with
  | "" => None
  | String c rest =>
      if Ascii.eqb c dquote then Some ("", rest)
      else if Ascii.eqb c "\"%char then
        match rest with
        | String e rest' =>
            match unescape e, parse_chars rest' with
            | Some c', Some (body, rest'') => Some (String c' body, rest'')
            | _, _ => None
            end
        | "" => None
        end
      else if (nat_of_ascii c <? 32)%nat then None
      else match parse_chars rest with
           | Some (body, rest') => Some (String c body, rest')
           | None => None
           end
  end.

Definition expect (word : string) (v : value) (s : string) : option (value * string) :=
  if String.prefix word s then Some (v, slice_from (String.length word) s) else None.

Fixpoint parse_value (fuel : nat) (s : string) {struct fuel} : option (value * string) :=
  match fuel with
  | O => None
  | S fuel' =>
      match skip_ws s with
      | String "n" _ as t => expect "null" Null t
      | String "t" _ as t => expect "true" (Bool true) t
      | String "f" _ as t => expect "false" (Bool false) t
      | String "034" rest =>
          match parse_chars rest with
          | Some (body, rest') => Some (Str body, rest')
          | None => None
          end
      | String "[" rest =>
          match skip_ws rest with
          | String "]" rest' => Some (Arr [], rest')
          | _ =>
              match parse_elements fuel' rest with
              | Some (xs, rest') => Some (Arr xs, rest')
              | None => None
              end
          end
      | String "{" rest =>
          match skip_ws rest with
          | String "}" rest' => Some (Obj [], rest')
          | _ =>
              match parse_members fuel' rest with
              | Some (ms, rest') => Some (Obj ms, rest')
              | None => None
              end
          end
      | t => parse_number t
      end
  end

with parse_elements (fuel : nat) (s : string) {struct fuel} : option (list value * string) :=
  match fuel with
  | O => None
  | S fuel' =>
      match parse_value fuel' s with
      | Some (v, rest) =>
          match skip_ws rest with
          | String "]" rest' => Some ([v], rest')
          | String "," rest' =>
              match parse_elements fuel' rest' with
              | Some (vs, rest'') => Some (v :: vs, rest'')
              | None => None
              end
          | _ => None
          end
      | None => None
      end
  end

with parse_members (fuel : nat) (s : string) {struct fuel} : option (list (string * value) * string) :=
  match fuel with
  | O => None
  | S fuel' =>
      match skip_ws s with
      | String "034" rest =>
          match parse_chars rest with
          | Some (key, rest1) =>
              match skip_ws rest1 with
              | String ":" rest2 =>
                  match parse_value fuel' rest2 with
                  | Some (v, rest3) =>
                      match skip_ws rest3 with
                      | String "}" rest4 => Some ([(key, v)], rest4)
                      | String "," rest4 =>
                          match parse_members fuel' rest4 with
                          | Some (ms, rest5) => Some ((key, v) :: ms, rest5)
                          | None => None
                          end
                      | _ => None
                      end
                  | None => None
                  end
              | _ => None
              end
          | None => None
          end
      | _ => None
      end
  end.

(** Every recursive call is made after a character was read, or after one
    call that reads one: twice the length of the text is fuel enough. *)
Definition parse (text : string) : completion value :=
  match parse_value (2 * String.length text + 2) text with
  | Some (v, rest) =>
      match skip_ws rest with
      | "" => Normal v
      | _ => Throw SyntaxError
      end
  | None => Throw SyntaxError
  end.

End JSON.

(** ** The conversation document *)

Inductive stage : Type := Stage1 | Stage2 | Stage3.

(** [loading: { stage1, stage2, stage3 }] of an assistant message. *)
Record loading_flags : Type := {
  loading_stage1 : bool;
  loading_stage2 : bool;
  loading_stage3 : bool
}.

(** A message object.  A user message is [{ role: 'user', content }]: its
    stage fields and [metadata] read as [undefined] and it has no [loading]
    record.  An assistant message carries [stage1], [stage2], [stage3],
    [metadata] and, while it is built up from the stream, [loading]. *)
Record message : Type := {
  role : string;
  content : value;
  stage1 : value;
  stage2 : value;
  stage3 : value;
  metadata : value;
  loading : option loading_flags
}.

(** [clarification_state]; a field that is missing reads as [undefined]
    ([None] for the [history] array). *)
Record clarification : Type := {
  active : value;
  history : option (list value);
  current_question : value;
  briefing : value;
  confirmed : value;
  confirmed_at : value
}.

(** [model_selection: { models, mode, rationales }]. *)
Record selected_models : Type := {
  models : list string;
  mode : value;
  rationales : gmap string string
}.

(** The conversation held in [currentConversation].  The model starts where
    a conversation is on display: [prev] is never [null] in the updaters.
    Fields no handler looks at ([created_at] and the like) are left out; the
    spreads copy them as they are. *)
Record conversation : Type := {
  id : string;
  title : value;
  messages : list message;
  context_snapshot : value;
  role_snapshot : value;
  clarification_state : option clarification;
  model_selection : option selected_models
}.

Definition set_title (t : value) (c : conversation) : conversation :=
  {| id := id c; title := t; messages := messages c;
     context_snapshot := context_snapshot c; role_snapshot := role_snapshot c;
     clarification_state := clarification_state c; model_selection := model_selection c |}.

Definition set_messages (ms : list message) (c : conversation) : conversation :=
  {| id := id c; title := title c; messages := ms;
     context_snapshot := context_snapshot c; role_snapshot := role_snapshot c;
     clarification_state := clarification_state c; model_selection := model_selection c |}.

Definition set_clarification_state (cs : option clarification) (c : conversation) : conversation :=
  {| id := id c; title := title c; messages := messages c;
     context_snapshot := context_snapshot c; role_snapshot := role_snapshot c;
     clarification_state := cs; model_selection := model_selection c |}.

Definition set_selection (sel : option selected_models) (c : conversation) : conversation :=
  {| id := id c; title := title c; messages := messages c;
     context_snapshot := context_snapshot c; role_snapshot := role_snapshot c;
     clarification_state := clarification_state c; model_selection := sel |}.

Definition set_loading (n : stage) (b : bool) (l : loading_flags) : loading_flags :=
  match n with
  | Stage1 => {| loading_stage1 := b; loading_stage2 := loading_stage2 l; loading_stage3 := loading_stage3 l |}
  | Stage2 => {| loading_stage1 := loading_stage1 l; loading_stage2 := b; loading_stage3 := loading_stage3 l |}
  | Stage3 => {| loading_stage1 := loading_stage1 l; loading_stage2 := loading_stage2 l; loading_stage3 := b |}
  end.

Definition stage_field (n : stage) (m : message) : value :=
  match n with
  | Stage1 => stage1 m
  | Stage2 => stage2 m
  | Stage3 => stage3 m
  end.

Definition with_loading (l : loading_flags) (m : message) : message :=
  {| role := role m; content := content m; stage1 := stage1 m; stage2 := stage2 m;
     stage3 := stage3 m; metadata := metadata m; loading := Some l |}.

Definition with_stage (n : stage) (v : value) (m : message) : message :=
  match n with
  | Stage1 => {| role := role m; content := content m; stage1 := v; stage2 := stage2 m;
                 stage3 := stage3 m; metadata := metadata m; loading := loading m |}
  | Stage2 => {| role := role m; content := content m; stage1 := stage1 m; stage2 := v;
                 stage3 := stage3 m; metadata := metadata m; loading := loading m |}
  | Stage3 => {| role := role m; content := content m; stage1 := stage1 m; stage2 := stage2 m;
                 stage3 := v; metadata := metadata m; loading := loading m |}
  end.

Definition with_metadata (v : value) (m : message) : message :=
  {| role := role m; content := content m; stage1 := stage1 m; stage2 := stage2 m;
     stage3 := stage3 m; metadata := v; loading := loading m |}.

(** [{ role: 'user', content }]. *)
Definition userMessage (text : string) : message :=
  {| role := "user"; content := Str text; stage1 := Undefined; stage2 := Undefined;
     stage3 := Undefined; metadata := Undefined; loading := None |}.

(** The partial assistant message of [handleSendMessage] ([stage1_loading]
    false) and of [proceedToCouncil] ([stage1_loading] true). *)
Definition assistantMessage (stage1_loading : bool) : message :=
  {| role := "assistant"; content := Undefined; stage1 := Null; stage2 := Null;
     stage3 := Null; metadata := Null;
     loading := Some {| loading_stage1 := stage1_loading; loading_stage2 := false;
                        loading_stage3 := false |} |}.

(** [messages.slice(0, -2)]: all but the last two elements, nothing when
    there are fewer than two. *)
Definition slice_0_minus2 {A} (l : list A) : list A := take (length l - 2) l.

(** [messages.pop()] on the copy: all but the last element. *)
Definition pop {A} (l : list A) : list A := take (length l - 1) l.

(** [modelSelection], the result of [api.pickModels]:
    [{ models, mode_used, mode, rationales }]. *)
Record evaluation : Type := {
  eval_models : list string;
  eval_mode_used : value;
  eval_mode : value;
  eval_rationales : gmap string string
}.

(** ** State updaters

    The functions handed to [setCurrentConversation] (which the chat view
    receives as [onUpdateConversationState]).  React runs them in the order
    in which they were queued, each on the result of the one before. *)

(** [messages[messages.length - 1] = m], the effect of mutating [lastMsg].
    The stage updaters write into the last message object in place; every
    message object sits in one slot of one list (the placeholder is a fresh
    literal in each send), so the write is the replacement of that slot. *)
Definition set_last (m : message) (ms : list message) : list message :=
  <[length ms - 1 := m]> ms.

Definition lift_opt {A} (o : option A) : completion A :=
  match o with Some a => Normal a | None => Throw TypeError end.

Definition cbind {A B} (c : completion A) (f : A -> completion B) : completion B :=
  match c with Normal a => f a | Throw e => Throw e end.

(** [case 'stageN_start']: [lastMsg.loading.stageN = true].  Throws when
    there is no last message or it has no [loading] record. *)
Definition stage_start (n : stage) (prev : conversation) : completion conversation :=
  cbind (lift_opt (last (messages prev))) (fun lastMsg =>
  cbind (lift_opt (loading lastMsg)) (fun l =>
  Normal (set_messages (set_last (with_loading (set_loading n true l) lastMsg) (messages prev)) prev))).

(** [case 'stageN_complete']: [lastMsg.stageN = event.data], for stage 2
    also [lastMsg.metadata = event.metadata], then
    [lastMsg.loading.stageN = false]. *)
Definition stage_complete (n : stage) (event : value) (prev : conversation) : completion conversation :=
  cbind (lift_opt (last (messages prev))) (fun lastMsg =>
  cbind (get_prop event "data") (fun data =>
  cbind (match n with
         | Stage2 => cbind (get_prop event "metadata") (fun md =>
                     Normal (with_metadata md (with_stage n data lastMsg)))
         | _ => Normal (with_stage n data lastMsg)
         end) (fun lastMsg' =>
  cbind (lift_opt (loading lastMsg')) (fun l =>
  Normal (set_messages (set_last (with_loading (set_loading n false l) lastMsg') (messages prev)) prev))))).

(** The test of [case 'clarification_question']:
    [messages.length > 0 && last.role === 'assistant' && !last.stage1]. *)
Definition is_empty_placeholder (ms : list message) : bool :=
  match last ms with
  | Some m => (role m =? "assistant") && negb (truthy (stage1 m))
  | None => false
  end.

(** [case 'clarification_question']: drop an empty assistant placeholder and
    install [{ active: true, history: [], current_question: event.data }]. *)
Definition clarification_question (event : value) (prev : conversation) : completion conversation :=
  let messages' := if is_empty_placeholder (messages prev) then pop (messages prev)
                   else messages prev in
  cbind (get_prop event "data") (fun data =>
  Normal (set_clarification_state
            (Some {| active := Bool true; history := Some []; current_question := data;
                     briefing := Undefined; confirmed := Undefined; confirmed_at := Undefined |})
            (set_messages messages' prev))).

(** The [catch] of [handleSendMessage]: [messages: prev.messages.slice(0, -2)]. *)
Definition rollback (prev : conversation) : conversation :=
  set_messages (slice_0_minus2 (messages prev)) prev.

(** [{}] read as a clarification state. *)
Definition no_clarification : clarification :=
  {| active := Undefined; history := None; current_question := Undefined;
     briefing := Undefined; confirmed := Undefined; confirmed_at := Undefined |}.

(** [handleSubmitClarificationAnswer], a briefing came back:
    [{ ...prev.clarification_state, active: false,
       history: [...(history || []), answer], briefing: result }]. *)
Definition answer_briefing (answer : string) (result : value) (prev : conversation) : conversation :=
  let cs := default no_clarification (clarification_state prev) in
  set_clarification_state
    (Some {| active := Bool false; history := Some (default [] (history cs) ++ [Str answer]);
             current_question := current_question cs; briefing := result;
             confirmed := confirmed cs; confirmed_at := confirmed_at cs |}) prev.

(** [handleSubmitClarificationAnswer], another question came back:
    [{ ...prev.clarification_state, active: true,
       history: [...(history || []), answer], current_question: result }]. *)
Definition answer_question (answer : string) (result : value) (prev : conversation) : conversation :=
  let cs := default no_clarification (clarification_state prev) in
  set_clarification_state
    (Some {| active := Bool true; history := Some (default [] (history cs) ++ [Str answer]);
             current_question := result; briefing := briefing cs;
             confirmed := confirmed cs; confirmed_at := confirmed_at cs |}) prev.

(** [handleConfirmBriefing]:
    [{ ...(prev.clarification_state || {}), active: false, confirmed: true,
       confirmed_at: prev.clarification_state?.confirmed_at || now }]. *)
Definition confirm_briefing (now : string) (prev : conversation) : conversation :=
  let cs := default no_clarification (clarification_state prev) in
  set_clarification_state
    (Some {| active := Bool false; history := history cs;
             current_question := current_question cs; briefing := briefing cs;
             confirmed := Bool true;
             confirmed_at := js_or (confirmed_at cs) (Str now) |}) prev.

(** [handleProceedFromModelEvaluation]:
    [model_selection: { models, mode: mode_used || mode, rationales }]. *)
Definition lock_selection (modelSelection : evaluation) (prev : conversation) : conversation :=
  set_selection
    (Some {| models := eval_models modelSelection;
             mode := js_or (eval_mode_used modelSelection) (eval_mode modelSelection);
             rationales := eval_rationales modelSelection |}) prev.

(** [handleCancelModelEvaluation]: [messages: [], clarification_state: null]. *)
Definition cancel_evaluation (prev : conversation) : conversation :=
  set_clarification_state None (set_messages [] prev).

(** The updaters by name, as they are queued.  [Replace conv] is
    [setCurrentConversation(conv)], the call with a value in the place of a
    function: whatever the conversation was, it is [conv] afterwards. *)
Inductive update : Type :=
  | Replace (conv : conversation)
  | Retitle (draftTitle : string)
  | TitleFromEvent (t : value)
  | AppendMessage (m : message)
  | StageStart (n : stage)
  | StageComplete (n : stage) (event : value)
  | ClarificationQuestion (event : value)
  | Rollback
  | AnswerBriefing (answer : string) (result : value)
  | AnswerQuestion (answer : string) (result : value)
  | ConfirmBriefing (now : string)
  | LockSelection (modelSelection : evaluation)
  | CancelEvaluation.

Definition apply_update (u : update) (prev : conversation) : completion conversation :=
  match u with
  | Replace conv => Normal conv
  | Retitle draftTitle => Normal (set_title (js_or (Str draftTitle) (title prev)) prev)
  | TitleFromEvent t => Normal (set_title t prev)
  | AppendMessage m => Normal (set_messages (messages prev ++ [m]) prev)
  | StageStart n => stage_start n prev
  | StageComplete n event => stage_complete n event prev
  | ClarificationQuestion event => clarification_question event prev
  | Rollback => Normal (rollback prev)
  | AnswerBriefing answer result => Normal (answer_briefing answer result prev)
  | AnswerQuestion answer result => Normal (answer_question answer result prev)
  | ConfirmBriefing now => Normal (confirm_briefing now prev)
  | LockSelection modelSelection => Normal (lock_selection modelSelection prev)
  | CancelEvaluation => Normal (cancel_evaluation prev)
  end.

(** The queue of updaters run from [c]: the conversation reached, and
    whether an updater threw on the way.  The queue stops there: React drops
    the state an updater was computing when it throws, and the render that
    called it fails. *)
Fixpoint apply_updates (us : list update) (c : conversation) : conversation * option exn :=
  match us with
  | [] => (c, None)
  | u :: rest =>
      match apply_update u c with
      | Normal c' => apply_updates rest c'
      | Throw e => (c, Some e)
      end
  end.

(** ** Effects

    What a handler does to the world, in program order: React state setters,
    network requests, console and dialog output. *)

Inductive request : Type :=
  | GetConversation (conversationId : string)
  | PostMessageStream (conversationId content : string)
  | PostClarificationConfirm (conversationId : string)
  | PostClarificationAnswer (conversationId answer : string)
  | PostPickModels (clarifiedPrompt contextContent roleDescription mode numModels : value)
  | PutModelSelection (conversationId : string) (models : list string) (mode : value)
                      (rationales : gmap string string).

Inductive effect : Type :=
  | SetIsLoading (b : bool)
  | SetConversationsTitle (conversationId : string) (title : value)
  | SetCurrentConversation (u : update)
  | Fetch (r : request)
  | Emitted (eventType event : value)
  | LoadConversations
  | OnConversationUpdate (conversationId : string)
  | ConsoleError (label : string)
  | ConsoleWarn (label : string)
  | Alert (text : string)
  | SetShowClarificationUI (b : bool)
  | SetClarificationData (data : value)
  | SetClarificationLoading (b : bool)
  | SetModelSelection (modelSelection : option evaluation)
  | SetShowModelEvaluation (b : bool)
  | SetModelEvaluationLoading (b : bool)
  | SetDynamicPicking
  | ScrollToBottom.

(** A handler run: the effects performed, then how it ended. *)
Definition M (A : Type) : Type := list effect * completion A.

Definition ret {A} (a : A) : M A := ([], Normal a).

Definition bind {A B} (m : M A) (k : A -> M B) : M B :=
  match m with
  | (t, Normal a) => let '(t', r) := k a in (t ++ t', r)
  | (t, Throw e) => (t, Throw e)
  end.

Definition emit (e : effect) : M unit := ([e], Normal tt).

Definition throw {A} (e : exn) : M A := ([], Throw e).

Definition lift {A} (c : completion A) : M A := ([], c).

(** [try { m } catch (e) { handler }]. *)
Definition try_catch {A} (m : M A) (handler : exn -> M A) : M A :=
  match m with
  | (t, Throw e) => let '(t', r) := handler e in (t ++ t', r)
  | done => done
  end.

(** [try { m } finally { cleanup }], for a [cleanup] that does not throw. *)
Definition try_finally {A} (m : M A) (cleanup : M unit) : M A :=
  match m with
  | (t, r) => (t ++ fst cleanup, r)
  end.

Declare Scope js_scope.
Delimit Scope js_scope with js.
Notation "'let*' x ':=' m 'in' k" := (bind m (fun x => k))
  (at level 10, x name, m at level 100, k at level 200) : js_scope.
Notation "m ';;;' k" := (bind m (fun _ => k))
  (at level 100, k at level 200, right associativity) : js_scope.
Open Scope js_scope.

Definition when (b : bool) (m : M unit) : M unit := if b then m else ret tt.

(** [for (const x of l) body(x)]. *)
Fixpoint for_of {A} (body : A -> M unit) (l : list A) : M unit :=
  match l with
  | [] => ret tt
  | x :: rest => body x ;;; for_of body rest
  end.

Definition effects {A} (m : M A) : list effect := fst m.
Definition outcome {A} (m : M A) : completion A := snd m.

(** The updaters a run queued on [currentConversation]. *)
Definition queued (t : list effect) : list update :=
  omap (fun e => match e with SetCurrentConversation u => Some u | _ => None end) t.

(** The calls of the event callback in a run. *)
Definition emitted (t : list effect) : list (value * value) :=
  omap (fun e => match e with Emitted type event => Some (type, event) | _ => None end) t.

(** The callback that does nothing but be called. *)
Definition observe (eventType event : value) : M unit := emit (Emitted eventType event).

(** ** The network, as the handlers meet it *)

(** A response whose body arrives as [chunks] (each already through
    [decoder.decode]); [broken] when the read after the last chunk rejects
    instead of reporting [done]. *)
Record response : Type := {
  ok : bool;
  chunks : list string;
  broken : bool
}.

(** What [fetch] comes back with: a rejection, or a response. *)
Inductive fetched : Type :=
  | Rejected
  | Responded (r : response).

(** ** [api.js]: the streaming client *)

Section Api.

Variable JSON_parse : string -> completion value.

Section Stream.

Variable onEvent : value -> value -> M unit.

(** [onEvent(event.type, event)]. *)
Definition dispatch (event : value) : M unit :=
  let* type := lift (get_prop event "type") in
  onEvent type event.

(** [catch (e) { console.error('Failed to parse SSE event:', e) }]. *)
Definition log_failure (e : exn) : M unit :=
  emit (ConsoleError "Failed to parse SSE event:").

(** The body of the [for] loop: a line that starts with ["data: "] is
    parsed and handed to [onEvent] with its [type]; whatever is thrown
    inside the [try] is logged. *)
Definition on_line (line : string) : M unit :=
  if startsWith line "data: " then
    let data := slice_from 6 line in
    try_catch (let* event := lift (JSON_parse data) in dispatch event) log_failure
  else ret tt.

(** The [while (true)] loop over [reader.read()]. *)
Fixpoint read_loop (body : list string) (broken : bool) : M unit :=
  match body with
  | [] => if broken then throw NetworkError else ret tt
  | chunk :: rest =>
      for_of on_line (split_lines chunk) ;;;
      read_loop rest broken
  end.

Definition stream (r : request) (failure : string) (net : fetched) : M unit :=
  emit (Fetch r) ;;;
  match net with
  | Rejected => throw NetworkError
  | Responded resp =>
      if negb (ok resp) then throw (Error failure)
      else read_loop (chunks resp) (broken resp)
  end.

Definition sendMessageStream (conversationId content : string) (net : fetched) : M unit :=
  stream (PostMessageStream conversationId content) "Failed to send message" net.

Definition confirmClarificationBriefing (conversationId : string) (net : fetched) : M unit :=
  stream (PostClarificationConfirm conversationId) "Failed to confirm briefing" net.

End Stream.

(** A request that resolves to a value or rejects ([pickModels],
    [submitClarificationAnswer], [updateConversationModelSelection]). *)
Definition call {A} (r : request) (answer : completion A) : M A :=
  emit (Fetch r) ;;; lift answer.

End Api.

(** ** Event kinds: the [case] labels of the two [switch (eventType)] *)

Inductive kind : Type :=
  | StageStartKind (n : stage)
  | StageCompleteKind (n : stage)
  | TitleCompleteKind
  | ClarificationAutoStartKind
  | ClarificationQuestionKind
  | CompleteKind
  | ErrorKind
  | UnknownKind.

Definition kind_of (eventType : value) : kind :=
  match eventType with
  | Str s =>
      if s =? "stage1_start" then StageStartKind Stage1
      else if s =? "stage1_complete" then StageCompleteKind Stage1
      else if s =? "stage2_start" then StageStartKind Stage2
      else if s =? "stage2_complete" then StageCompleteKind Stage2
      else if s =? "stage3_start" then StageStartKind Stage3
      else if s =? "stage3_complete" then StageCompleteKind Stage3
      else if s =? "title_complete" then TitleCompleteKind
      else if s =? "clarification_auto_start" then ClarificationAutoStartKind
      else if s =? "clarification_question" then ClarificationQuestionKind
      else if s =? "complete" then CompleteKind
      else if s =? "error" then ErrorKind
      else UnknownKind
  | _ => UnknownKind
  end.

(** ** [App.jsx] *)

Record settings : Type := {
  clarification_first_enabled : value
}.

(** The suffix of a cut title, as the source file has it: the characters
    U+00E2, U+20AC and U+00A6 (a horizontal ellipsis that was decoded as
    Windows-1252 on its way into the file). *)
Definition ellipsis : string :=
  Eval cbv in utf8 [195; 162; 226; 130; 172; 194; 166].

(** [words.slice(0, 6).join(' ') + (words.length > 6 ? ellipsis : '')]. *)
Definition draftTitle (content : string) : string :=
  let ws := words content in
  join " " (take 6 ws) +:+ (if (6 <? length ws)%nat then ellipsis else "").

Module App.

(** [loadConversation], which the chat view receives as
    [onConversationUpdate]; [reply] is what [api.getConversation] resolves
    to.  The conversation on display becomes the server's copy. *)
Definition loadConversation (id : string) (reply : completion conversation) : M unit :=
  try_catch
    (let* conv := call (GetConversation id) reply in
     emit (SetCurrentConversation (Replace conv)))
    (fun _ => emit (ConsoleError "Failed to load conversation:")).

(** The callback [handleSendMessage] hands to [api.sendMessageStream]. *)
Definition onEvent (currentConversationId : string) (eventType event : value) : M unit :=
  match kind_of eventType with
  | StageStartKind n => emit (SetCurrentConversation (StageStart n))
  | StageCompleteKind n => emit (SetCurrentConversation (StageComplete n event))
  | TitleCompleteKind =>
      let t := get_opt (get_opt event "data") "title" in
      if truthy t then
        emit (SetConversationsTitle currentConversationId t) ;;;
        emit (SetCurrentConversation (TitleFromEvent t))
      else emit LoadConversations
  | ClarificationAutoStartKind => ret tt
  | ClarificationQuestionKind =>
      emit (SetCurrentConversation (ClarificationQuestion event)) ;;;
      emit (SetIsLoading false)
  | CompleteKind => emit LoadConversations ;;; emit (SetIsLoading false)
  | ErrorKind =>
      let* _ := lift (get_prop event "message") in
      emit (ConsoleError "Stream error:") ;;;
      emit (SetIsLoading false)
  | UnknownKind => emit (ConsoleWarn "Unknown event type:")
  end.

Section WithParser.

Variable JSON_parse : string -> completion value.

(** The optimistic edits of [handleSendMessage], up to the request. *)
Definition optimistic (currentConversationId : string) (currentConversation : conversation)
    (settings : option settings) (content : string) : M unit :=
  let isFirstMessage := (length (messages currentConversation) =? 0)%nat in
  when isFirstMessage
    (emit (SetConversationsTitle currentConversationId
             (js_or (Str (draftTitle content)) (Str "New reasoning"))) ;;;
     emit (SetCurrentConversation (Retitle (draftTitle content)))) ;;;
  emit (SetCurrentConversation (AppendMessage (userMessage content))) ;;;
  let clarificationEnabled :=
    match settings with
    | Some s => truthy (clarification_first_enabled s)
    | None => false
    end in
  when (negb isFirstMessage || negb clarificationEnabled)
    (emit (SetCurrentConversation (AppendMessage (assistantMessage false)))).

Definition handleSendMessage (currentConversationId : option string)
    (currentConversation : conversation) (settings : option settings)
    (content : string) (net : fetched) : M unit :=
  match currentConversationId with
  | None => ret tt
  | Some cid =>
      if cid =? "" then ret tt
      else
        emit (SetIsLoading true) ;;;
        try_catch
          (optimistic cid currentConversation settings content ;;;
           sendMessageStream JSON_parse (onEvent cid) cid content net)
          (fun _ =>
             emit (ConsoleError "Failed to send message:") ;;;
             emit (SetCurrentConversation Rollback) ;;;
             emit (SetIsLoading false))
  end.

End WithParser.

End App.

(** ** [ChatInterface.jsx] *)

(** [dynamicPicking: { mode, numModels }]. *)
Record dynamic_picking : Type := {
  picking_mode : value;
  numModels : value
}.

Module ChatInterface.

(** The callback [proceedToCouncil] hands to
    [api.confirmClarificationBriefing]; every state update is guarded by
    [if (onUpdateConversationState)].  On [complete] it calls
    [onConversationUpdate(conversation.id)], that is [loadConversation], and
    does not wait for it: the effect [OnConversationUpdate] is the start of
    that call, and what it does to the conversation comes later, when its
    request resolves (the step [Reloaded] below). *)
Definition onEvent (conversationId : string)
    (onUpdateConversationState onConversationUpdate : bool)
    (eventType event : value) : M unit :=
  match kind_of eventType with
  | StageStartKind Stage1 =>
      when onUpdateConversationState (emit (SetCurrentConversation (StageStart Stage1)))
  | StageStartKind n =>
      when onUpdateConversationState (emit (SetCurrentConversation (StageStart n))) ;;;
      emit ScrollToBottom
  | StageCompleteKind n =>
      when onUpdateConversationState (emit (SetCurrentConversation (StageComplete n event))) ;;;
      emit ScrollToBottom
  | CompleteKind =>
      emit (SetClarificationLoading false) ;;;
      emit ScrollToBottom ;;;
      when onConversationUpdate (emit (OnConversationUpdate conversationId))
  | ErrorKind =>
      let* _ := lift (get_prop event "message") in
      emit (ConsoleError "Council error:") ;;;
      emit (Alert "Error during reasoning process: ") ;;;
      emit (SetClarificationLoading false)
  | _ => ret tt
  end.

(** [handleCancelModelEvaluation]. *)
Definition handleCancelModelEvaluation (onUpdateConversationState : bool) : M unit :=
  emit (SetShowModelEvaluation false) ;;;
  emit (SetModelSelection None) ;;;
  emit SetDynamicPicking ;;;
  when onUpdateConversationState (emit (SetCurrentConversation CancelEvaluation)).

(** [handleSubmitClarificationAnswer]; [reply] is what
    [api.submitClarificationAnswer] resolves to.  (For a briefing the data
    shown is [{ type: 'briefing', ...result }], which is [result] again.) *)
Definition handleSubmitClarificationAnswer (conversation : option conversation)
    (onUpdateConversationState : bool) (answer : string) (reply : completion value) : M unit :=
  match conversation with
  | None => ret tt
  | Some conv =>
      emit (SetClarificationLoading true) ;;;
      try_finally
        (try_catch
           (let* result := call (PostClarificationAnswer (id conv) answer) reply in
            let* type := lift (get_prop result "type") in
            emit (SetClarificationData result) ;;;
            emit (SetShowClarificationUI true) ;;;
            when onUpdateConversationState
              (emit (SetCurrentConversation
                       (if is_string "briefing" type then AnswerBriefing answer result
                        else AnswerQuestion answer result))))
           (fun _ =>
              emit (ConsoleError "Failed to submit answer:") ;;;
              emit (Alert "Failed to submit answer. Please try again.")))
        (emit (SetClarificationLoading false))
  end.

Section WithParser.

Variable JSON_parse : string -> completion value.

(** [proceedToCouncil]. *)
Definition proceedToCouncil (conversation : option conversation)
    (onUpdateConversationState onConversationUpdate : bool) (net : fetched) : M unit :=
  match conversation with
  | None => ret tt
  | Some conv =>
      emit (SetClarificationLoading true) ;;;
      try_catch
        (when onUpdateConversationState
           (emit (SetCurrentConversation (AppendMessage (assistantMessage true)))) ;;;
         emit ScrollToBottom ;;;
         confirmClarificationBriefing JSON_parse
           (onEvent (id conv) onUpdateConversationState onConversationUpdate)
           (id conv) net)
        (fun _ =>
           emit (ConsoleError "Failed to confirm briefing:") ;;;
           emit (ConsoleError "Error stack:") ;;;
           emit (Alert "Failed to confirm briefing: ") ;;;
           emit (SetClarificationLoading false))
  end.

(** The first phase of [handleConfirmBriefing]: with dynamic picking on,
    ask for models; [true] when the handler returns there. *)
Definition evaluate_models (conv : conversation) (dynamicPicking : option dynamic_picking)
    (picked : completion evaluation) : M bool :=
  match dynamicPicking with
  | Some dp =>
      if truthy (picking_mode dp) then
        emit (SetModelEvaluationLoading true) ;;;
        try_catch
          (let firstUserMessage := find (fun m => role m =? "user") (messages conv) in
           let clarifiedPrompt :=
             js_or (match firstUserMessage with Some m => content m | None => Undefined end)
                   (Str "") in
           let contextContent := js_or (get_opt (context_snapshot conv) "content") Null in
           let roleDescription := js_or (get_opt (role_snapshot conv) "description") Null in
           let* result :=
             call (PostPickModels clarifiedPrompt contextContent roleDescription
                     (picking_mode dp) (js_or (numModels dp) (Num 5))) picked in
           emit (SetModelSelection (Some result)) ;;;
           emit (SetShowModelEvaluation true) ;;;
           emit (SetModelEvaluationLoading false) ;;;
           ret true)
          (fun _ =>
             emit (ConsoleError "Failed to pick models:") ;;;
             emit (Alert "Failed to pick models. Falling back to default models from settings.") ;;;
             emit (SetModelEvaluationLoading false) ;;;
             ret false)
      else ret false
  | None => ret false
  end.

(** [handleConfirmBriefing]; [now] is the clock reading the updater
    takes, [picked] what [api.pickModels] resolves to. *)
Definition handleConfirmBriefing (conversation : option conversation)
    (onUpdateConversationState onConversationUpdate : bool)
    (dynamicPicking : option dynamic_picking) (now : string)
    (picked : completion evaluation) (net : fetched) : M unit :=
  match conversation with
  | None => ret tt
  | Some conv =>
      emit (SetShowClarificationUI false) ;;;
      emit (SetClarificationData Null) ;;;
      when onUpdateConversationState
        (emit (SetCurrentConversation (ConfirmBriefing now))) ;;;
      let* stop := evaluate_models conv dynamicPicking picked in
      if stop : bool then ret tt
      else proceedToCouncil conversation onUpdateConversationState onConversationUpdate net
  end.

(** [handleProceedFromModelEvaluation]; [saved] is what
    [api.updateConversationModelSelection] resolves to. *)
Definition handleProceedFromModelEvaluation (modelSelection : option evaluation)
    (conversation : option conversation)
    (onUpdateConversationState onConversationUpdate : bool)
    (saved : completion unit) (net : fetched) : M unit :=
  match modelSelection, conversation with
  | Some sel, Some conv =>
      when onUpdateConversationState (emit (SetCurrentConversation (LockSelection sel))) ;;;
      try_catch
        (call (PutModelSelection (id conv) (eval_models sel)
                 (js_or (eval_mode_used sel) (eval_mode sel)) (eval_rationales sel)) saved)
        (fun _ =>
           emit (ConsoleError "Failed to save model selection:") ;;;
           emit (Alert "Failed to save model selection. Default models will be used."))
  | _, _ => ret tt
  end ;;;
  emit (SetShowModelEvaluation false) ;;;
  proceedToCouncil conversation onUpdateConversationState onConversationUpdate net.

End WithParser.

End ChatInterface.

(** ** Notions the properties are stated with *)

Definition absent (v : value) : Prop := v = Null \/ v = Undefined.

Definition isNone {A} (o : option A) : bool :=
  match o with None => true | Some _ => false end.

Section Records.

Variable JSON_parse : string -> completion value.

(** A well-formed record, and the call of the callback it stands for: a
    line that starts with the marker and whose remainder parses to a value
    whose [type] can be read (anything but [null]). *)
Definition record_event (line : string) : option (value * value) :=
  if startsWith line "data: " then
    match JSON_parse (slice_from 6 line) with
    | Normal event =>
        match get_prop event "type" with
        | Normal type => Some (type, event)
        | Throw _ => None
        end
    | Throw _ => None
    end
  else None.

(** The calls of the callback when a body arrives in the given chunks. *)
Definition decode (body : list string) : list (value * value) :=
  emitted (effects (read_loop JSON_parse observe body false)).

(** No proper fragment of the record line [r], head or tail, is a
    well-formed record by itself. *)
Definition self_delimited (r : string) : bool :=
  forallb (fun k => isNone (record_event (slice_to k r)) &&
                    isNone (record_event (slice_from k r)))
          (seq 1 (String.length r - 1)).

End Records.

(** The text of a body, chunk after chunk. *)
Definition whole (body : list string) : string := fold_right String.append "" body.

Definition event_kind (event : value) : kind := kind_of (get_opt event "type").

(** Events that leave the messages alone on the send path. *)
Definition neutral (event : value) : bool :=
  match event_kind event with
  | TitleCompleteKind | ClarificationAutoStartKind | UnknownKind => true
  | _ => false
  end.

(** The kinds of a deliberation in stream order. *)
Definition step_kind (k : nat) : option kind :=
  match k with
  | 0 => Some (StageStartKind Stage1)
  | 1 => Some (StageCompleteKind Stage1)
  | 2 => Some (StageStartKind Stage2)
  | 3 => Some (StageCompleteKind Stage2)
  | 4 => Some (StageStartKind Stage3)
  | 5 => Some (StageCompleteKind Stage3)
  | 6 => Some CompleteKind
  | _ => None
  end.

(** [deliberation k events]: the rest of a well-formed stream from its
    [k]-th step on: stage 1 start and completion, stage 2, stage 3, then
    [complete], with neutral events anywhere in between. *)
Inductive deliberation : nat -> list value -> Prop :=
  | deliberation_done : deliberation 7 []
  | deliberation_neutral k event events :
      neutral event = true ->
      deliberation k events ->
      deliberation k (event :: events)
  | deliberation_step k event events :
      step_kind k = Some (event_kind event) ->
      deliberation (S k) events ->
      deliberation k (event :: events).

Global Instance stage_eq_dec : EqDecision stage.
Proof. solve_decision. Defined.

Global Instance kind_eq_dec : EqDecision kind.
Proof. solve_decision. Defined.

(** The [field] of the first event of kind [kd] in [events]. *)
Definition payload (kd : kind) (field : string) (events : list value) : value :=
  match find (fun event => bool_decide (event_kind event = kd)) events with
  | Some event => get_opt event field
  | None => Undefined
  end.

(** The conversation after the send path has taken [events] in order. *)
Definition fold_events (currentConversationId : string) (events : list value)
    (c : conversation) : conversation * option exn :=
  apply_updates
    (queued (effects (for_of (fun event =>
       try_catch (dispatch (App.onEvent currentConversationId) event) log_failure) events)))
    c.

(** The request fails before the callback was called once: [fetch] rejects,
    the status is not [ok], or a read fails after chunks that held no
    well-formed record. *)
Definition fails_before_events (JSON_parse : string -> completion value) (net : fetched) : bool :=
  match net with
  | Rejected => true
  | Responded r =>
      negb (ok r) ||
      (broken r && match decode JSON_parse (chunks r) with [] => true | _ :: _ => false end)
  end.

(** [App.jsx] renders the chat view with both callbacks:
    [onConversationUpdate={loadConversation}] and
    [onUpdateConversationState={setCurrentConversation}]. *)
Definition passes_onUpdateConversationState : bool := true.
Definition passes_onConversationUpdate : bool := true.

(** What can happen to a conversation on display. *)
Inductive operation : Type :=
  | SendEvent (event : value)
  | CouncilEvent (event : value)
  | SubmitAnswer (answer : string) (reply : completion value)
  | ConfirmBriefingOp (dynamicPicking : option dynamic_picking) (now : string)
                      (picked : completion evaluation) (net : fetched)
  | ProceedOp (modelSelection : option evaluation) (saved : completion unit) (net : fetched)
  | CancelOp.

Section Operations.

Variable JSON_parse : string -> completion value.

Definition run_operation (op : operation) (conv : conversation) : M unit :=
  match op with
  | SendEvent event =>
      try_catch (dispatch (App.onEvent (id conv)) event) log_failure
  | CouncilEvent event =>
      try_catch (dispatch (ChatInterface.onEvent (id conv)
                             passes_onUpdateConversationState
                             passes_onConversationUpdate) event) log_failure
  | SubmitAnswer answer reply =>
      ChatInterface.handleSubmitClarificationAnswer (Some conv)
        passes_onUpdateConversationState answer reply
  | ConfirmBriefingOp dynamicPicking now picked net =>
      ChatInterface.handleConfirmBriefing JSON_parse (Some conv)
        passes_onUpdateConversationState passes_onConversationUpdate
        dynamicPicking now picked net
  | ProceedOp modelSelection saved net =>
      ChatInterface.handleProceedFromModelEvaluation JSON_parse modelSelection (Some conv)
        passes_onUpdateConversationState passes_onConversationUpdate saved net
  | CancelOp =>
      ChatInterface.handleCancelModelEvaluation passes_onUpdateConversationState
  end.

(** The conversation after the updaters [op] itself queues have run, in
    order, from [c].  A reload that [op] starts (the council path does, on
    [complete]) is not among them: it resolves later, as a step of its own
    ([Reloaded] below). *)
Definition perform (op : operation) (c : conversation) : conversation :=
  fst (apply_updates (queued (effects (run_operation op c))) c).

Definition perform_all (ops : list operation) (c : conversation) : conversation :=
  fold_left (fun c op => perform op c) ops c.

End Operations.

(** The life of a conversation on display, step by step: a handler or an
    event callback runs ([Handled]), or a [loadConversation] that was started
    earlier resolves ([Reloaded], with what [api.getConversation] came back
    with).  A reload is started by every [complete] of the council path, and
    by the selection of a conversation; nothing waits for it, so that it
    resolves at any later point, between the steps that follow or after
    them. *)
Inductive step : Type :=
  | Handled (op : operation)
  | Reloaded (reply : completion conversation).

Section Steps.

Variable JSON_parse : string -> completion value.

Definition run_step (s : step) (conv : conversation) : M unit :=
  match s with
  | Handled op => run_operation JSON_parse op conv
  | Reloaded reply => App.loadConversation (id conv) reply
  end.

(** The conversation after a step: its updaters run in order from [c]. *)
Definition advance (s : step) (c : conversation) : conversation :=
  fst (apply_updates (queued (effects (run_step s c))) c).

Definition advance_all (steps : list step) (c : conversation) : conversation :=
  fold_left (fun c s => advance s c) steps c.

End Steps.

(** [clarification_state.confirmed] is [true]. *)
Definition is_confirmed (c : conversation) : Prop :=
  exists cs, clarification_state c = Some cs /\ confirmed cs = Bool true.

(** The stream event that starts a clarification on the send path. *)
Definition asks_question (op : operation) : bool :=
  match op with
  | SendEvent event => bool_decide (event_kind event = ClarificationQuestionKind)
  | _ => false
  end.

Definition is_cancel (op : operation) : bool :=
  match op with CancelOp => true | _ => false end.

(** The keys of [rationales] are among [models]. *)
Definition rationales_within (ms : list string) (rs : gmap string string) : Prop :=
  dom rs ⊆ (list_to_set ms : gset string).

Definition selection_ok (c : conversation) : Prop :=
  match model_selection c with
  | Some sel => rationales_within (models sel) (rationales sel)
  | None => True
  end.

(** The updaters of the stage events. *)
Definition is_stage_update (u : update) : bool :=
  match u with
  | StageStart _ | StageComplete _ _ => true
  | _ => false
  end.

(** The updaters that keep what the clarification state already holds: all
    but the three that install a new one. *)
Definition keeps_clarification (u : update) : bool :=
  match u with
  | Replace _ | ClarificationQuestion _ | CancelEvaluation => false
  | _ => true
  end.

(** The updaters that leave [model_selection] alone: all but the one of
    [handleProceedFromModelEvaluation] and the replacement by a reload. *)
Definition keeps_selection (u : update) : bool :=
  match u with
  | Replace _ | LockSelection _ => false
  | _ => true
  end.

(** The operation that installs a model selection. *)
Definition locks_selection (op : operation) : bool :=
  match op with
  | ProceedOp (Some _) _ _ => true
  | _ => false
  end.

(** The briefing is confirmed and the question loop is over. *)
Definition is_closed (c : conversation) : Prop :=
  exists cs, clarification_state c = Some cs /\ confirmed cs = Bool true /\
             active cs = Bool false.

(** The steps that leave a property [good] of the conversation standing,
    as far as the clarification state goes: every handler but a cancel of
    the model evaluation and a [clarification_question] on the send path,
    a reload that fails, and a reload whose copy is [good] itself. *)
Definition spares (good : conversation -> Prop) (s : step) : Prop :=
  match s with
  | Handled op => is_cancel op = false /\ asks_question op = false
  | Reloaded (Normal copy) => good copy
  | Reloaded (Throw _) => True
  end.

Definition is_replace (u : update) : bool :=
  match u with Replace _ => true | _ => false end.

(** The updaters of a handler, by themselves: what is left of a queue when
    the replacements by reloads that resolved in between are taken out. *)
Definition own_updates (us : list update) : list update :=
  filter (fun u => negb (is_replace u)) us.

(** Every reload that resolved in the queue brought a copy that is [good]. *)
Definition reloads_bring (good : conversation -> Prop) (us : list update) : Prop :=
  Forall (fun u => match u with Replace copy => good copy | _ => True end) us.

(** ** Sample data *)

Definition loaded : loading_flags :=
  {| loading_stage1 := false; loading_stage2 := false; loading_stage3 := false |}.

(** An assistant message whose first stage has arrived. *)
Definition answered : message :=
  {| role := "assistant"; content := Undefined; stage1 := Arr [Str "a"; Str "b"];
     stage2 := Null; stage3 := Null; metadata := Null; loading := Some loaded |}.

Definition new_conversation : conversation :=
  {| id := "c1"; title := Str "New reasoning"; messages := [];
     context_snapshot := Null; role_snapshot := Null;
     clarification_state := None; model_selection := None |}.

(** One exchange under way: the question and a first-stage answer. *)
Definition midway : conversation :=
  set_messages [userMessage "Should we ship v2 this quarter?"; answered] new_conversation.

Definition stage1_again : value :=
  Obj [("type", Str "stage1_complete"); ("data", Arr [Str "c"])].

(** Scenario A of the specification, with a title event on the way. *)
Definition scenario_A : list value :=
  [ Obj [("type", Str "stage1_start")];
    Obj [("type", Str "stage1_complete"); ("data", Arr [Str "a"; Str "b"])];
    Obj [("type", Str "stage2_start")];
    Obj [("type", Str "title_complete"); ("data", Obj [("title", Str "Shipping v2")])];
    Obj [("type", Str "stage2_complete"); ("data", Obj [("rank", Arr [Num 1; Num 0])]);
         ("metadata", Obj [("label_to_model", Obj [])])];
    Obj [("type", Str "stage3_start")];
    Obj [("type", Str "stage3_complete"); ("data", Str "Ship it.")];
    Obj [("type", Str "complete")] ].

(** The question asked, and the placeholder for its answer. *)
Definition asked : conversation :=
  set_messages [userMessage "Should we ship v2 this quarter?"; assistantMessage false]
    new_conversation.

(** A clarification that ended in a briefing the user confirmed. *)
Definition briefed_state : clarification :=
  {| active := Bool false; history := Some [Str "$2M"]; current_question := Undefined;
     briefing := Obj [("objective", Str "Decide on v2 ship date")];
     confirmed := Bool true; confirmed_at := Str "2025-01-01T00:00:00.000Z" |}.

Definition briefed : conversation :=
  set_clarification_state (Some briefed_state)
    (set_messages [userMessage "Should we ship v2 this quarter?"] new_conversation).

(** The last event of a deliberation. *)
Definition complete_event : value := Obj [("type", Str "complete")].

Definition budget_question : value :=
  Obj [("type", Str "clarification_question");
       ("data", Obj [("question", Str "What's the budget?")])].

(** An evaluation result with a rationale for a model it did not select. *)
Definition stray : evaluation :=
  {| eval_models := ["vendor/model-a"]; eval_mode_used := Str "cheapest";
     eval_mode := Undefined;
     eval_rationales := {[ "vendor/model-b" := "Lowest cost" ]} |}.

(** [s] between double quotes. *)
Definition quoted (s : string) : string := String dquote (s +:+ String dquote "").

(** The record line of an event that has a [type] only. *)
Definition record_line (type : string) : string :=
  "data: {" +:+ quoted "type" +:+ ":" +:+ quoted type +:+ "}".

Definition blank_line : string := String newline (String newline "").

(** A body of three records, the second of them cut short. *)
Definition garbled_body : list string :=
  [ record_line "stage1_start" +:+ blank_line +:+
    "data: {" +:+ quoted "type" +:+ ":" +:+ quoted "stage1_comp" +:+ blank_line +:+
    record_line "complete" +:+ blank_line ].

(** Three records in two chunks; the boundary cuts the second record. *)
Definition cut_head : string := "data: {" +:+ quoted "type" +:+ ":" +:+ String dquote "stage1_".
Definition cut_tail : string := "complete" +:+ String dquote "}".
Definition first_chunk : string := record_line "stage1_start" +:+ blank_line +:+ cut_head.
Definition second_chunk : string :=
  cut_tail +:+ blank_line +:+ record_line "complete" +:+ blank_line.

(** Settings with clarification first, and the first message of a new
    conversation as the optimistic edits leave it then. *)
Definition clarifying : settings := {| clarification_first_enabled := Bool true |}.

Definition first_sent : conversation :=
  set_messages [userMessage "Should we ship?"]
    (set_title (Str "Should we ship?") new_conversation).

(** The record line of an event with a [type] and [data], the latter given
    as JSON text. *)
Definition data_line (type data : string) : string :=
  "data: {" +:+ quoted "type" +:+ ":" +:+ quoted type +:+ "," +:+
  quoted "data" +:+ ":" +:+ data +:+ "}".

(** Scenario A on the wire, in two chunks. *)
Definition scenario_A_body : list string :=
  [ record_line "stage1_start" +:+ blank_line +:+
    data_line "stage1_complete" ("[" +:+ quoted "a" +:+ "," +:+ quoted "b" +:+ "]") +:+
    blank_line +:+
    record_line "stage2_start" +:+ blank_line;
    data_line "stage2_complete" ("{" +:+ quoted "rank" +:+ ":[1,0]}") +:+ blank_line +:+
    record_line "stage3_start" +:+ blank_line +:+
    data_line "stage3_complete" (quoted "Ship it.") +:+ blank_line +:+
    record_line "complete" +:+ blank_line ].

(** Scenario B on the wire. *)
Definition scenario_B_body : list string :=
  [ record_line "clarification_auto_start" +:+ blank_line +:+
    data_line "clarification_question"
      ("{" +:+ quoted "question" +:+ ":" +:+ quoted "What's the budget?" +:+ "}") +:+
    blank_line ].

Definition delivered (body : list string) : fetched :=
  Responded {| ok := true; chunks := body; broken := false |}.

(** ** What a run leaves behind *)

(** The values a run hands to [setIsLoading], in order; the flag is the
    last of them. *)
Definition isLoading_sets (t : list effect) : list bool :=
  omap (fun e => match e with SetIsLoading b => Some b | _ => None end) t.

(** The same for [setClarificationLoading]. *)
Definition clarificationLoading_sets (t : list effect) : list bool :=
  omap (fun e => match e with SetClarificationLoading b => Some b | _ => None end) t.

(** The requests of a run, in order. *)
Definition requests (t : list effect) : list request :=
  omap (fun e => match e with Fetch r => Some r | _ => None end) t.

(** The request does not run to its end: [fetch] rejects, the status is not
    [ok], or a read fails. *)
Definition failed (net : fetched) : bool :=
  match net with
  | Rejected => true
  | Responded r => negb (ok r) || broken r
  end.

(** The calls of the callback a request leads to. *)
Definition received (JSON_parse : string -> completion value) (net : fetched)
    : list (value * value) :=
  match net with
  | Rejected => []
  | Responded r => if ok r then decode JSON_parse (chunks r) else []
  end.

(** The events at which the send path lowers [isLoading]. *)
Definition ends_send (k : kind) : bool :=
  match k with
  | ClarificationQuestionKind | CompleteKind | ErrorKind => true
  | _ => false
  end.

(** The events at which the council path lowers [clarificationLoading]. *)
Definition ends_council (k : kind) : bool :=
  match k with
  | CompleteKind | ErrorKind => true
  | _ => false
  end.

(** [settings?.clarification_first_enabled], as a condition. *)
Definition clarification_first (s : option settings) : bool :=
  match s with
  | Some s0 => truthy (clarification_first_enabled s0)
  | None => false
  end.

(** The conversation after the council path has taken [events] in order. *)
Definition fold_council (conversationId : string) (events : list value)
    (c : conversation) : conversation * option exn :=
  apply_updates
    (queued (effects (for_of (fun event =>
       try_catch (dispatch (ChatInterface.onEvent conversationId
                              passes_onUpdateConversationState
                              passes_onConversationUpdate) event) log_failure) events)))
    c.

(** The answer of a submission the collaborator took: the reply came, and
    its [type] could be read. *)
Definition accepted_answer (op : operation) : option string :=
  match op with
  | SubmitAnswer answer (Normal result) =>
      match get_prop result "type" with
      | Normal _ => Some answer
      | Throw _ => None
      end
  | _ => None
  end.

Definition is_submission (op : operation) : bool :=
  match op with SubmitAnswer _ _ => true | _ => false end.

(** [prev.clarification_state?.history || []]. *)
Definition history_of (c : conversation) : list value :=
  default [] (clarification_state c ≫= history).

Definition is_alert (e : effect) : bool :=
  match e with Alert _ => true | _ => false end.

(** [clarification_state.confirmed_at] is [t], a time that was recorded. *)
Definition confirmed_since (t : value) (c : conversation) : Prop :=
  truthy t = true /\
  exists cs, clarification_state c = Some cs /\ confirmed_at cs = t.



(** ** [ChatInterface.jsx]: the clarification view *)

(** [{ ...v }]: the own enumerable properties of [v], those of an array or
    a string under their indices. *)
Definition spread (v : value) : list (string * value) :=
  match v with
  | Obj ms => ms
  | Arr xs => imap (fun i x => (pretty i, x)) xs
  | Str s => imap (fun i ch => (pretty i, Str (String ch ""))) (list_ascii_of_string s)
  | _ => []
  end.

(** The effect that follows [conversation]: it hands the question or the
    briefing to [setClarificationData] and decides with
    [setShowClarificationUI] whether the clarification view takes the place
    of the messages. *)
Definition clarificationEffect (conversation : option conversation) : M unit :=
  match conversation ≫= clarification_state with
  | Some cs =>
      let isConfirmed := truthy (confirmed cs) in
      if truthy (active cs) && truthy (current_question cs) then
        emit (SetClarificationData (current_question cs)) ;;;
        emit (SetShowClarificationUI true)
      else if negb isConfirmed && negb (truthy (active cs)) && truthy (briefing cs) then
        emit (SetClarificationData (Obj (("type", Str "briefing") :: spread (briefing cs)))) ;;;
        emit (SetShowClarificationUI true)
      else
        emit (SetClarificationData Null) ;;;
        emit (SetShowClarificationUI false)
  | None =>
      emit (SetClarificationData Null) ;;;
      emit (SetShowClarificationUI false)
  end.

(** The clarification view is off. *)
Definition view_hidden : list effect :=
  [SetClarificationData Null; SetShowClarificationUI false].

(** ** The two forms *)

Module ChatInterfaceForm.

(** [handleSubmit] of the chat view: the text handed to [onSendMessage], if
    any, and the input afterwards. *)
Definition handleSubmit (input : string) (isLoading : bool) : option string * string :=
  if negb (trim input =? "") && negb isLoading then (Some input, "")
  else (None, input).

End ChatInterfaceForm.

Module ClarificationInterface.

(** [handleSubmit] of the clarification view: the answer handed to
    [onSubmitAnswer], if any, and the input afterwards. *)
Definition handleSubmit (answer : string) (isLoading : bool) : option string * string :=
  if negb (trim answer =? "") && negb isLoading then (Some (trim answer), "")
  else (None, answer).

End ClarificationInterface.

(** ** [SettingsManager.jsx] *)

Module SettingsManager.

(** The settings as the API hands them out and takes them back.  A field
    that is missing reads like the empty string, [false] or zero do: the
    page reads each of them through [||]. *)
Record settings_data : Type := {
  council_models : list string;
  chairman_model : string;
  analyst_model : string;
  clarification_first_enabled : bool;
  max_clarification_rounds : Z;
  openrouter_api_key : string
}.

(** [formData]. *)
Record form : Type := {
  councilModels : list string;
  chairmanModel : string;
  analystModel : string;
  clarificationFirstEnabled : bool;
  maxClarificationRounds : Z;
  openrouterApiKey : string
}.

(** The state of the page that its handlers read and write. *)
Record state : Type := {
  settings : option settings_data;
  isEditing : bool;
  formData : form;
  modelSearch : string;
  showApiKey : bool;
  error : option string;
  success : bool
}.

(** The arguments of [api.updateSettings]; [None] is [null]. *)
Record update_call : Type := {
  put_council_models : list string;
  put_chairman_model : string;
  put_analyst_model : string;
  put_clarification_first_enabled : bool;
  put_max_clarification_rounds : Z;
  put_openrouter_api_key : option string
}.

(** [a || b] on strings and on numbers. *)
Definition or_string (a b : string) : string := if a =? "" then b else a.
Definition or_number (a b : Z) : Z := if (a =? 0)%Z then b else a.

(** The form that [loadSettings], [handleCancel] and [handleSave] build
    from settings. *)
Definition form_of (data : settings_data) : form :=
  {| councilModels := council_models data;
     chairmanModel := chairman_model data;
     analystModel := or_string (analyst_model data) (chairman_model data);
     clarificationFirstEnabled := clarification_first_enabled data || false;
     maxClarificationRounds := or_number (max_clarification_rounds data) 5;
     openrouterApiKey := or_string (openrouter_api_key data) "" |}.

Definition set_formData (f : form) (st : state) : state :=
  {| settings := settings st; isEditing := isEditing st; formData := f;
     modelSearch := modelSearch st; showApiKey := showApiKey st;
     error := error st; success := success st |}.

Definition set_error (e : option string) (st : state) : state :=
  {| settings := settings st; isEditing := isEditing st; formData := formData st;
     modelSearch := modelSearch st; showApiKey := showApiKey st;
     error := e; success := success st |}.

Definition set_success (b : bool) (st : state) : state :=
  {| settings := settings st; isEditing := isEditing st; formData := formData st;
     modelSearch := modelSearch st; showApiKey := showApiKey st;
     error := error st; success := b |}.

Definition set_councilModels (l : list string) (f : form) : form :=
  {| councilModels := l; chairmanModel := chairmanModel f; analystModel := analystModel f;
     clarificationFirstEnabled := clarificationFirstEnabled f;
     maxClarificationRounds := maxClarificationRounds f;
     openrouterApiKey := openrouterApiKey f |}.

Definition set_chairmanModel (m : string) (f : form) : form :=
  {| councilModels := councilModels f; chairmanModel := m; analystModel := analystModel f;
     clarificationFirstEnabled := clarificationFirstEnabled f;
     maxClarificationRounds := maxClarificationRounds f;
     openrouterApiKey := openrouterApiKey f |}.

Definition set_analystModel (m : string) (f : form) : form :=
  {| councilModels := councilModels f; chairmanModel := chairmanModel f; analystModel := m;
     clarificationFirstEnabled := clarificationFirstEnabled f;
     maxClarificationRounds := maxClarificationRounds f;
     openrouterApiKey := openrouterApiKey f |}.

(** [l.includes(x)]. *)
Definition includes (l : list string) (x : string) : bool := bool_decide (x ∈ l).

(** [new Set(l).size]. *)
Definition distinct (l : list string) : nat := size (list_to_set l : gset string).

(** [handleEdit]. *)
Definition handleEdit (st : state) : state :=
  {| settings := settings st; isEditing := true; formData := formData st;
     modelSearch := modelSearch st; showApiKey := showApiKey st;
     error := None; success := false |}.

(** [handleCancel]: the form goes back to the settings. *)
Definition handleCancel (st : state) : state :=
  {| settings := settings st; isEditing := false;
     formData := match settings st with
                 | Some data => form_of data
                 | None => formData st
                 end;
     modelSearch := ""; showApiKey := false; error := None; success := false |}.

(** [handleAddModel]. *)
Definition handleAddModel (modelId : string) (st : state) : state :=
  if includes (councilModels (formData st)) modelId then st
  else set_error None
         (set_formData (set_councilModels (councilModels (formData st) ++ [modelId])
                          (formData st)) st).

(** [handleRemoveModel]: a chairman or analyst that goes is replaced by the
    first model left. *)
Definition handleRemoveModel (modelId : string) (st : state) : state :=
  let f := formData st in
  let newModels := List.filter (fun m => negb (m =? modelId)) (councilModels f) in
  let first := default "" (head newModels) in
  let f1 := set_councilModels newModels f in
  let f2 := if modelId =? chairmanModel f then set_chairmanModel first f1 else f1 in
  let f3 := if modelId =? analystModel f then set_analystModel first f2 else f2 in
  set_formData f3 st.

(** The [onChange] of the two selects. *)
Definition selectChairman (m : string) (st : state) : state :=
  set_formData (set_chairmanModel m (formData st)) st.

Definition selectAnalyst (m : string) (st : state) : state :=
  set_formData (set_analystModel m (formData st)) st.

(** The checks of [handleSave], in order: the first that fails gives the
    message. *)
Definition validation (formData : form) : option string :=
  if (length (councilModels formData) =? 0)%nat then
    Some "Models list cannot be empty"
  else if chairmanModel formData =? "" then
    Some "Chairman model must be selected"
  else if negb (includes (councilModels formData) (chairmanModel formData)) then
    Some "Chairman model must be one of the selected models"
  else if analystModel formData =? "" then
    Some "Analyst model must be selected"
  else if negb (includes (councilModels formData) (analystModel formData)) then
    Some "Analyst model must be one of the selected models"
  else if (maxClarificationRounds formData <? 1)%Z || (20 <? maxClarificationRounds formData)%Z then
    Some "Max clarification rounds must be between 1 and 20"
  else if negb (distinct (councilModels formData) =? length (councilModels formData))%nat then
    Some "Models list cannot contain duplicates"
  else None.

(** The key [handleSave] sends: none when the field still shows the mask,
    or is empty. *)
Definition apiKey (formData : form) : option string :=
  if startsWith (openrouterApiKey formData) "********" then None
  else if openrouterApiKey formData =? "" then None
  else Some (openrouterApiKey formData).

Definition call_of (formData : form) : update_call :=
  {| put_council_models := councilModels formData;
     put_chairman_model := chairmanModel formData;
     put_analyst_model := analystModel formData;
     put_clarification_first_enabled := clarificationFirstEnabled formData;
     put_max_clarification_rounds := maxClarificationRounds formData;
     put_openrouter_api_key := apiKey formData |}.

Section Messages.

(** [error.message] of what the engine itself throws (a failed [fetch], a
    body that is not JSON). *)
Variable engine_message : exn -> string.

Definition message (e : exn) : string :=
  match e with
  | Error m => m
  | _ => engine_message e
  end.

(** [handleSave]: the state it leaves, and the call of
    [api.updateSettings] it made, if any; [reply] is what that call resolves
    to.  (A timer clears [success] three seconds later.) *)
Definition handleSave (st : state) (reply : completion settings_data)
    : state * option update_call :=
  let st0 := set_success false (set_error None st) in
  match validation (formData st) with
  | Some problem => (set_error (Some problem) st0, None)
  | None =>
      (match reply with
       | Normal updatedSettings =>
           {| settings := Some updatedSettings; isEditing := false;
              formData := form_of updatedSettings;
              modelSearch := modelSearch st; showApiKey := showApiKey st;
              error := None; success := true |}
       | Throw e =>
           set_error (Some (or_string (message e) "Failed to save settings")) st0
       end,
       Some (call_of (formData st)))
  end.

End Messages.

(** What the editing view offers. *)
Inductive edit : Type :=
  | AddModel (modelId : string)
  | RemoveModel (modelId : string)
  | SelectChairman (m : string)
  | SelectAnalyst (m : string).

Definition apply_edit (e : edit) (st : state) : state :=
  match e with
  | AddModel modelId => handleAddModel modelId st
  | RemoveModel modelId => handleRemoveModel modelId st
  | SelectChairman m => selectChairman m st
  | SelectAnalyst m => selectAnalyst m st
  end.

(** The options of the two selects are the reasoning models (or the empty
    option, when there is none). *)
Definition offered (e : edit) (st : state) : Prop :=
  match e with
  | SelectChairman m | SelectAnalyst m =>
      m ∈ councilModels (formData st) \/ (councilModels (formData st) = [] /\ m = "")
  | _ => True
  end.

(** The edits of a session, each offered in the state it is made in. *)
Fixpoint session (es : list edit) (st : state) : Prop :=
  match es with
  | [] => True
  | e :: rest => offered e st /\ session rest (apply_edit e st)
  end.

Definition apply_edits (es : list edit) (st : state) : state :=
  fold_left (fun st e => apply_edit e st) es st.

(** The form [handleSave] accepts. *)
Definition acceptable (f : form) : Prop :=
  councilModels f <> [] /\
  chairmanModel f <> "" /\ chairmanModel f ∈ councilModels f /\
  analystModel f <> "" /\ analystModel f ∈ councilModels f /\
  (1 <= maxClarificationRounds f <= 20)%Z /\
  NoDup (councilModels f).

(** No model twice, and chairman and analyst among the models if chosen. *)
Definition consistent (f : form) : Prop :=
  NoDup (councilModels f) /\
  (chairmanModel f = "" \/ chairmanModel f ∈ councilModels f) /\
  (analystModel f = "" \/ analystModel f ∈ councilModels f).

End SettingsManager.

(** The settings a server holds after it took [c], with [key] for what it
    shows of the key. *)
Definition stored (c : SettingsManager.update_call) (key : string)
    : SettingsManager.settings_data :=
  {| SettingsManager.council_models := SettingsManager.put_council_models c;
     SettingsManager.chairman_model := SettingsManager.put_chairman_model c;
     SettingsManager.analyst_model := SettingsManager.put_analyst_model c;
     SettingsManager.clarification_first_enabled :=
       SettingsManager.put_clarification_first_enabled c;
     SettingsManager.max_clarification_rounds := SettingsManager.put_max_clarification_rounds c;
     SettingsManager.openrouter_api_key := key |}.

(** A settings page under edit: two models, the first of them chairman and
    analyst, the key as the server masks it. *)
Definition two_models : SettingsManager.form :=
  {| SettingsManager.councilModels := ["vendor/model-a"; "vendor/model-b"];
     SettingsManager.chairmanModel := "vendor/model-a";
     SettingsManager.analystModel := "vendor/model-a";
     SettingsManager.clarificationFirstEnabled := true;
     SettingsManager.maxClarificationRounds := 5;
     SettingsManager.openrouterApiKey := "********abcd" |}.

Definition editing : SettingsManager.state :=
  {| SettingsManager.settings := None; SettingsManager.isEditing := true;
     SettingsManager.formData := two_models; SettingsManager.modelSearch := "";
     SettingsManager.showApiKey := false; SettingsManager.error := None;
     SettingsManager.success := false |}.

(** ** [ContextsManager.jsx] and [RolesManager.jsx]: search and filters

    The two library pages filter their lists the same way, contexts by
    their [content], roles by their [description]. *)

Module Library.

(** [s.toLowerCase()] for the letters A to Z; every other character is left
    as it is. *)
Definition lower (ch : ascii) : ascii :=
  let n := nat_of_ascii ch in
  if (65 <=? n)%nat && (n <=? 90)%nat then ascii_of_nat (n + 32) else ch.

Fixpoint toLowerCase (s : string) : string :=
  match s with
  | "" => ""
  | String ch rest => String (lower ch) (toLowerCase rest)
  end.

(** [s.includes(sub)]. *)
Fixpoint includes (s sub : string) : bool :=
  String.prefix sub s ||
  match s with
  | "" => false
  | String _ rest => includes rest sub
  end.

(** A context or a role, as the filters read it: [name || ''], the text
    ([content || ''] or [description || '']), and the time value of
    [new Date(updated_at || 0)], which is [None] when the date does not
    parse. *)
Record entry : Type := {
  name : string;
  text : string;
  updatedAt : option Z
}.

Section Filters.

(** The filter settings of the page, and [Date.now()] at the last load. *)
Variables (searchQuery updatedFilter sizeFilter : string) (currentTime : Z).

Definition matchesSearch (e : entry) (q : string) : bool :=
  let query := toLowerCase (trim q) in
  if query =? "" then true
  else includes (toLowerCase (name e +:+ String newline (text e))) query.

Definition matchesUpdated (e : entry) : bool :=
  if updatedFilter =? "any" then true
  else
    let days7 := (7 * 24 * 60 * 60 * 1000)%Z in
    let isRecent :=
      match updatedAt e with
      | Some t => (currentTime - t <=? days7)%Z
      | None => false
      end in
    if updatedFilter =? "recent" then isRecent else negb isRecent.

Definition matchesSize (e : entry) : bool :=
  if sizeFilter =? "any" then true
  else
    let n := length16 (text e) in
    let isSmall := (n <? 500)%nat in
    let isMedium := (500 <=? n)%nat && (n <=? 2000)%nat in
    let isLarge := (2000 <? n)%nat in
    if sizeFilter =? "small" then isSmall
    else if sizeFilter =? "medium" then isMedium
    else isLarge.

(** [visibleContexts], [visibleRoles]. *)
Definition visible (entries : list entry) : list entry :=
  List.filter (fun e => matchesSearch e searchQuery && matchesUpdated e && matchesSize e)
              entries.

End Filters.

End Library.

(** ** [Sidebar.jsx] *)

Module Sidebar.

(** An entry of the conversation list. *)
Record summary : Type := {
  id : string;
  title : value;
  updated_at : value;
  created_at : value
}.

(** A row of the sidebar. *)
Record row : Type := {
  row_id : string;
  normalizedTitle : value;
  relative : string;
  is_active : bool
}.

Section Clock.

(** [new Date(s).getTime()] ([None] when it is [NaN]), the time of
    rendering, local midnight before it and local midnight seven days
    earlier, and [date.toLocaleDateString()]. *)
Variable Date_parse : value -> option Z.
Variables now startOfToday startOfWeek : Z.
Variable toLocaleDateString : Z -> string.

Definition parseISO (s : value) : option Z := Date_parse s.

Definition relativeLabel (date : option Z) : string :=
  match date with
  | None => ""
  | Some t =>
      let diffMs := (now - t)%Z in
      let diffMin := (diffMs / (1000 * 60))%Z in
      let diffHr := (diffMs / (1000 * 60 * 60))%Z in
      let diffDay := (diffMs / (1000 * 60 * 60 * 24))%Z in
      if (diffMin <? 2)%Z then "Updated just now"
      else if (diffMin <? 60)%Z then "Updated " +:+ pretty diffMin +:+ "m ago"
      else if (diffHr <? 24)%Z then "Updated " +:+ pretty diffHr +:+ "h ago"
      else if (diffDay =? 1)%Z then "Updated yesterday"
      else if (diffDay <? 7)%Z then "Updated " +:+ pretty diffDay +:+ "d ago"
      else "Updated " +:+ toLocaleDateString t
  end.

Definition bucketLabel (date : option Z) : string :=
  match date with
  | None => "Older"
  | Some t =>
      if (startOfToday <=? t)%Z then "Today"
      else if (startOfWeek <=? t)%Z then "This week"
      else "Older"
  end.

(** The row of a conversation. *)
Definition row_of (currentConversationId : value) (conv : summary) : row :=
  let d := parseISO (js_or (updated_at conv) (created_at conv)) in
  {| row_id := id conv;
     normalizedTitle :=
       if is_string "New Conversation" (title conv) || is_string "New reasoning" (title conv)
       then Str "Untitled reasoning"
       else js_or (title conv) (Str "Untitled reasoning");
     relative := relativeLabel d;
     is_active := is_string (id conv) currentConversationId |}.

(** The groups of the list, in the order in which they are rendered: the
    conversations of each label in list order, a label without
    conversations left out. *)
Definition groups (conversations : list summary) (currentConversationId : value)
    : list (string * list row) :=
  omap (fun label =>
          let items :=
            List.filter (fun conv =>
                           bucketLabel (parseISO (js_or (updated_at conv) (created_at conv)))
                           =? label) conversations in
          match items with
          | [] => None
          | _ => Some (label, map (row_of currentConversationId) items)
          end)
       ["Today"; "This week"; "Older"].

End Clock.

End Sidebar.

(** ** [ModelEvaluationStage.jsx] *)

(** [s.split(sep)] for a separator of one character. *)
Fixpoint split_on (sep : ascii) (s : string) : list string :=
  match s with
  | "" => [""]
  | String ch rest =>
      if Ascii.eqb ch sep then "" :: split_on sep rest
      else match split_on sep rest with
           | part :: parts => String ch part :: parts
           | [] => [String ch ""]
           end
  end.

(** [sep] does not occur in [s]. *)
Fixpoint free_of (sep : ascii) (s : string) : bool :=
  match s with
  | "" => true
  | String ch rest => negb (Ascii.eqb ch sep) && free_of sep rest
  end.

Module ModelEvaluationStage.

(** What the place of a rationale holds: a text, or the value of a property
    that [rationales] inherits, which is a function or an object and no
    text. *)
Inductive shown : Type :=
  | Text (s : string)
  | Inherited (name : string).

(** One entry of the list of selected models. *)
Record item : Type := {
  provider : string;
  modelName : string;
  rationale : shown
}.

Section Prototype.

(** The names of the properties of [Object.prototype] ([constructor],
    [toString], [__proto__] and the like).  [rationales] is an object that
    came out of [JSON.parse], so that it inherits them; each of them is a
    function or an object, and truthy. *)
Variable inherited : string -> bool.

(** [rationales[modelId] || 'Selected for this reasoning task'].  An own
    property is found first, and when it is the empty string the other side
    of [||] is taken; where there is no own property, an inherited one is
    found, and it is what [||] gives. *)
Definition rationale_of (rationales : gmap string string) (modelId : string) : shown :=
  match rationales !! modelId with
  | Some s => Text (SettingsManager.or_string s "Selected for this reasoning task")
  | None =>
      if inherited modelId then Inherited modelId
      else Text "Selected for this reasoning task"
  end.

(** The entry of [modelId]: [parts[0] || 'Unknown'], [parts[1] || modelId]
    and the rationale. *)
Definition item_of (rationales : gmap string string) (modelId : string) : item :=
  let parts := split_on "/" modelId in
  {| provider := SettingsManager.or_string (default "" (parts !! 0)) "Unknown";
     modelName := SettingsManager.or_string (default "" (parts !! 1)) modelId;
     rationale := rationale_of rationales modelId |}.

(** The entries, one for each selected model. *)
Definition items (models : list string) (rationales : gmap string string) : list item :=
  map (item_of rationales) models.

End Prototype.

End ModelEvaluationStage.

(** ** [ClarificationHistory.jsx] *)

Module ClarificationHistory.

Section Text.

(** The string a template literal makes of a value that is not a string. *)
Variable String_of : value -> string.

(** [`${v}`]. *)
Definition to_string (v : value) : string :=
  match v with
  | Str s => s
  | _ => String_of v
  end.

Definition nl : string := String newline "".

(** One round of the transcript:
    [`Q${index + 1}: [Question from analyst]\nA${index + 1}: ${answer}\n\n`]. *)
Definition round (index : nat) (answer : value) : string :=
  "Q" +:+ pretty (index + 1)%nat +:+ ": [Question from analyst]" +:+ nl +:+
  "A" +:+ pretty (index + 1)%nat +:+ ": " +:+ to_string answer +:+ nl +:+ nl.

(** [clarificationText]: the heading, then a round appended for each
    answer, then, if there is a briefing, its heading and its objective. *)
Definition clarificationText (history : list value) (briefing : value) : string :=
  let heading := "CLARIFICATION PHASE" +:+ nl +:+ nl in
  let rounds := fold_left String.append (imap round history) heading in
  if truthy briefing then
    let final := rounds +:+ (nl +:+ "FINAL BRIEFING" +:+ nl +:+ nl) in
    let objective := get_opt briefing "objective" in
    if truthy objective then final +:+ ("Objective: " +:+ to_string objective +:+ nl +:+ nl)
    else final
  else rounds.

(** What the component renders. *)
Record rendered : Type := {
  text : string;
  preview : string;
  needsExpansion : bool;
  count : string
}.

(** The component; [None] where it renders nothing. *)
Definition render (clarificationState : option clarification) : option rendered :=
  match clarificationState with
  | None => None
  | Some cs =>
      match history cs with
      | None | Some [] => None
      | Some history =>
          let previewLines := 5 in
          let clarificationText := clarificationText history (briefing cs) in
          let lines := split_lines clarificationText in
          Some {| text := clarificationText;
                  preview := join nl (take previewLines lines);
                  needsExpansion := (previewLines <? length lines)%nat;
                  count := pretty (length history) +:+ " question" +:+
                           (if (length history =? 1)%nat then "" else "s") +:+ " answered" |}
      end
  end.

End Text.

End ClarificationHistory.

(** The newlines of [s]. *)
Fixpoint newlines (s : string) : nat :=
  match s with
  | "" => 0
  | String ch rest => (if Ascii.eqb ch newline then 1 else 0) + newlines rest
  end.

(** * Properties *)

(** ** Runs of handlers *)

Lemma effects_bind {A B} (m : M A) (k : A -> M B) :
  effects (bind m k) =
  effects m ++ match outcome m with Normal a => effects (k a) | Throw _ => [] end.
Proof.
  destruct m as [t [a|e]]; simpl.
  - destruct (k a); reflexivity.
  - symmetry. apply app_nil_r.
Qed.

Lemma outcome_bind {A B} (m : M A) (k : A -> M B) :
  outcome (bind m k) =
  match outcome m with Normal a => outcome (k a) | Throw e => Throw e end.
Proof.
  destruct m as [t [a|e]]; simpl; [destruct (k a)|]; reflexivity.
Qed.

Lemma effects_try_catch {A} (m : M A) (h : exn -> M A) :
  effects (try_catch m h) =
  effects m ++ match outcome m with Normal _ => [] | Throw e => effects (h e) end.
Proof.
  destruct m as [t [a|e]]; simpl.
  - symmetry. apply app_nil_r.
  - destruct (h e); reflexivity.
Qed.

Lemma outcome_try_catch {A} (m : M A) (h : exn -> M A) :
  outcome (try_catch m h) =
  match outcome m with Normal a => Normal a | Throw e => outcome (h e) end.
Proof.
  destruct m as [t [a|e]]; simpl; [|destruct (h e)]; reflexivity.
Qed.

Lemma bind_emit {A} (e : effect) (k : unit -> M A) :
  bind (emit e) k = (e :: effects (k tt), outcome (k tt)).
Proof. unfold bind, emit. destruct (k tt). reflexivity. Qed.

Lemma effects_bind_emit {A} (e : effect) (k : unit -> M A) :
  effects (bind (emit e) k) = e :: effects (k tt).
Proof. rewrite bind_emit. reflexivity. Qed.

Lemma outcome_bind_emit {A} (e : effect) (k : unit -> M A) :
  outcome (bind (emit e) k) = outcome (k tt).
Proof. rewrite bind_emit. reflexivity. Qed.

Lemma bind_lift_normal {A B} (a : A) (k : A -> M B) : bind (lift (Normal a)) k = k a.
Proof. unfold bind, lift. destruct (k a). reflexivity. Qed.

Lemma bind_lift_throw {A B} (e : exn) (k : A -> M B) : bind (lift (Throw e)) k = throw e.
Proof. reflexivity. Qed.

Lemma try_catch_throw {A} (e : exn) (h : exn -> M A) : try_catch (throw e) h = h e.
Proof. unfold try_catch, throw. destruct (h e). reflexivity. Qed.

Lemma outcome_logged (m : M unit) : outcome (try_catch m log_failure) = Normal tt.
Proof. destruct m as [t [[]|e]]; reflexivity. Qed.

Lemma queued_app (t1 t2 : list effect) : queued (t1 ++ t2) = queued t1 ++ queued t2.
Proof. apply omap_app. Qed.

Lemma emitted_app (t1 t2 : list effect) : emitted (t1 ++ t2) = emitted t1 ++ emitted t2.
Proof. apply omap_app. Qed.

Lemma queued_try_catch_quiet {A} (m : M A) (h : exn -> M A) :
  (forall e, queued (effects (h e)) = []) ->
  queued (effects (try_catch m h)) = queued (effects m).
Proof.
  intros Hh. rewrite effects_try_catch, queued_app.
  destruct (outcome m); [|rewrite Hh]; apply app_nil_r.
Qed.

Lemma effects_for_of {A} (body : A -> M unit) (l : list A) :
  (forall x, outcome (body x) = Normal tt) ->
  effects (for_of body l) = concat (map (fun x => effects (body x)) l) /\
  outcome (for_of body l) = Normal tt.
Proof.
  intros Hbody. induction l as [|x l [IHe IHo]]; [split; reflexivity|].
  simpl for_of. rewrite effects_bind, outcome_bind, Hbody. simpl.
  rewrite IHe. split; [reflexivity|exact IHo].
Qed.

Lemma queued_concat (ts : list (list effect)) :
  queued (concat ts) = concat (map queued ts).
Proof.
  induction ts as [|t ts IH]; [reflexivity|]. simpl. rewrite queued_app, IH. reflexivity.
Qed.

Lemma emitted_concat (ts : list (list effect)) :
  emitted (concat ts) = concat (map emitted ts).
Proof.
  induction ts as [|t ts IH]; [reflexivity|]. simpl. rewrite emitted_app, IH. reflexivity.
Qed.

Lemma apply_updates_app (us vs : list update) (c : conversation) :
  apply_updates (us ++ vs) c =
  match apply_updates us c with
  | (c', None) => apply_updates vs c'
  | stopped => stopped
  end.
Proof.
  revert c. induction us as [|u us IH]; intros c; simpl; [reflexivity|].
  destruct (apply_update u c); [apply IH|reflexivity].
Qed.

Lemma apply_updates_single (u : update) (c c' : conversation) :
  apply_update u c = Normal c' -> apply_updates [u] c = (c', None).
Proof. intros H. simpl. rewrite H. reflexivity. Qed.

(** An invariant of every updater in a queue is an invariant of the queue. *)
Lemma apply_updates_invariant (I : conversation -> Prop) (P : update -> Prop)
    (us : list update) (c : conversation) :
  (forall u c c', P u -> apply_update u c = Normal c' -> I c -> I c') ->
  Forall P us -> I c -> I (fst (apply_updates us c)).
Proof.
  intros Hstep Hus. revert c. induction Hus as [|u us Hu _ IH]; intros c Hc; [exact Hc|].
  simpl. destruct (apply_update u c) as [c'|e] eqn:Hrun; [|exact Hc].
  apply IH. exact (Hstep u c c' Hu Hrun Hc).
Qed.

(** ** Lists and lines *)

Lemma Forall_concat {A} (P : A -> Prop) (ls : list (list A)) :
  Forall (Forall P) ls -> Forall P (concat ls).
Proof.
  induction 1 as [|l ls Hl _ IH]; [constructor|]. simpl. apply Forall_app. split; assumption.
Qed.

Lemma concat_option_list {A B} (f : A -> option B) (l : list A) :
  concat (map (fun x => option_list (f x)) l) = omap f l.
Proof.
  induction l as [|x l IH]; [reflexivity|]. simpl. rewrite IH.
  destruct (f x); reflexivity.
Qed.

Lemma pop_snoc {A} (x : A) (pre : list A) : pop (pre ++ [x]) = pre.
Proof.
  unfold pop. rewrite length_app. simpl.
  replace (length pre + 1 - 1) with (length pre) by lia.
  apply take_app_length.
Qed.

Lemma pop_cons {A} (x : A) (l : list A) : l <> [] -> pop (x :: l) = x :: pop l.
Proof.
  intros Hl. unfold pop. destruct l as [|y l]; [contradiction|].
  simpl. rewrite Nat.sub_0_r. reflexivity.
Qed.

Lemma last_pop {A} (l : list A) (x : A) : last l = Some x -> l = pop l ++ [x].
Proof.
  intros Hl. destruct (last_Some l x) as [[pre ->] _]; [exact Hl|].
  rewrite pop_snoc. reflexivity.
Qed.

Lemma head_tail {A} (l : list A) (x : A) : head l = Some x -> l = x :: tail l.
Proof. destruct l; [discriminate|]. intros [= ->]. reflexivity. Qed.

Lemma snoc_neq {A} (pre : list A) (x : A) : pre <> pre ++ [x].
Proof.
  intros H. apply (f_equal length) in H. rewrite length_app in H. simpl in H. lia.
Qed.

Lemma slice_0_minus2_snoc2 {A} (pre : list A) (x y : A) :
  slice_0_minus2 (pre ++ [x; y]) = pre.
Proof.
  unfold slice_0_minus2. rewrite length_app. simpl.
  replace (length pre + 2 - 2) with (length pre) by lia.
  apply take_app_length.
Qed.

Lemma split_lines_nonempty (s : string) : split_lines s <> [].
Proof.
  destruct s as [|c s]; simpl; [discriminate|].
  destruct (Ascii.eqb c newline); [discriminate|].
  destruct (split_lines s); discriminate.
Qed.

(** Splitting a concatenation: the lines of the first part but its last,
    then the last line of the first part run on into the first line of the
    second, then the other lines of the second part. *)
Lemma split_lines_app (a b : string) :
  split_lines (a +:+ b) =
  pop (split_lines a) ++
  [default "" (last (split_lines a)) +:+ default "" (head (split_lines b))] ++
  tail (split_lines b).
Proof.
  induction a as [|c a IH].
  - change ("" +:+ b) with b. simpl.
    destruct (split_lines b) as [|l ls] eqn:Hb; [|reflexivity].
    destruct (split_lines_nonempty b Hb).
  - change (String c a +:+ b) with (String c (a +:+ b)). simpl split_lines.
    rewrite IH. clear IH.
    destruct (Ascii.eqb c newline).
    + rewrite pop_cons by apply split_lines_nonempty.
      destruct (split_lines a) as [|l ls] eqn:Ha; [destruct (split_lines_nonempty a Ha)|].
      reflexivity.
    + destruct (split_lines a) as [|l ls] eqn:Ha; [destruct (split_lines_nonempty a Ha)|].
      destruct ls as [|l' ls]; [reflexivity|].
      rewrite (pop_cons l), (pop_cons (String c l)) by discriminate.
      cbn [app last]. reflexivity.
Qed.

Lemma slice_to_app (a b : string) : slice_to (String.length a) (a +:+ b) = a.
Proof.
  induction a as [|c a IH]; [destruct b; reflexivity|].
  change (String c a +:+ b) with (String c (a +:+ b)). simpl. rewrite IH. reflexivity.
Qed.

Lemma slice_from_app (a b : string) : slice_from (String.length a) (a +:+ b) = b.
Proof. induction a as [|c a IH]; [reflexivity|exact IH]. Qed.

Lemma string_length_app (a b : string) :
  String.length (a +:+ b) = String.length a + String.length b.
Proof.
  induction a as [|c a IH]; [reflexivity|].
  change (String c a +:+ b) with (String c (a +:+ b)). simpl. rewrite IH. reflexivity.
Qed.

Lemma string_length_pos (a : string) : a <> "" -> 0 < String.length a.
Proof. destruct a; [contradiction|simpl; lia]. Qed.

(** ** The streaming client *)

Lemma on_line_cases (JSON_parse : string -> completion value)
    (onEvent : value -> value -> M unit) (line : string) :
  on_line JSON_parse onEvent line =
  if startsWith line "data: " then
    match JSON_parse (slice_from 6 line) with
    | Normal event => try_catch (dispatch onEvent event) log_failure
    | Throw e => log_failure e
    end
  else ret tt.
Proof.
  unfold on_line. destruct (startsWith line "data: "); [|reflexivity].
  destruct (JSON_parse (slice_from 6 line)) as [event|e].
  - rewrite bind_lift_normal. reflexivity.
  - rewrite bind_lift_throw. apply try_catch_throw.
Qed.

Lemma outcome_on_line (JSON_parse : string -> completion value)
    (onEvent : value -> value -> M unit) (line : string) :
  outcome (on_line JSON_parse onEvent line) = Normal tt.
Proof.
  rewrite on_line_cases. destruct (startsWith line "data: "); [|reflexivity].
  destruct (JSON_parse (slice_from 6 line)); [apply outcome_logged|reflexivity].
Qed.

(** The loop over the chunks: line by line through every chunk in order,
    and an exception only from a read that fails. *)
Lemma read_loop_lines (JSON_parse : string -> completion value)
    (onEvent : value -> value -> M unit) (body : list string) (broken : bool) :
  effects (read_loop JSON_parse onEvent body broken)
  = concat (map (fun line => effects (on_line JSON_parse onEvent line))
                (concat (map split_lines body))) /\
  outcome (read_loop JSON_parse onEvent body broken)
  = if broken then Throw NetworkError else Normal tt.
Proof.
  induction body as [|chunk rest [IHe IHo]]; [destruct broken; split; reflexivity|].
  simpl read_loop. rewrite effects_bind, outcome_bind.
  destruct (effects_for_of (on_line JSON_parse onEvent) (split_lines chunk)
              (outcome_on_line JSON_parse onEvent)) as [He Ho].
  rewrite He, Ho, IHe. simpl. rewrite map_app, concat_app. split; [reflexivity|exact IHo].
Qed.

(** One line, observed: the callback is called for a well-formed record and
    for nothing else. *)
Lemma emitted_on_line (JSON_parse : string -> completion value) (line : string) :
  emitted (effects (on_line JSON_parse observe line))
  = option_list (record_event JSON_parse line).
Proof.
  rewrite on_line_cases. unfold record_event.
  destruct (startsWith line "data: "); [|reflexivity].
  destruct (JSON_parse (slice_from 6 line)) as [event|e]; [|reflexivity].
  unfold dispatch. destruct (get_prop event "type") as [type|e]; reflexivity.
Qed.

Lemma decode_lines (JSON_parse : string -> completion value) (body : list string) :
  decode JSON_parse body
  = omap (record_event JSON_parse) (concat (map split_lines body)).
Proof.
  unfold decode.
  destruct (read_loop_lines JSON_parse observe body false) as [-> _].
  rewrite emitted_concat, map_map, <- concat_option_list.
  f_equal. apply map_ext. intros line. apply emitted_on_line.
Qed.

(** The handlers get what the observer sees: the updaters a stream queues
    are those of the calls of the callback, call by call. *)
Lemma queued_read_loop (JSON_parse : string -> completion value)
    (onEvent : value -> value -> M unit) (body : list string) (broken : bool) :
  queued (effects (read_loop JSON_parse onEvent body broken))
  = concat (map (fun call => queued (effects (try_catch (onEvent call.1 call.2) log_failure)))
                (decode JSON_parse body)).
Proof.
  rewrite decode_lines.
  destruct (read_loop_lines JSON_parse onEvent body broken) as [-> _].
  rewrite queued_concat, map_map.
  induction (concat (map split_lines body)) as [|line lines IH]; [reflexivity|].
  simpl. rewrite IH. clear IH.
  rewrite on_line_cases. unfold record_event.
  destruct (startsWith line "data: "); [|reflexivity].
  destruct (JSON_parse (slice_from 6 line)) as [event|e]; [|reflexivity].
  unfold dispatch. destruct (get_prop event "type") as [type|e].
  - rewrite bind_lift_normal. reflexivity.
  - reflexivity.
Qed.

(** Whatever holds of the updaters of every single event holds of all the
    updaters a stream queues. *)
Lemma queued_stream (JSON_parse : string -> completion value)
    (onEvent : value -> value -> M unit) (P : update -> Prop)
    (r : request) (failure : string) (net : fetched) :
  (forall event, Forall P (queued (effects (try_catch (dispatch onEvent event) log_failure)))) ->
  Forall P (queued (effects (stream JSON_parse onEvent r failure net))).
Proof.
  intros Hevent. unfold stream. rewrite bind_emit. simpl.
  destruct net as [|resp]; [constructor|].
  destruct (ok resp); simpl; [|constructor].
  destruct (read_loop_lines JSON_parse onEvent (chunks resp) (broken resp)) as [-> _].
  rewrite queued_concat. apply Forall_concat. rewrite Forall_map, Forall_map.
  apply Forall_forall. intros line _. simpl. rewrite on_line_cases.
  destruct (startsWith line "data: "); [|constructor].
  destruct (JSON_parse (slice_from 6 line)); [apply Hevent|constructor].
Qed.




(** ** C9: what the decoder hands on *)


(** A body with a cut record between two good ones, decoded. *)
Example garbled_body_decoded :
  decode JSON.parse garbled_body
  = [ (Str "stage1_start", Obj [("type", Str "stage1_start")]);
      (Str "complete", Obj [("type", Str "complete")]) ].
Proof. vm_compute. reflexivity. Qed.

(** ** C10: a record cut by a chunk boundary *)

(** A record line that is self-delimited is lost wherever it is cut. *)
Lemma self_delimited_fragments (JSON_parse : string -> completion value) (f1 f2 : string) :
  f1 <> "" -> f2 <> "" ->
  self_delimited JSON_parse (f1 +:+ f2) = true ->
  record_event JSON_parse f1 = None /\ record_event JSON_parse f2 = None.
Proof.
  intros H1 H2 Hself. unfold self_delimited in Hself.
  rewrite forallb_forall in Hself.
  specialize (Hself (String.length f1)).
  rewrite slice_to_app, slice_from_app in Hself.
  assert (Hin : In (String.length f1) (seq 1 (String.length (f1 +:+ f2) - 1))).
  { apply in_seq. rewrite string_length_app.
    pose proof (string_length_pos f1 H1). pose proof (string_length_pos f2 H2). lia. }
  specialize (Hself Hin). apply andb_prop in Hself as [Ha Hb].
  split; [destruct (record_event JSON_parse f1)|destruct (record_event JSON_parse f2)];
    first [reflexivity|discriminate].
Qed.

(** C10, as the code has it: every chunk is split into lines by itself.
    When a line is cut by a chunk boundary into two parts, the end [f1] of
    one chunk and the start [f2] of the next, neither of which is a
    well-formed record by itself, the callback is called for every other
    record of the two chunks, in order, and not for that line; had the two
    chunks come as one, it would have been called for the line as well (if
    the line is a record). *)
Theorem split_record_is_lost (JSON_parse : string -> completion value)
    (c1 c2 f1 f2 : string) :
  last (split_lines c1) = Some f1 ->
  head (split_lines c2) = Some f2 ->
  record_event JSON_parse f1 = None ->
  record_event JSON_parse f2 = None ->
  (forall body,
     decode JSON_parse body
     = concat (map (fun chunk => omap (record_event JSON_parse) (split_lines chunk)) body)) /\
  decode JSON_parse [c1; c2]
  = omap (record_event JSON_parse) (pop (split_lines c1)) ++
    omap (record_event JSON_parse) (tail (split_lines c2)) /\
  decode JSON_parse [c1 +:+ c2]
  = omap (record_event JSON_parse) (pop (split_lines c1)) ++
    option_list (record_event JSON_parse (f1 +:+ f2)) ++
    omap (record_event JSON_parse) (tail (split_lines c2)).
Proof.
  intros Hlast Hhead Hf1 Hf2.
  split; [|split].
  - intros body. rewrite decode_lines.
    induction body as [|chunk body IH]; [reflexivity|].
    simpl. rewrite omap_app, IH. reflexivity.
  - rewrite decode_lines. simpl. rewrite app_nil_r, omap_app.
    rewrite (last_pop _ _ Hlast) at 1. rewrite (head_tail _ _ Hhead) at 1.
    rewrite omap_app. simpl. rewrite Hf1, Hf2. simpl. rewrite app_nil_r. reflexivity.
  - rewrite decode_lines. simpl. rewrite app_nil_r, split_lines_app, Hlast, Hhead.
    simpl. rewrite !omap_app. simpl.
    destruct (record_event JSON_parse (f1 +:+ f2)); reflexivity.
Qed.

Lemma split_record_is_lost_witness :
  last (split_lines first_chunk) = Some cut_head /\
  head (split_lines second_chunk) = Some cut_tail /\
  record_event JSON.parse cut_head = None /\
  record_event JSON.parse cut_tail = None /\
  decode JSON.parse [first_chunk; second_chunk]
  = [ (Str "stage1_start", Obj [("type", Str "stage1_start")]);
      (Str "complete", Obj [("type", Str "complete")]) ] /\
  decode JSON.parse [first_chunk +:+ second_chunk]
  = [ (Str "stage1_start", Obj [("type", Str "stage1_start")]);
      (Str "stage1_complete", Obj [("type", Str "stage1_complete")]);
      (Str "complete", Obj [("type", Str "complete")]) ].
Proof.
  assert (H1 : last (split_lines first_chunk) = Some cut_head) by (vm_compute; reflexivity).
  assert (H2 : head (split_lines second_chunk) = Some cut_tail) by (vm_compute; reflexivity).
  assert (H3 : record_event JSON.parse cut_head = None) by (vm_compute; reflexivity).
  assert (H4 : record_event JSON.parse cut_tail = None) by (vm_compute; reflexivity).
  destruct (split_record_is_lost JSON.parse first_chunk second_chunk cut_head cut_tail
              H1 H2 H3 H4) as (_ & Hsplit & Hwhole).
  split; [exact H1|]. split; [exact H2|]. split; [exact H3|]. split; [exact H4|].
  split; [exact Hsplit|exact Hwhole].
Defined.

(** C10, as stated, fails: [JSON.parse] skips white space after a value.
    A record line that ends in a blank, cut before the blank, leaves a first
    part that is a well-formed record by itself, and the callback is called
    for it. *)
Lemma split_record_still_emitted :
  last (split_lines (record_line "complete")) = Some (record_line "complete") /\
  head (split_lines (" " +:+ blank_line)) = Some " " /\
  record_line "complete" <> "" /\ " " <> "" /\
  self_delimited JSON.parse (record_line "complete" +:+ " ") = false /\
  startsWith (record_line "complete" +:+ " ") "data: " = true /\
  record_event JSON.parse (record_line "complete" +:+ " ")
  = Some (Str "complete", Obj [("type", Str "complete")]) /\
  decode JSON.parse [record_line "complete"; " " +:+ blank_line]
  = [ (Str "complete", Obj [("type", Str "complete")]) ].
Proof.
  split; [vm_compute; reflexivity|]. split; [vm_compute; reflexivity|].
  split; [discriminate|]. split; [discriminate|].
  repeat split; vm_compute; reflexivity.
Qed.

(** ** The last message *)

Lemma set_last_snoc (m m' : message) (pre : list message) :
  set_last m' (pre ++ [m]) = pre ++ [m'].
Proof.
  unfold set_last. rewrite length_app. simpl.
  replace (length pre + 1 - 1) with (length pre + 0) by lia.
  rewrite insert_app_r. reflexivity.
Qed.

Lemma get_prop_total (event : value) (k k' : string) (v : value) :
  get_prop event k = Normal v -> get_prop event k' = Normal (get_opt event k').
Proof.
  unfold get_opt. destruct event; simpl; intros H; try discriminate H; reflexivity.
Qed.

Lemma stage_start_snoc (n : stage) (c : conversation) (pre : list message) (m : message)
    (l : loading_flags) :
  messages c = pre ++ [m] ->
  loading m = Some l ->
  apply_update (StageStart n) c
  = Normal (set_messages (pre ++ [with_loading (set_loading n true l) m]) c).
Proof.
  intros Hms Hl. simpl. unfold stage_start. rewrite Hms, last_snoc. simpl.
  rewrite Hl. simpl. rewrite set_last_snoc. reflexivity.
Qed.

Lemma stage_complete_snoc (n : stage) (event data : value) (c : conversation)
    (pre : list message) (m : message) (l : loading_flags) :
  messages c = pre ++ [m] ->
  loading m = Some l ->
  get_prop event "data" = Normal data ->
  apply_update (StageComplete n event) c
  = Normal (set_messages
              (pre ++ [with_loading (set_loading n false l)
                         (match n with
                          | Stage2 => with_metadata (get_opt event "metadata")
                                        (with_stage n data m)
                          | _ => with_stage n data m
                          end)]) c).
Proof.
  intros Hms Hl Hdata.
  pose proof (get_prop_total event "data" "metadata" data Hdata) as Hmd.
  simpl. unfold stage_complete. rewrite Hms, last_snoc. simpl. rewrite Hdata. simpl.
  destruct n; simpl; rewrite ?Hmd; simpl; rewrite Hl; simpl;
    rewrite set_last_snoc; reflexivity.
Qed.

(** ** C1: stage fields *)

(** C1, as the code has it: a [stageN_complete] event sets the stage field of
    the last message to the data of the event whatever the field held before,
    and clears [loading.stageN]; for stage 2 it also sets [metadata] to the
    metadata of the event, for stages 1 and 3 [metadata] stays as it was.
    Nothing else changes, in the last message ([role], [content], the other
    stage fields, the other loading flags), in the messages before it or in
    the rest of the conversation, and a second delivery of the same event
    leaves the conversation as the first did. *)
Theorem stage_complete_overwrites (n : stage) (event data : value) (c : conversation)
    (pre : list message) (lastMsg : message) (l : loading_flags) :
  messages c = pre ++ [lastMsg] ->
  loading lastMsg = Some l ->
  get_prop event "data" = Normal data ->
  exists m',
    apply_update (StageComplete n event) c = Normal (set_messages (pre ++ [m']) c) /\
    stage_field n m' = data /\
    loading m' = Some (set_loading n false l) /\
    (forall k, k <> n -> stage_field k m' = stage_field k lastMsg) /\
    metadata m' = match n with
                  | Stage2 => get_opt event "metadata"
                  | _ => metadata lastMsg
                  end /\
    role m' = role lastMsg /\ content m' = content lastMsg /\
    apply_update (StageComplete n event) (set_messages (pre ++ [m']) c)
    = Normal (set_messages (pre ++ [m']) c).
Proof.
  intros Hms Hl Hdata.
  eexists. split; [apply (stage_complete_snoc n event data c pre lastMsg l Hms Hl Hdata)|].
  split; [destruct n; reflexivity|].
  split; [destruct n; reflexivity|].
  split; [intros k Hk; destruct n, k; try reflexivity; contradiction|].
  split; [destruct n; reflexivity|].
  split; [destruct n; reflexivity|].
  split; [destruct n; reflexivity|].
  erewrite stage_complete_snoc; [|reflexivity|reflexivity|exact Hdata].
  destruct n, l; reflexivity.
Qed.

Lemma stage_complete_overwrites_witness :
  messages midway = [userMessage "Should we ship v2 this quarter?"] ++ [answered] /\
  loading answered = Some loaded /\
  get_prop stage1_again "data" = Normal (Arr [Str "c"]) /\
  exists m',
    apply_update (StageComplete Stage1 stage1_again) midway
    = Normal (set_messages ([userMessage "Should we ship v2 this quarter?"] ++ [m']) midway) /\
    stage1 m' = Arr [Str "c"].
Proof.
  split; [reflexivity|]. split; [reflexivity|]. split; [reflexivity|].
  destruct (stage_complete_overwrites Stage1 stage1_again (Arr [Str "c"]) midway
              [userMessage "Should we ship v2 this quarter?"] answered loaded
              eq_refl eq_refl eq_refl) as (m' & Hrun & Hfield & _).
  exists m'. split; [exact Hrun|exact Hfield].
Defined.

(** C1, as stated, fails: the last message of [midway] has its [stage1], a
    second [stage1_complete] reaches the same updater on both paths (send and
    council), and the updater replaces the payload instead of ignoring the
    event. *)
Lemma stage_complete_not_write_once :
  last (messages midway) = Some answered /\
  ~ absent (stage1 answered) /\
  queued (effects (App.onEvent "c1" (Str "stage1_complete") stage1_again))
  = [StageComplete Stage1 stage1_again] /\
  queued (effects (ChatInterface.onEvent "c1" true true (Str "stage1_complete") stage1_again))
  = [StageComplete Stage1 stage1_again] /\
  apply_update (StageComplete Stage1 stage1_again) midway <> Normal midway /\
  (exists c', apply_update (StageComplete Stage1 stage1_again) midway = Normal c' /\
              stage1 <$> last (messages c') = Some (Arr [Str "c"])).
Proof.
  split; [reflexivity|].
  split; [intros [H|H]; discriminate H|].
  split; [reflexivity|]. split; [reflexivity|].
  split; [intros H; vm_compute in H; discriminate H|].
  eexists. split; [vm_compute; reflexivity|reflexivity].
Qed.

(** ** The two paths, event by event *)

(** What one event queues on the send path, by its kind. *)
Lemma queued_send_event (cid : string) (event : value) :
  queued (effects (try_catch (dispatch (App.onEvent cid) event) log_failure)) =
  match event_kind event with
  | StageStartKind n => [StageStart n]
  | StageCompleteKind n => [StageComplete n event]
  | TitleCompleteKind =>
      let t := get_opt (get_opt event "data") "title" in
      if truthy t then [TitleFromEvent t] else []
  | ClarificationQuestionKind => [ClarificationQuestion event]
  | _ => []
  end.
Proof.
  unfold event_kind, get_opt at 1, dispatch, App.onEvent.
  destruct event; try reflexivity.
  simpl get_prop. rewrite bind_lift_normal.
  destruct (kind_of (default Undefined (lookup_member "type" members))) eqn:K;
    try reflexivity.
  destruct (truthy (get_opt (get_opt (Obj members) "data") "title")); reflexivity.
Qed.

(** What one event queues on the council path, by its kind, as [App.jsx]
    wires the chat view. *)
Lemma queued_council_event (cid : string) (event : value) :
  queued (effects (try_catch
    (dispatch (ChatInterface.onEvent cid passes_onUpdateConversationState
                 passes_onConversationUpdate) event) log_failure)) =
  match event_kind event with
  | StageStartKind n => [StageStart n]
  | StageCompleteKind n => [StageComplete n event]
  | _ => []
  end.
Proof.
  unfold event_kind, get_opt at 1, dispatch, ChatInterface.onEvent.
  destruct event; try reflexivity.
  simpl get_prop. rewrite bind_lift_normal.
  destruct (kind_of (default Undefined (lookup_member "type" members))) eqn:K;
    try reflexivity; destruct n; reflexivity.
Qed.

Lemma council_event_updates (cid : string) (event : value) :
  Forall (fun u => is_stage_update u = true)
    (queued (effects (try_catch
       (dispatch (ChatInterface.onEvent cid passes_onUpdateConversationState
                    passes_onConversationUpdate) event) log_failure))).
Proof.
  rewrite queued_council_event.
  destruct (event_kind event); repeat constructor.
Qed.

Lemma fold_events_cons (cid : string) (event : value) (events : list value) (c : conversation) :
  fold_events cid (event :: events) c =
  match apply_updates
          (queued (effects (try_catch (dispatch (App.onEvent cid) event) log_failure))) c with
  | (c', None) => fold_events cid events c'
  | stopped => stopped
  end.
Proof.
  unfold fold_events. simpl for_of.
  rewrite effects_bind, outcome_logged, queued_app, apply_updates_app. reflexivity.
Qed.

Lemma payload_cons (kd : kind) (field : string) (event : value) (events : list value) :
  payload kd field (event :: events) =
  if decide (event_kind event = kd) then get_opt event field else payload kd field events.
Proof.
  unfold payload. simpl. destruct (decide (event_kind event = kd)) as [H|H].
  - rewrite bool_decide_eq_true_2 by exact H. reflexivity.
  - rewrite bool_decide_eq_false_2 by exact H. reflexivity.
Qed.

Lemma decode_types (JSON_parse : string -> completion value) (body : list string) :
  Forall (fun call => get_prop call.2 "type" = Normal call.1) (decode JSON_parse body).
Proof.
  rewrite decode_lines.
  induction (concat (map split_lines body)) as [|line lines IH]; [constructor|].
  simpl. unfold record_event at 1.
  destruct (startsWith line "data: "); [|exact IH].
  destruct (JSON_parse (slice_from 6 line)) as [event|e]; [|exact IH].
  destruct (get_prop event "type") as [type|e] eqn:Htype; [|exact IH].
  constructor; [exact Htype|exact IH].
Qed.

(** The send path, fed by a stream, folds the decoded events in order. *)
Lemma send_stream_folds (JSON_parse : string -> completion value) (cid : string)
    (body : list string) (broken : bool) (c : conversation) :
  apply_updates (queued (effects (read_loop JSON_parse (App.onEvent cid) body broken))) c
  = fold_events cid (map snd (decode JSON_parse body)) c.
Proof.
  rewrite queued_read_loop. unfold fold_events. f_equal.
  induction (decode_types JSON_parse body) as [|[type event] calls Htype _ IH]; [reflexivity|].
  simpl in *. rewrite effects_bind, outcome_logged, queued_app, <- IH.
  unfold dispatch at 1. rewrite Htype, bind_lift_normal. reflexivity.
Qed.

(** ** C2: a deliberation, folded *)

Lemma known_kind_data (event : value) :
  event_kind event <> UnknownKind ->
  get_prop event "data" = Normal (get_opt event "data").
Proof.
  unfold event_kind, get_opt. destruct event; simpl; intros H; try reflexivity;
    contradiction H; reflexivity.
Qed.

Lemma neutral_keeps_messages (cid : string) (event : value) (c : conversation) :
  neutral event = true ->
  exists c', apply_updates
               (queued (effects (try_catch (dispatch (App.onEvent cid) event) log_failure))) c
             = (c', None) /\ messages c' = messages c.
Proof.
  intros Hn. rewrite queued_send_event. unfold neutral in Hn.
  destruct (event_kind event); try discriminate Hn.
  - simpl. destruct (truthy _); simpl; eexists; split; reflexivity.
  - eexists; split; reflexivity.
  - eexists; split; reflexivity.
Qed.

Lemma neutral_payload (kd : kind) (field : string) (event : value) (events : list value) :
  neutral event = true ->
  (exists n, kd = StageCompleteKind n) ->
  payload kd field (event :: events) = payload kd field events.
Proof.
  intros Hn [n ->]. rewrite payload_cons. unfold neutral in Hn.
  case_decide as H; [rewrite H in Hn; discriminate Hn|reflexivity].
Qed.

Lemma step_kind_known (k : nat) (kd : kind) :
  step_kind k = Some kd -> kd <> UnknownKind /\ k < 7.
Proof.
  destruct k as [|[|[|[|[|[|[|?]]]]]]]; simpl; intros H; try discriminate H;
    injection H as <-; split; try lia; discriminate.
Qed.

(** The invariant of a deliberation from its [k]-th step on: what was
    completed before stays, what is still to come ends up as the stream
    says, and every flag raised on the way is lowered again. *)
Lemma deliberation_fold (cid : string) (k : nat) (events : list value) :
  deliberation k events ->
  forall (c : conversation) (pre : list message) (m : message) (l : loading_flags),
    messages c = pre ++ [m] ->
    loading m = Some l ->
    exists c' m' l',
      fold_events cid events c = (c', None) /\
      messages c' = pre ++ [m'] /\
      loading m' = Some l' /\
      stage1 m' = (if decide (k <= 1) then payload (StageCompleteKind Stage1) "data" events
                   else stage1 m) /\
      stage2 m' = (if decide (k <= 3) then payload (StageCompleteKind Stage2) "data" events
                   else stage2 m) /\
      metadata m' = (if decide (k <= 3) then payload (StageCompleteKind Stage2) "metadata" events
                     else metadata m) /\
      stage3 m' = (if decide (k <= 5) then payload (StageCompleteKind Stage3) "data" events
                   else stage3 m) /\
      loading_stage1 l' = (if decide (k <= 1) then false else loading_stage1 l) /\
      loading_stage2 l' = (if decide (k <= 3) then false else loading_stage2 l) /\
      loading_stage3 l' = (if decide (k <= 5) then false else loading_stage3 l).
Proof.
  induction 1 as [|k event events Hn _ IH|k event events Hk _ IH]; intros c pre m l Hms Hl.
  - exists c, m, l. repeat split; try assumption; case_decide; try lia; reflexivity.
  - destruct (neutral_keeps_messages cid event c Hn) as (c1 & Hrun & Hsame).
    rewrite Hms in Hsame.
    destruct (IH c1 pre m l Hsame Hl)
      as (c' & m' & l' & Hf & Hm' & Hl' & H1 & H2 & H3 & H4 & H5 & H6 & H7).
    exists c', m', l'. rewrite fold_events_cons, Hrun.
    rewrite !(neutral_payload _ _ event events Hn) by eauto.
    repeat split; assumption.
  - destruct (step_kind_known k _ Hk) as [Hknown Hlt].
    pose proof (known_kind_data event Hknown) as Hdata.
    rewrite fold_events_cons, queued_send_event.
    destruct k as [|[|[|[|[|[|[|?]]]]]]]; try lia;
      injection Hk as Hk; rewrite <- Hk;
      rewrite ?(apply_updates_single _ _ _ (stage_start_snoc _ c pre m l Hms Hl)),
              ?(apply_updates_single _ _ _
                  (stage_complete_snoc _ event _ c pre m l Hms Hl Hdata));
      change (apply_updates [] c) with (c, @None exn); cbv beta iota;
      match goal with
      | |- context [fold_events cid events (set_messages (pre ++ [?m1]) c)] =>
          destruct (IH (set_messages (pre ++ [m1]) c) pre m1
                      (default l (loading m1)) eq_refl eq_refl)
            as (c' & m' & l' & Hf & Hm' & Hl' & H1 & H2 & H3 & H4 & H5 & H6 & H7)
      | |- context [fold_events cid events c] =>
          destruct (IH c pre m l Hms Hl)
            as (c' & m' & l' & Hf & Hm' & Hl' & H1 & H2 & H3 & H4 & H5 & H6 & H7)
      end;
      exists c', m', l'; rewrite Hf, !payload_cons, <- Hk;
      repeat split; try assumption;
      repeat case_decide; try lia; try discriminate; simpl in *; congruence.
Qed.

(** C2: a well-formed stream (stage 1 start and completion, then stage 2,
    then stage 3, then [complete], whatever neutral events come in between)
    folded into a conversation that ends with the fresh assistant placeholder
    runs through without an exception and leaves, in that message, each stage
    field equal to the data of its [stageN_complete] event, [metadata] equal
    to that of the stage 2 event, and the three loading flags false. *)
Theorem deliberation_fills_stages (cid : string) (events : list value) (c : conversation)
    (pre : list message) :
  deliberation 0 events ->
  messages c = pre ++ [assistantMessage false] ->
  exists c' m,
    fold_events cid events c = (c', None) /\
    messages c' = pre ++ [m] /\
    stage1 m = payload (StageCompleteKind Stage1) "data" events /\
    stage2 m = payload (StageCompleteKind Stage2) "data" events /\
    metadata m = payload (StageCompleteKind Stage2) "metadata" events /\
    stage3 m = payload (StageCompleteKind Stage3) "data" events /\
    loading m = Some {| loading_stage1 := false; loading_stage2 := false;
                        loading_stage3 := false |}.
Proof.
  intros Hrun Hms.
  destruct (deliberation_fold cid 0 events Hrun c pre (assistantMessage false) _ Hms eq_refl)
    as (c' & m & l & Hf & Hm & Hl & H1 & H2 & H3 & H4 & H5 & H6 & H7).
  exists c', m. repeat split; try assumption.
  rewrite Hl. destruct l; simpl in *. subst. reflexivity.
Qed.

Lemma scenario_A_well_formed : deliberation 0 scenario_A.
Proof.
  unfold scenario_A.
  repeat first
    [ apply deliberation_done
    | apply deliberation_step; [reflexivity|]
    | apply deliberation_neutral; [reflexivity|] ].
Qed.

Lemma deliberation_fills_stages_witness :
  deliberation 0 scenario_A /\
  messages asked = [userMessage "Should we ship v2 this quarter?"] ++ [assistantMessage false] /\
  exists c' m,
    fold_events "c1" scenario_A asked = (c', None) /\
    messages c' = [userMessage "Should we ship v2 this quarter?"] ++ [m] /\
    stage1 m = Arr [Str "a"; Str "b"] /\
    stage2 m = Obj [("rank", Arr [Num 1; Num 0])] /\
    metadata m = Obj [("label_to_model", Obj [])] /\
    stage3 m = Str "Ship it." /\
    loading m = Some loaded.
Proof.
  split; [exact scenario_A_well_formed|]. split; [reflexivity|].
  exact (deliberation_fills_stages "c1" scenario_A asked
           [userMessage "Should we ship v2 this quarter?"]
           scenario_A_well_formed eq_refl).
Defined.

(** Scenario A from the wire to the conversation: a first message in a new
    conversation, the stream of a whole deliberation. *)
Example scenario_A_end_to_end :
  apply_updates
    (queued (effects (App.handleSendMessage JSON.parse (Some "c1") new_conversation None
                        "Should we ship v2 this quarter?" (delivered scenario_A_body))))
    new_conversation
  = (set_messages
       [ userMessage "Should we ship v2 this quarter?";
         {| role := "assistant"; content := Undefined;
            stage1 := Arr [Str "a"; Str "b"];
            stage2 := Obj [("rank", Arr [Num 1; Num 0])];
            stage3 := Str "Ship it."; metadata := Undefined; loading := Some loaded |} ]
       (set_title (Str "Should we ship v2 this quarter?") new_conversation),
     None).
Proof. vm_compute. reflexivity. Qed.

(** Scenario B: a first message when clarification comes first, answered by
    a question. *)
Example scenario_B_end_to_end :
  apply_updates
    (queued (effects (App.handleSendMessage JSON.parse (Some "c1") new_conversation
                        (Some clarifying) "Should we ship?" (delivered scenario_B_body))))
    new_conversation
  = (set_clarification_state
       (Some {| active := Bool true; history := Some [];
                current_question := Obj [("question", Str "What's the budget?")];
                briefing := Undefined; confirmed := Undefined; confirmed_at := Undefined |})
       first_sent,
     None).
Proof. vm_compute. reflexivity. Qed.

(** ** C3: rollback of a failed send *)

Lemma stream_fails_before_events (JSON_parse : string -> completion value)
    (onEvent : value -> value -> M unit) (r : request) (failure : string) (net : fetched) :
  fails_before_events JSON_parse net = true ->
  queued (effects (stream JSON_parse onEvent r failure net)) = [] /\
  is_throw (outcome (stream JSON_parse onEvent r failure net)) = true.
Proof.
  intros Hfail. unfold stream. rewrite effects_bind_emit, outcome_bind_emit.
  change (queued (Fetch r :: ?t)) with (queued t).
  destruct net as [|resp]; [split; reflexivity|].
  simpl in Hfail. destruct (ok resp); simpl in *; [|split; reflexivity].
  apply andb_prop in Hfail as [Hb Hnone]. rewrite queued_read_loop.
  destruct (read_loop_lines JSON_parse onEvent (chunks resp) (broken resp)) as [_ ->].
  rewrite Hb. destruct (decode JSON_parse (chunks resp)); [split; reflexivity|discriminate Hnone].
Qed.

Lemma optimistic_normal (cid : string) (c : conversation) (s : option settings) (content : string) :
  outcome (App.optimistic cid c s content) = Normal tt.
Proof.
  unfold App.optimistic.
  destruct (length (messages c) =? 0)%nat;
    destruct (match s with Some s0 => truthy (clarification_first_enabled s0) | None => false end);
    reflexivity.
Qed.

(** The optimistic edits, run: the user message and the placeholder are
    appended, or, for a first message when clarification comes first, the
    user message alone, to a list that was empty. *)
Lemma optimistic_appends (cid : string) (c : conversation) (s : option settings) (content : string) :
  exists sent,
    apply_updates (queued (effects (App.optimistic cid c s content))) c = (sent, None) /\
    (messages sent = messages c ++ [userMessage content; assistantMessage false] \/
     (messages c = [] /\ messages sent = [userMessage content])).
Proof.
  unfold App.optimistic.
  destruct (messages c) as [|m0 ms] eqn:Hms; simpl length; simpl Nat.eqb;
    destruct (match s with Some s0 => truthy (clarification_first_enabled s0) | None => false end);
    simpl; rewrite ?Hms; eexists; (split; [reflexivity|]); simpl; rewrite ?Hms;
    first [left; reflexivity | right; split; reflexivity
          | left; rewrite <- app_assoc; reflexivity].
Qed.

(** C3, as the code has it: when the request fails before a first event,
    [handleSendMessage] queues its optimistic edits and then the rollback,
    and nothing else; the rollback is [slice(0, -2)], and the message list
    (and its length) is afterwards what it was before the send.  Where the
    placeholder was appended, the two messages dropped are the user message
    and the placeholder, never one without the other; where it was not (a
    first message when clarification comes first), the user message is the
    only message there is, and it alone is dropped. *)
Theorem send_failure_rolls_back (JSON_parse : string -> completion value) (cid : string)
    (c : conversation) (s : option settings) (content : string) (net : fetched) :
  cid <> "" ->
  fails_before_events JSON_parse net = true ->
  exists sent,
    queued (effects (App.handleSendMessage JSON_parse (Some cid) c s content net))
    = queued (effects (App.optimistic cid c s content)) ++ [Rollback] /\
    apply_updates (queued (effects (App.optimistic cid c s content))) c = (sent, None) /\
    (messages sent = messages c ++ [userMessage content; assistantMessage false] \/
     (messages c = [] /\ messages sent = [userMessage content])) /\
    apply_updates (queued (effects (App.handleSendMessage JSON_parse (Some cid) c s content net))) c
    = (rollback sent, None) /\
    messages (rollback sent) = messages c /\
    length (messages (rollback sent)) = length (messages c).
Proof.
  intros Hcid Hfail.
  destruct (optimistic_appends cid c s content) as (sent & Hsent & Hshape).
  destruct (stream_fails_before_events JSON_parse (App.onEvent cid)
              (PostMessageStream cid content) "Failed to send message" net Hfail)
    as [Hnone Hthrow].
  assert (Hq : queued (effects (App.handleSendMessage JSON_parse (Some cid) c s content net))
               = queued (effects (App.optimistic cid c s content)) ++ [Rollback]).
  { unfold App.handleSendMessage. apply String.eqb_neq in Hcid. rewrite Hcid.
    rewrite effects_bind_emit. change (queued (SetIsLoading true :: ?t)) with (queued t).
    rewrite effects_try_catch, effects_bind, outcome_bind, optimistic_normal.
    unfold sendMessageStream. rewrite !queued_app, Hnone, app_nil_r.
    destruct (outcome (stream _ _ _ _ net)) as [[]|e]; [discriminate Hthrow|].
    reflexivity. }
  assert (Hback : messages (rollback sent) = messages c).
  { destruct Hshape as [Hpair|[Hempty Hone]]; simpl.
    - rewrite Hpair. apply slice_0_minus2_snoc2.
    - rewrite Hone, Hempty. reflexivity. }
  exists sent. split; [exact Hq|]. split; [exact Hsent|]. split; [exact Hshape|].
  split; [|split; [exact Hback|rewrite Hback; reflexivity]].
  rewrite Hq, apply_updates_app, Hsent. reflexivity.
Qed.

Lemma send_failure_rolls_back_witness :
  "c1" <> "" /\
  fails_before_events JSON.parse
    (Responded {| ok := true; chunks := [blank_line]; broken := true |}) = true /\
  exists sent,
    apply_updates (queued (effects (App.optimistic "c1" midway None "And v3?"))) midway
    = (sent, None) /\
    length (messages sent) = 4 /\
    apply_updates
      (queued (effects (App.handleSendMessage JSON.parse (Some "c1") midway None "And v3?"
                          (Responded {| ok := true; chunks := [blank_line]; broken := true |}))))
      midway
    = (rollback sent, None) /\
    messages (rollback sent) = messages midway.
Proof.
  split; [discriminate|]. split; [reflexivity|].
  destruct (send_failure_rolls_back JSON.parse "c1" midway None "And v3?"
              (Responded {| ok := true; chunks := [blank_line]; broken := true |})
              ltac:(discriminate) eq_refl)
    as (sent & _ & Hsent & Hshape & Hrun & Hback & _).
  exists sent. split; [exact Hsent|]. split; [|split; [exact Hrun|exact Hback]].
  destruct Hshape as [-> | [Hempty _]]; [reflexivity|discriminate Hempty].
Defined.

(** C3, as stated, fails: a first message sent when clarification comes
    first gets no placeholder; when the request fails, the rollback has one
    message to remove, the user message, not two. *)
Lemma rollback_of_lone_user_message :
  fails_before_events JSON.parse Rejected = true /\
  apply_updates (queued (effects (App.optimistic "c1" new_conversation (Some clarifying)
                                    "Should we ship?"))) new_conversation
  = (first_sent, None) /\
  messages first_sent = [userMessage "Should we ship?"] /\
  apply_updates
    (queued (effects (App.handleSendMessage JSON.parse (Some "c1") new_conversation
                        (Some clarifying) "Should we ship?" Rejected))) new_conversation
  = (rollback first_sent, None) /\
  messages (rollback first_sent) = [] /\
  length (messages first_sent) - length (messages (rollback first_sent)) = 1.
Proof. repeat split; reflexivity. Qed.

(** ** C4 and C5: a clarification question *)

Lemma is_empty_placeholder_snoc (pre : list message) (m : message) :
  is_empty_placeholder (pre ++ [m]) = (role m =? "assistant") && negb (truthy (stage1 m)).
Proof. unfold is_empty_placeholder. rewrite last_snoc. reflexivity. Qed.

Lemma absent_falsy (v : value) : absent v -> truthy v = false.
Proof. intros [-> | ->]; reflexivity. Qed.

(** C4: a [clarification_question] event removes the last message exactly
    when it is an assistant message whose [stage1] is not set, in the sense
    of the test [!stage1] ([null] and [undefined] are not set; an array or an
    object, as stage 1 delivers, is).  A last message that is an assistant
    message with its [stage1], or that is not an assistant message, stays, and
    so does an empty list.  In every case [active] becomes [true] and
    [current_question] the data of the event. *)
Theorem clarification_question_placeholder (event data : value) (c : conversation) :
  get_prop event "data" = Normal data ->
  exists c' cs,
    apply_update (ClarificationQuestion event) c = Normal c' /\
    clarification_state c' = Some cs /\
    active cs = Bool true /\
    current_question cs = data /\
    (messages c = [] -> messages c' = []) /\
    (forall pre m, messages c = pre ++ [m] ->
       (messages c' = pre \/ messages c' = pre ++ [m]) /\
       (messages c' = pre <-> role m = "assistant" /\ truthy (stage1 m) = false) /\
       (role m = "assistant" -> absent (stage1 m) -> messages c' = pre) /\
       (forall xs, stage1 m = Arr xs -> messages c' = pre ++ [m]) /\
       (forall ms, stage1 m = Obj ms -> messages c' = pre ++ [m]) /\
       (role m <> "assistant" -> messages c' = pre ++ [m])).
Proof.
  intros Hdata. simpl. unfold clarification_question. rewrite Hdata. simpl.
  eexists. eexists. split; [reflexivity|]. simpl.
  split; [reflexivity|]. split; [reflexivity|]. split; [reflexivity|].
  split; [intros ->; reflexivity|].
  intros pre m Hms. rewrite Hms, is_empty_placeholder_snoc, pop_snoc.
  destruct (String.eqb_spec (role m) "assistant") as [Hrole|Hrole];
    destruct (truthy (stage1 m)) eqn:Hset; simpl.
  - split; [right; reflexivity|].
    split; [split; [intros H; destruct (snoc_neq pre m (eq_sym H))
                   |intros [_ H]; discriminate H]|].
    split; [intros _ Habs; rewrite (absent_falsy _ Habs) in Hset; discriminate Hset|].
    repeat split; reflexivity.
  - split; [left; reflexivity|].
    split; [split; [intros _; split; [exact Hrole|reflexivity]|reflexivity]|].
    split; [reflexivity|].
    split; [intros xs H; rewrite H in Hset; discriminate Hset|].
    split; [intros ms H; rewrite H in Hset; discriminate Hset|].
    intros H; contradiction.
  - split; [right; reflexivity|].
    split; [split; [intros H; destruct (snoc_neq pre m (eq_sym H))
                   |intros [H _]; contradiction]|].
    split; [intros H; contradiction|]. repeat split; reflexivity.
  - split; [right; reflexivity|].
    split; [split; [intros H; destruct (snoc_neq pre m (eq_sym H))
                   |intros [H _]; contradiction]|].
    split; [intros H; contradiction|]. repeat split; reflexivity.
Qed.

Lemma clarification_question_placeholder_witness :
  get_prop budget_question "data" = Normal (Obj [("question", Str "What's the budget?")]) /\
  exists c' cs,
    apply_update (ClarificationQuestion budget_question) asked = Normal c' /\
    clarification_state c' = Some cs /\
    active cs = Bool true /\
    current_question cs = Obj [("question", Str "What's the budget?")] /\
    messages c' = [userMessage "Should we ship v2 this quarter?"].
Proof.
  split; [reflexivity|].
  destruct (clarification_question_placeholder budget_question
              (Obj [("question", Str "What's the budget?")]) asked eq_refl)
    as (c' & cs & Hrun & Hcs & Hactive & Hq & _ & Hlast).
  exists c', cs. repeat (split; [assumption|]).
  destruct (Hlast [userMessage "Should we ship v2 this quarter?"] (assistantMessage false) eq_refl)
    as (_ & _ & Hdrop & _).
  apply Hdrop; [reflexivity|left; reflexivity].
Defined.

(** C5, as the code has it: a [clarification_question] event installs a new
    clarification state, [{ active: true, history: [], current_question }],
    whatever the old one held: [history] is the empty list afterwards, and
    [briefing], [confirmed] and [confirmed_at] are gone.  The history is what
    it was only if it was the empty list. *)
Theorem clarification_question_resets (event data : value) (c : conversation) :
  get_prop event "data" = Normal data ->
  exists c',
    apply_update (ClarificationQuestion event) c = Normal c' /\
    clarification_state c'
    = Some {| active := Bool true; history := Some []; current_question := data;
              briefing := Undefined; confirmed := Undefined; confirmed_at := Undefined |} /\
    (history <$> clarification_state c' = history <$> clarification_state c <->
     history <$> clarification_state c = Some (Some [])).
Proof.
  intros Hdata. simpl. unfold clarification_question. rewrite Hdata. simpl.
  eexists. split; [reflexivity|]. split; [reflexivity|]. simpl.
  split; intros H; congruence.
Qed.

Lemma clarification_question_resets_witness :
  get_prop budget_question "data" = Normal (Obj [("question", Str "What's the budget?")]) /\
  exists c',
    apply_update (ClarificationQuestion budget_question) asked = Normal c' /\
    history <$> clarification_state c' = Some (Some []).
Proof.
  split; [reflexivity|].
  destruct (clarification_question_resets budget_question
              (Obj [("question", Str "What's the budget?")]) asked eq_refl)
    as (c' & Hrun & Hcs & _).
  exists c'. split; [exact Hrun|]. rewrite Hcs. reflexivity.
Defined.

(** C5, as stated, fails: [briefed] has one answer in its history; after a
    [clarification_question] event the history is empty. *)
Lemma clarification_question_drops_history :
  history <$> clarification_state briefed = Some (Some [Str "$2M"]) /\
  queued (effects (App.onEvent "c1" (Str "clarification_question") budget_question))
  = [ClarificationQuestion budget_question] /\
  exists c',
    apply_update (ClarificationQuestion budget_question) briefed = Normal c' /\
    history <$> clarification_state c' = Some (Some []) /\
    history <$> clarification_state c' <> history <$> clarification_state briefed.
Proof.
  split; [reflexivity|]. split; [reflexivity|].
  eexists. split; [reflexivity|]. split; [reflexivity|]. discriminate.
Qed.

(** ** What the updaters leave alone *)

Ltac split_cbind H :=
  repeat match type of H with
         | cbind ?x _ = Normal _ =>
             let E := fresh "E" in
             destruct x eqn:E; simpl in H; [|discriminate H]
         end.

(** A stage updater touches the messages and nothing else. *)
Lemma stage_update_frame (u : update) (c c' : conversation) :
  is_stage_update u = true ->
  apply_update u c = Normal c' ->
  clarification_state c' = clarification_state c /\ model_selection c' = model_selection c /\
  id c' = id c /\ title c' = title c.
Proof.
  destruct u; try discriminate; intros _ H; simpl in H.
  - unfold stage_start in H. split_cbind H. injection H as <-. repeat split.
  - unfold stage_complete in H. split_cbind H. injection H as <-. repeat split.
Qed.

Lemma keeps_clarification_sound (u : update) (c c' : conversation) :
  keeps_clarification u = true ->
  apply_update u c = Normal c' ->
  is_confirmed c -> is_confirmed c'.
Proof.
  intros Hu Hrun (cs & Hcs & Hconf).
  destruct (is_stage_update u) eqn:Hs.
  - destruct (stage_update_frame u c c' Hs Hrun) as (Hsame & _).
    exists cs. rewrite Hsame. split; assumption.
  - destruct u; try discriminate Hu; try discriminate Hs;
      injection Hrun as <-;
      cbv [rollback answer_briefing answer_question confirm_briefing lock_selection
           set_title set_messages set_clarification_state set_selection];
      simpl; rewrite ?Hcs; eexists; (split; [reflexivity|first [exact Hconf|reflexivity]]).
Qed.

Lemma keeps_selection_sound (u : update) (c c' : conversation) :
  keeps_selection u = true ->
  apply_update u c = Normal c' ->
  model_selection c' = model_selection c.
Proof.
  intros Hu Hrun.
  destruct (is_stage_update u) eqn:Hs.
  - apply (stage_update_frame u c c' Hs Hrun).
  - destruct u; try discriminate Hu; try discriminate Hs;
      try (injection Hrun as <-; reflexivity).
    simpl in Hrun. unfold clarification_question in Hrun. split_cbind Hrun.
    injection Hrun as <-. reflexivity.
Qed.

Lemma stage_update_keeps (u : update) :
  is_stage_update u = true -> keeps_clarification u = true /\ keeps_selection u = true.
Proof. destruct u; try discriminate; split; reflexivity. Qed.

Lemma append_or_stage_keeps (u : update) :
  u = AppendMessage (assistantMessage true) \/ is_stage_update u = true ->
  keeps_clarification u = true /\ keeps_selection u = true.
Proof. intros [-> | H]; [split; reflexivity|apply stage_update_keeps, H]. Qed.

Lemma append_or_stage_frame (u : update) (c c' : conversation) :
  u = AppendMessage (assistantMessage true) \/ is_stage_update u = true ->
  apply_update u c = Normal c' ->
  clarification_state c' = clarification_state c.
Proof.
  intros [-> | Hu] Hrun.
  - injection Hrun as <-. reflexivity.
  - apply (stage_update_frame u c c' Hu Hrun).
Qed.

(** ** The queues of the chat view's handlers *)

(** [proceedToCouncil] appends the placeholder and then queues stage
    updaters only. *)
Lemma queued_proceedToCouncil (JSON_parse : string -> completion value)
    (conv : conversation) (net : fetched) :
  exists rest,
    queued (effects (ChatInterface.proceedToCouncil JSON_parse (Some conv)
                       passes_onUpdateConversationState passes_onConversationUpdate net))
    = AppendMessage (assistantMessage true) :: rest /\
    Forall (fun u => is_stage_update u = true) rest.
Proof.
  unfold ChatInterface.proceedToCouncil.
  rewrite effects_bind_emit. change (queued (?e :: ?t)) with (queued t).
  rewrite queued_try_catch_quiet by (intros e; reflexivity).
  change (when passes_onUpdateConversationState ?m) with m.
  rewrite !effects_bind_emit.
  change (queued (SetCurrentConversation ?u :: ?e :: ?t)) with (u :: queued t).
  eexists. split; [reflexivity|]. unfold confirmClarificationBriefing.
  apply queued_stream. intros event. apply council_event_updates.
Qed.

Lemma queued_evaluate_models (JSON_parse : string -> completion value) (conv : conversation)
    (dp : option dynamic_picking) (picked : completion evaluation) :
  queued (effects (ChatInterface.evaluate_models conv dp picked)) = [].
Proof.
  unfold ChatInterface.evaluate_models.
  destruct dp as [dp|]; [|reflexivity].
  destruct (truthy (picking_mode dp)); [|reflexivity].
  destruct picked; reflexivity.
Qed.

(** [handleConfirmBriefing] starts with the two setters that hide the
    clarification view and the updater that records the confirmation; the
    rest of its queue is the placeholder and stage updaters. *)
Lemma handleConfirmBriefing_shape (JSON_parse : string -> completion value)
    (conv : conversation) (dp : option dynamic_picking) (now : string)
    (picked : completion evaluation) (net : fetched) :
  exists t,
    effects (ChatInterface.handleConfirmBriefing JSON_parse (Some conv)
               passes_onUpdateConversationState passes_onConversationUpdate
               dp now picked net)
    = SetShowClarificationUI false :: SetClarificationData Null ::
      SetCurrentConversation (ConfirmBriefing now) :: t /\
    Forall (fun u => u = AppendMessage (assistantMessage true) \/ is_stage_update u = true)
           (queued t).
Proof.
  unfold ChatInterface.handleConfirmBriefing.
  rewrite !effects_bind_emit.
  change (when passes_onUpdateConversationState ?m) with m.
  rewrite effects_bind_emit. eexists. split; [reflexivity|].
  rewrite effects_bind, queued_app, (queued_evaluate_models JSON_parse), app_nil_l.
  destruct (outcome (ChatInterface.evaluate_models conv dp picked)) as [[|]|e];
    cbv beta iota; try constructor.
  destruct (queued_proceedToCouncil JSON_parse conv net) as (rest & -> & Hrest).
  constructor; [left; reflexivity|].
  eapply Forall_impl; [exact Hrest|]. intros u Hu. right. exact Hu.
Qed.

Lemma queued_handleConfirmBriefing (JSON_parse : string -> completion value)
    (conv : conversation) (dp : option dynamic_picking) (now : string)
    (picked : completion evaluation) (net : fetched) :
  exists rest,
    queued (effects (ChatInterface.handleConfirmBriefing JSON_parse (Some conv)
                       passes_onUpdateConversationState passes_onConversationUpdate
                       dp now picked net))
    = ConfirmBriefing now :: rest /\
    Forall (fun u => u = AppendMessage (assistantMessage true) \/ is_stage_update u = true) rest.
Proof.
  destruct (handleConfirmBriefing_shape JSON_parse conv dp now picked net) as (t & -> & Ht).
  exists (queued t). split; [reflexivity|exact Ht].
Qed.

Lemma queued_handleProceed (JSON_parse : string -> completion value)
    (modelSelection : option evaluation) (conv : conversation)
    (saved : completion unit) (net : fetched) :
  exists rest,
    queued (effects (ChatInterface.handleProceedFromModelEvaluation JSON_parse modelSelection
                       (Some conv) passes_onUpdateConversationState
                       passes_onConversationUpdate saved net))
    = match modelSelection with Some sel => [LockSelection sel] | None => [] end ++
      AppendMessage (assistantMessage true) :: rest /\
    Forall (fun u => is_stage_update u = true) rest.
Proof.
  unfold ChatInterface.handleProceedFromModelEvaluation.
  destruct (queued_proceedToCouncil JSON_parse conv net) as (rest & Hq & Hrest).
  exists rest. split; [|exact Hrest].
  rewrite effects_bind, queued_app.
  assert (Hrest' : forall first : M unit,
            outcome first = Normal tt ->
            queued (match outcome first with
                    | Normal _ =>
                        effects (emit (SetShowModelEvaluation false) ;;;
                                 ChatInterface.proceedToCouncil JSON_parse (Some conv)
                                   passes_onUpdateConversationState
                                   passes_onConversationUpdate net)
                    | Throw _ => []
                    end) = AppendMessage (assistantMessage true) :: rest).
  { intros first ->. rewrite effects_bind_emit.
    change (queued (SetShowModelEvaluation false :: ?t)) with (queued t). exact Hq. }
  destruct modelSelection as [sel|]; [destruct saved as [[]|e]|];
    (rewrite Hrest' by reflexivity); reflexivity.
Qed.

Lemma queued_handleSubmit (conv : conversation) (answer : string) (reply : completion value) :
  queued (effects (ChatInterface.handleSubmitClarificationAnswer (Some conv)
                     passes_onUpdateConversationState answer reply))
  = match reply with
    | Normal result =>
        match get_prop result "type" with
        | Normal type =>
            [if is_string "briefing" type then AnswerBriefing answer result
             else AnswerQuestion answer result]
        | Throw _ => []
        end
    | Throw _ => []
    end.
Proof.
  unfold ChatInterface.handleSubmitClarificationAnswer.
  destruct reply as [result|e]; [|reflexivity].
  unfold call. rewrite bind_emit. simpl.
  destruct (get_prop result "type") as [type|e]; reflexivity.
Qed.

(** ** C6: the confirmation, once recorded *)

(** Every operation but a cancel and a clarification question queues only
    updaters that keep the clarification state's fields. *)
Lemma operation_keeps_clarification (JSON_parse : string -> completion value)
    (op : operation) (conv : conversation) :
  is_cancel op = false ->
  asks_question op = false ->
  Forall (fun u => keeps_clarification u = true)
         (queued (effects (run_operation JSON_parse op conv))).
Proof.
  intros Hcancel Hask. destruct op as [event|event|answer reply|dp now picked net|sel saved net|];
    unfold run_operation.
  - rewrite queued_send_event. simpl in Hask. apply bool_decide_eq_false in Hask.
    destruct (event_kind event); try contradiction; repeat constructor.
    simpl. destruct (truthy _); repeat constructor.
  - eapply Forall_impl; [apply council_event_updates|].
    intros u Hu. apply stage_update_keeps, Hu.
  - rewrite queued_handleSubmit.
    destruct reply as [result|e]; [|constructor].
    destruct (get_prop result "type") as [type|e]; [|constructor].
    destruct (is_string "briefing" type); repeat constructor.
  - destruct (queued_handleConfirmBriefing JSON_parse conv dp now picked net)
      as (rest & -> & Hrest).
    constructor; [reflexivity|].
    eapply Forall_impl; [exact Hrest|]. intros u Hu. apply append_or_stage_keeps, Hu.
  - destruct (queued_handleProceed JSON_parse sel conv saved net) as (rest & -> & Hrest).
    apply Forall_app. split; [destruct sel; repeat constructor|].
    constructor; [reflexivity|].
    eapply Forall_impl; [exact Hrest|]. intros u Hu. apply stage_update_keeps, Hu.
  - discriminate Hcancel.
Qed.

Lemma queued_loadConversation (cid : string) (reply : completion conversation) :
  queued (effects (App.loadConversation cid reply))
  = match reply with Normal copy => [Replace copy] | Throw _ => [] end.
Proof. destruct reply; reflexivity. Qed.

Lemma advance_reloaded (JSON_parse : string -> completion value)
    (reply : completion conversation) (c : conversation) :
  advance JSON_parse (Reloaded reply) c
  = match reply with Normal copy => copy | Throw _ => c end.
Proof. destruct reply; reflexivity. Qed.

(** A step that spares [good], for a [good] that the updaters which keep
    the clarification state keep, leaves it standing. *)
Lemma spared_is_kept (JSON_parse : string -> completion value)
    (good : conversation -> Prop) (steps : list step) (c : conversation) :
  (forall u c c', keeps_clarification u = true -> apply_update u c = Normal c' ->
                  good c -> good c') ->
  good c ->
  Forall (spares good) steps ->
  good (advance_all JSON_parse steps c).
Proof.
  intros Hkeep Hc Hsteps. revert c Hc.
  induction Hsteps as [|s steps Hs _ IH]; intros c Hc; [exact Hc|].
  change (advance_all JSON_parse (s :: steps) c)
    with (advance_all JSON_parse steps (advance JSON_parse s c)).
  apply IH. destruct s as [op|[copy|e]].
  - destruct Hs as [Hcancel Hask]. unfold advance, run_step.
    apply (apply_updates_invariant good (fun u => keeps_clarification u = true)).
    + exact Hkeep.
    + apply operation_keeps_clarification; assumption.
    + exact Hc.
  - rewrite advance_reloaded. exact Hs.
  - rewrite advance_reloaded. exact Hc.
Qed.

(** A [complete] on the council path starts a reload. *)
Lemma complete_starts_reload (JSON_parse : string -> completion value)
    (event : value) (conv : conversation) :
  event_kind event = CompleteKind ->
  effects (run_operation JSON_parse (CouncilEvent event) conv)
  = [SetClarificationLoading false; ScrollToBottom; OnConversationUpdate (id conv)].
Proof.
  unfold event_kind, get_opt, run_operation, dispatch, ChatInterface.onEvent.
  destruct event; simpl get_prop; cbn [kind_of]; try discriminate.
  intros Hkind. rewrite bind_lift_normal, Hkind. reflexivity.
Qed.

(** C6, as the code has it: once [confirmed] is [true] it stays [true]
    through every sequence of steps made of stream events on either path,
    answer submissions, briefing confirmations, proceeds from the model
    evaluation and reloads, provided that no step is a cancel of the model
    evaluation or a [clarification_question] event on the send path, and
    that every reload which resolves brings a copy that is confirmed
    itself.  The reload is not in the hands of the front end: every
    [complete] of the council path starts one, and when it resolves the
    conversation is the copy of the server, whatever that holds. *)
Theorem confirmed_is_kept (JSON_parse : string -> completion value)
    (steps : list step) (c : conversation) :
  is_confirmed c ->
  Forall (spares is_confirmed) steps ->
  is_confirmed (advance_all JSON_parse steps c) /\
  (forall event conv,
     event_kind event = CompleteKind ->
     In (OnConversationUpdate (id conv))
        (effects (run_operation JSON_parse (CouncilEvent event) conv))) /\
  (forall copy c0,
     queued (effects (App.loadConversation (id c0) (Normal copy))) = [Replace copy] /\
     advance JSON_parse (Reloaded (Normal copy)) c0 = copy).
Proof.
  intros Hc Hsteps. split; [|split].
  - apply spared_is_kept; [exact keeps_clarification_sound|exact Hc|exact Hsteps].
  - intros event conv Hkind. rewrite (complete_starts_reload JSON_parse event conv Hkind).
    right. right. left. reflexivity.
  - intros copy c0. split; reflexivity.
Qed.

Lemma confirmed_is_kept_witness :
  is_confirmed briefed /\
  Forall (spares is_confirmed)
    [Handled (ConfirmBriefingOp None "2025-01-02T00:00:00.000Z" (Throw NetworkError) Rejected);
     Handled (CouncilEvent stage1_again);
     Handled (CouncilEvent complete_event);
     Reloaded (Normal briefed);
     Handled (SendEvent stage1_again);
     Handled (SubmitAnswer "$3M" (Normal (Obj [("type", Str "briefing")])))] /\
  is_confirmed
    (advance_all JSON.parse
       [Handled (ConfirmBriefingOp None "2025-01-02T00:00:00.000Z" (Throw NetworkError) Rejected);
        Handled (CouncilEvent stage1_again);
        Handled (CouncilEvent complete_event);
        Reloaded (Normal briefed);
        Handled (SendEvent stage1_again);
        Handled (SubmitAnswer "$3M" (Normal (Obj [("type", Str "briefing")])))] briefed).
Proof.
  assert (Hc : is_confirmed briefed) by (exists briefed_state; split; reflexivity).
  assert (Hsteps : Forall (spares is_confirmed)
    [Handled (ConfirmBriefingOp None "2025-01-02T00:00:00.000Z" (Throw NetworkError) Rejected);
     Handled (CouncilEvent stage1_again);
     Handled (CouncilEvent complete_event);
     Reloaded (Normal briefed);
     Handled (SendEvent stage1_again);
     Handled (SubmitAnswer "$3M" (Normal (Obj [("type", Str "briefing")])))]).
  { do 3 (constructor; [split; reflexivity|]). constructor; [exact Hc|].
    do 2 (constructor; [split; reflexivity|]). constructor. }
  split; [exact Hc|]. split; [exact Hsteps|].
  exact (proj1 (confirmed_is_kept JSON.parse _ briefed Hc Hsteps)).
Defined.

(** C6, as stated, fails: [briefed] is confirmed; cancelling the model
    evaluation sets its clarification state to [null], and a
    [clarification_question] event on the send path installs a state without
    [confirmed].  So does a reload that brings a copy without it. *)
Lemma cancel_forgets_confirmation :
  is_confirmed briefed /\
  queued (effects (ChatInterface.handleCancelModelEvaluation passes_onUpdateConversationState))
  = [CancelEvaluation] /\
  clarification_state (perform JSON.parse CancelOp briefed) = None /\
  ~ is_confirmed (perform JSON.parse CancelOp briefed) /\
  confirmed <$> clarification_state (perform JSON.parse (SendEvent budget_question) briefed)
  = Some Undefined /\
  ~ is_confirmed (advance JSON.parse (Reloaded (Normal new_conversation)) briefed).
Proof.
  split; [exists briefed_state; split; reflexivity|].
  split; [reflexivity|]. split; [reflexivity|].
  split; [intros (cs & Hcs & _); discriminate Hcs|].
  split; [reflexivity|intros (cs & Hcs & _); discriminate Hcs].
Qed.

(** ** C7: the confirmation comes first *)

(** C7: [handleConfirmBriefing], as [App.jsx] wires the chat view, first
    hides the clarification view and queues the updater that sets
    [confirmed] to [true] and [active] to [false]; every request of the run
    (model picking, the deliberation stream) starts after that.  From that
    updater on, at every point of the queue, under every stream event, the
    conversation is confirmed and not active. *)
Theorem confirmation_comes_first (JSON_parse : string -> completion value)
    (conv : conversation) (dp : option dynamic_picking) (now : string)
    (picked : completion evaluation) (net : fetched) :
  let t := effects (ChatInterface.handleConfirmBriefing JSON_parse (Some conv)
                      passes_onUpdateConversationState passes_onConversationUpdate
                      dp now picked net) in
  (exists rest,
     t = SetShowClarificationUI false :: SetClarificationData Null ::
         SetCurrentConversation (ConfirmBriefing now) :: rest) /\
  (forall before r after,
     t = before ++ Fetch r :: after ->
     In (SetCurrentConversation (ConfirmBriefing now)) before) /\
  (forall c, exists c',
     apply_update (ConfirmBriefing now) c = Normal c' /\ is_closed c') /\
  (forall c k, 0 < k -> is_closed (fst (apply_updates (take k (queued t)) c))).
Proof.
  intros t. subst t.
  destruct (handleConfirmBriefing_shape JSON_parse conv dp now picked net) as (rest & Ht & Hrest).
  rewrite Ht.
  assert (Hclosed : forall c, is_closed (confirm_briefing now c)).
  { intros c. eexists. split; [reflexivity|]. split; reflexivity. }
  split; [exists rest; reflexivity|].
  split; [|split].
  - intros before r after Heq.
    destruct before as [|e1 [|e2 [|e3 before]]]; try discriminate Heq.
    injection Heq as _ _ H3 _. right. right. left. symmetry. exact H3.
  - intros c. eexists. split; [reflexivity|apply Hclosed].
  - intros c k Hk. destruct k as [|k]; [lia|].
    change (queued (?a :: ?b :: SetCurrentConversation ?u :: ?r)) with (u :: queued r).
    simpl take. simpl apply_updates.
    apply (apply_updates_invariant is_closed
             (fun u => u = AppendMessage (assistantMessage true) \/ is_stage_update u = true)).
    + intros u c0 c1 Hu Hrun (cs & Hcs & Hconf & Hact).
      exists cs. rewrite (append_or_stage_frame u c0 c1 Hu Hrun). repeat split; assumption.
    + apply Forall_take. exact Hrest.
    + apply Hclosed.
Qed.

(** ** C8: rationales and models *)

Lemma operation_keeps_selection (JSON_parse : string -> completion value)
    (op : operation) (conv : conversation) :
  locks_selection op = false ->
  Forall (fun u => keeps_selection u = true)
         (queued (effects (run_operation JSON_parse op conv))).
Proof.
  intros Hlock. destruct op as [event|event|answer reply|dp now picked net|sel saved net|];
    unfold run_operation.
  - rewrite queued_send_event.
    destruct (event_kind event); repeat constructor.
    simpl. destruct (truthy _); repeat constructor.
  - eapply Forall_impl; [apply council_event_updates|].
    intros u Hu. apply stage_update_keeps, Hu.
  - rewrite queued_handleSubmit.
    destruct reply as [result|e]; [|constructor].
    destruct (get_prop result "type") as [type|e]; [|constructor].
    destruct (is_string "briefing" type); repeat constructor.
  - destruct (queued_handleConfirmBriefing JSON_parse conv dp now picked net)
      as (rest & -> & Hrest).
    constructor; [reflexivity|].
    eapply Forall_impl; [exact Hrest|]. intros u Hu. apply append_or_stage_keeps, Hu.
  - destruct sel as [sel|]; [discriminate Hlock|].
    destruct (queued_handleProceed JSON_parse None conv saved net) as (rest & -> & Hrest).
    constructor; [reflexivity|].
    eapply Forall_impl; [exact Hrest|]. intros u Hu. apply stage_update_keeps, Hu.
  - repeat constructor.
Qed.

(** C8, as the code has it: proceeding from the model evaluation copies
    [models] and [rationales] of the evaluation result into the conversation
    as they are, so that afterwards the keys of [rationales] are among
    [models] exactly when that held of the result; every other operation
    (receiving an evaluation result, cancelling, stream events, answers)
    leaves the conversation's model selection as it was. *)
Theorem selection_follows_evaluation (JSON_parse : string -> completion value)
    (c : conversation) :
  (forall sel saved net,
     model_selection (perform JSON_parse (ProceedOp (Some sel) saved net) c)
     = Some {| models := eval_models sel;
               mode := js_or (eval_mode_used sel) (eval_mode sel);
               rationales := eval_rationales sel |} /\
     (selection_ok (perform JSON_parse (ProceedOp (Some sel) saved net) c) <->
      rationales_within (eval_models sel) (eval_rationales sel))) /\
  (forall op, locks_selection op = false ->
     model_selection (perform JSON_parse op c) = model_selection c).
Proof.
  split.
  - intros sel saved net.
    assert (Hsel : model_selection (perform JSON_parse (ProceedOp (Some sel) saved net) c)
                   = Some {| models := eval_models sel;
                             mode := js_or (eval_mode_used sel) (eval_mode sel);
                             rationales := eval_rationales sel |}).
    { unfold perform, run_operation.
      destruct (queued_handleProceed JSON_parse (Some sel) c saved net) as (rest & -> & Hrest).
      simpl app. simpl apply_updates.
      apply (apply_updates_invariant
               (fun c0 => model_selection c0 = Some {| models := eval_models sel;
                             mode := js_or (eval_mode_used sel) (eval_mode sel);
                             rationales := eval_rationales sel |})
               (fun u => is_stage_update u = true)).
      - intros u c0 c1 Hu Hrun Hc0.
        rewrite (keeps_selection_sound u c0 c1 (proj2 (stage_update_keeps u Hu)) Hrun).
        exact Hc0.
      - exact Hrest.
      - reflexivity. }
    split; [exact Hsel|]. unfold selection_ok. rewrite Hsel. reflexivity.
  - intros op Hlock. unfold perform.
    apply (apply_updates_invariant (fun c0 => model_selection c0 = model_selection c)
             (fun u => keeps_selection u = true)).
    + intros u c0 c1 Hu Hrun Hc0. rewrite (keeps_selection_sound u c0 c1 Hu Hrun). exact Hc0.
    + apply operation_keeps_selection. exact Hlock.
    + reflexivity.
Qed.

(** C8, as stated, fails: the evaluation result [stray] explains a model it
    did not select; after the proceed the conversation holds that rationale
    under a key that is not among its models. *)
Lemma proceed_copies_stray_rationale :
  ~ selection_ok (perform JSON.parse (ProceedOp (Some stray) (Normal tt) Rejected) new_conversation) /\
  exists sel,
    model_selection (perform JSON.parse (ProceedOp (Some stray) (Normal tt) Rejected) new_conversation)
    = Some sel /\
    models sel = ["vendor/model-a"] /\
    rationales sel !! "vendor/model-b" = Some "Lowest cost" /\
    "vendor/model-b" ∉ models sel.
Proof.
  assert (Hsel : model_selection (perform JSON.parse (ProceedOp (Some stray) (Normal tt) Rejected)
                              new_conversation)
                 = Some {| models := ["vendor/model-a"]; mode := Str "cheapest";
                           rationales := {[ "vendor/model-b" := "Lowest cost" ]} |})
    by reflexivity.
  split.
  - unfold selection_ok. rewrite Hsel. unfold rationales_within. cbn [models rationales].
    intros Hsub. specialize (Hsub "vendor/model-b").
    rewrite dom_singleton_L, elem_of_list_to_set, list_elem_of_singleton in Hsub.
    specialize (Hsub (proj2 (elem_of_singleton _ _) eq_refl)). discriminate Hsub.
  - eexists. split; [exact Hsel|]. split; [reflexivity|].
    split; [apply lookup_singleton_eq|]. cbn [models].
    rewrite list_elem_of_singleton. discriminate.
Qed.

(** ** What a run leaves behind: flags, requests and the view *)

Lemma omap_read_loop {B} (f : effect -> option B) (JSON_parse : string -> completion value)
    (onEvent : value -> value -> M unit) (body : list string) (broken : bool) :
  (forall label, f (ConsoleError label) = None) ->
  omap f (effects (read_loop JSON_parse onEvent body broken))
  = concat (map (fun call => omap f (effects (try_catch (onEvent call.1 call.2) log_failure)))
                (decode JSON_parse body)).
Proof.
  intros Hquiet. rewrite decode_lines.
  destruct (read_loop_lines JSON_parse onEvent body broken) as [-> _].
  induction (concat (map split_lines body)) as [|line lines IH]; [reflexivity|].
  simpl. rewrite omap_app, IH. clear IH.
  rewrite on_line_cases. unfold record_event.
  destruct (startsWith line "data: "); [|reflexivity].
  destruct (JSON_parse (slice_from 6 line)) as [event|e]; [|simpl; rewrite Hquiet; reflexivity].
  unfold dispatch. destruct (get_prop event "type") as [type|e].
  - rewrite bind_lift_normal. reflexivity.
  - simpl. rewrite Hquiet. reflexivity.
Qed.

Lemma outcome_stream (JSON_parse : string -> completion value)
    (onEvent : value -> value -> M unit) (r : request) (failure : string) (net : fetched) :
  is_throw (outcome (stream JSON_parse onEvent r failure net)) = failed net.
Proof.
  unfold stream. rewrite outcome_bind_emit. destruct net as [|resp]; [reflexivity|].
  simpl. destruct (ok resp); simpl; [|reflexivity].
  destruct (read_loop_lines JSON_parse onEvent (chunks resp) (broken resp)) as [_ ->].
  destruct (broken resp); reflexivity.
Qed.

Lemma omap_cons_list {A B} (f : A -> option B) (x : A) (l : list A) :
  omap f (x :: l) = option_list (f x) ++ omap f l.
Proof. simpl. destruct (f x); reflexivity. Qed.

Lemma omap_stream {B} (f : effect -> option B) (JSON_parse : string -> completion value)
    (onEvent : value -> value -> M unit) (r : request) (failure : string) (net : fetched) :
  (forall label, f (ConsoleError label) = None) ->
  omap f (effects (stream JSON_parse onEvent r failure net))
  = option_list (f (Fetch r)) ++
    concat (map (fun call => omap f (effects (try_catch (onEvent call.1 call.2) log_failure)))
                (received JSON_parse net)).
Proof.
  intros Hquiet. unfold stream. rewrite effects_bind_emit.
  assert (Hrest : omap f (effects (match net with
                    | Rejected => throw NetworkError
                    | Responded resp =>
                        if negb (ok resp) then throw (Error failure)
                        else read_loop JSON_parse onEvent (chunks resp) (broken resp)
                    end))
                  = concat (map (fun call => omap f (effects (try_catch (onEvent call.1 call.2)
                                                                log_failure)))
                                (received JSON_parse net))).
  { destruct net as [|resp]; [reflexivity|].
    simpl. destruct (ok resp); simpl; [|reflexivity].
    apply omap_read_loop, Hquiet. }
  rewrite omap_cons_list, Hrest. reflexivity.
Qed.

Lemma isLoading_sets_app (t1 t2 : list effect) :
  isLoading_sets (t1 ++ t2) = isLoading_sets t1 ++ isLoading_sets t2.
Proof. apply omap_app. Qed.

Lemma isLoading_send_call (cid : string) (type event : value) :
  get_prop event "type" = Normal type ->
  isLoading_sets (effects (try_catch (App.onEvent cid type event) log_failure))
  = if ends_send (kind_of type) then [false] else [].
Proof.
  intros Htype. unfold App.onEvent.
  destruct (kind_of type); try reflexivity.
  - destruct (truthy _); reflexivity.
  - rewrite (get_prop_total event "type" "message" type Htype), bind_lift_normal. reflexivity.
Qed.

Lemma isLoading_send_calls (cid : string) (calls : list (value * value)) :
  Forall (fun call => get_prop call.2 "type" = Normal call.1) calls ->
  concat (map (fun call => isLoading_sets
                 (effects (try_catch (App.onEvent cid call.1 call.2) log_failure))) calls)
  = concat (map (fun call => if ends_send (kind_of call.1) then [false] else []) calls).
Proof.
  induction 1 as [|[type event] calls Htype _ IH]; [reflexivity|].
  simpl in *. rewrite IH, (isLoading_send_call cid type event Htype). reflexivity.
Qed.

Lemma received_types (JSON_parse : string -> completion value) (net : fetched) :
  Forall (fun call => get_prop call.2 "type" = Normal call.1) (received JSON_parse net).
Proof.
  destruct net as [|resp]; [constructor|]. simpl.
  destruct (ok resp); [apply decode_types|constructor].
Qed.

(** The last value set, when a flag is raised, then lowered at some of the
    events, then lowered at the end or not. *)
Lemma last_of_sets {A} (p : A -> bool) (l : list A) (b : bool) :
  last (true :: concat (map (fun x => if p x then [false] else []) l) ++
        (if b then [false] else []))
  = Some (negb b && forallb (fun x => negb (p x)) l).
Proof.
  destruct b; simpl negb; simpl andb.
  - rewrite app_comm_cons, last_snoc. reflexivity.
  - rewrite app_nil_r.
    assert (H : forall first, last (first :: concat (map (fun x => if p x then [false] else []) l))
                = Some (if forallb (fun x => negb (p x)) l then first else false)).
    { induction l as [|x l IH]; intros first; [reflexivity|].
      simpl. destruct (p x); simpl.
      - rewrite IH. destruct (forallb _ l); reflexivity.
      - apply IH. }
    rewrite H. destruct (forallb _ l); reflexivity.
Qed.

Lemma isLoading_optimistic (cid : string) (c : conversation) (s : option settings)
    (content : string) :
  isLoading_sets (effects (App.optimistic cid c s content)) = [].
Proof.
  unfold App.optimistic.
  destruct (length (messages c) =? 0)%nat;
    destruct (match s with Some s0 => truthy (clarification_first_enabled s0) | None => false end);
    reflexivity.
Qed.

(** X1.  The busy flag of the application shell after a send: lowered exactly
    when the request failed or a [clarification_question], [complete] or
    [error] event arrived.  A stream that ends without one of them leaves the
    flag raised. *)
Theorem send_lowers_isLoading (JSON_parse : string -> completion value) (cid : string)
    (c : conversation) (s : option settings) (content : string) (net : fetched) :
  cid <> "" ->
  last (isLoading_sets (effects (App.handleSendMessage JSON_parse (Some cid) c s content net)))
  = Some (negb (failed net) &&
          forallb (fun call => negb (ends_send (kind_of call.1))) (received JSON_parse net)).
Proof.
  intros Hcid. unfold App.handleSendMessage. apply String.eqb_neq in Hcid. rewrite Hcid.
  rewrite effects_bind_emit.
  change (isLoading_sets (SetIsLoading true :: ?t)) with (true :: isLoading_sets t).
  rewrite effects_try_catch, effects_bind, outcome_bind, optimistic_normal.
  rewrite !isLoading_sets_app, isLoading_optimistic. unfold sendMessageStream.
  unfold isLoading_sets at 1. rewrite omap_stream by reflexivity.
  rewrite isLoading_send_calls by apply received_types.
  pose proof (outcome_stream JSON_parse (App.onEvent cid) (PostMessageStream cid content)
                "Failed to send message" net) as Hout.
  destruct (outcome (stream _ _ _ _ net)) as [[]|e]; simpl in Hout; rewrite <- Hout.
  - exact (last_of_sets (fun call => ends_send (kind_of call.1)) (received JSON_parse net) false).
  - exact (last_of_sets (fun call => ends_send (kind_of call.1)) (received JSON_parse net) true).
Qed.

Lemma send_lowers_isLoading_witness :
  "c1" <> "" /\
  last (isLoading_sets
          (effects (App.handleSendMessage JSON.parse (Some "c1") new_conversation None
                      "Should we ship?"
                      (delivered [record_line "stage1_start" +:+ blank_line]))))
  = Some true.
Proof.
  split; [discriminate|].
  exact (send_lowers_isLoading JSON.parse "c1" new_conversation None "Should we ship?"
           (delivered [record_line "stage1_start" +:+ blank_line]) ltac:(discriminate)).
Defined.

Lemma clarificationLoading_sets_app (t1 t2 : list effect) :
  clarificationLoading_sets (t1 ++ t2)
  = clarificationLoading_sets t1 ++ clarificationLoading_sets t2.
Proof. apply omap_app. Qed.

Lemma clarificationLoading_council_calls (cid : string) (u v : bool)
    (calls : list (value * value)) :
  Forall (fun call => get_prop call.2 "type" = Normal call.1) calls ->
  concat (map (fun call => clarificationLoading_sets
                 (effects (try_catch (ChatInterface.onEvent cid u v call.1 call.2)
                             log_failure))) calls)
  = concat (map (fun call => if ends_council (kind_of call.1) then [false] else []) calls).
Proof.
  induction 1 as [|[type event] calls Htype _ IH]; [reflexivity|].
  simpl in *. rewrite IH. f_equal. unfold ChatInterface.onEvent.
  destruct (kind_of type) as [[]|n| | | | | |]; destruct u, v; try reflexivity;
    rewrite (get_prop_total event "type" "message" type Htype), bind_lift_normal; reflexivity.
Qed.

(** X2.  The busy flag of the chat view after the council was started: lowered
    exactly when the request failed or a [complete] or [error] event
    arrived, with or without the callbacks of the shell. *)
Theorem council_lowers_clarificationLoading (JSON_parse : string -> completion value)
    (conv : conversation) (onUpdateConversationState onConversationUpdate : bool)
    (net : fetched) :
  last (clarificationLoading_sets
          (effects (ChatInterface.proceedToCouncil JSON_parse (Some conv)
                      onUpdateConversationState onConversationUpdate net)))
  = Some (negb (failed net) &&
          forallb (fun call => negb (ends_council (kind_of call.1))) (received JSON_parse net)).
Proof.
  unfold ChatInterface.proceedToCouncil. rewrite effects_bind_emit.
  change (clarificationLoading_sets (SetClarificationLoading true :: ?t))
    with (true :: clarificationLoading_sets t).
  rewrite effects_try_catch, effects_bind, outcome_bind.
  replace (outcome (when onUpdateConversationState
             (emit (SetCurrentConversation (AppendMessage (assistantMessage true))))))
    with (Normal tt : completion unit) by (destruct onUpdateConversationState; reflexivity).
  rewrite effects_bind_emit, outcome_bind_emit.
  rewrite !clarificationLoading_sets_app.
  replace (clarificationLoading_sets (effects (when onUpdateConversationState
             (emit (SetCurrentConversation (AppendMessage (assistantMessage true)))))))
    with (@nil bool) by (destruct onUpdateConversationState; reflexivity).
  change (clarificationLoading_sets (ScrollToBottom :: ?t)) with (clarificationLoading_sets t).
  unfold confirmClarificationBriefing.
  unfold clarificationLoading_sets at 1. rewrite omap_stream by reflexivity.
  rewrite clarificationLoading_council_calls by apply received_types.
  pose proof (outcome_stream JSON_parse
                (ChatInterface.onEvent (id conv) onUpdateConversationState onConversationUpdate)
                (PostClarificationConfirm (id conv)) "Failed to confirm briefing" net) as Hout.
  destruct (outcome (stream _ _ _ _ net)) as [[]|e]; simpl in Hout; rewrite <- Hout.
  - exact (last_of_sets (fun call => ends_council (kind_of call.1)) (received JSON_parse net) false).
  - exact (last_of_sets (fun call => ends_council (kind_of call.1)) (received JSON_parse net) true).
Qed.

(** Stage events and events that leave the messages alone, folded: the
    last message is written to, the others stay, and no updater throws. *)
Lemma fold_keeps_earlier_messages (cid : string) (events : list value) :
  Forall (fun event => event_kind event <> ClarificationQuestionKind) events ->
  forall (c : conversation) (pre : list message) (m : message) (l : loading_flags),
    messages c = pre ++ [m] ->
    loading m = Some l ->
    exists c' m' l',
      fold_events cid events c = (c', None) /\
      messages c' = pre ++ [m'] /\
      loading m' = Some l'.
Proof.
  induction 1 as [|event events Hevent _ IH]; intros c pre m l Hms Hl.
  - exists c, m, l. repeat split; assumption.
  - rewrite fold_events_cons, queued_send_event.
    destruct (event_kind event) as [n|n| | | | | |] eqn:Hkind; try contradiction;
      try (change (apply_updates [] c) with (c, @None exn); cbv beta iota;
           exact (IH c pre m l Hms Hl)).
    + rewrite (apply_updates_single _ _ _ (stage_start_snoc n c pre m l Hms Hl)).
      cbv beta iota. eapply IH; reflexivity.
    + assert (Hdata : get_prop event "data" = Normal (get_opt event "data")).
      { apply known_kind_data. rewrite Hkind. discriminate. }
      rewrite (apply_updates_single _ _ _
                 (stage_complete_snoc n event _ c pre m l Hms Hl Hdata)).
      cbv beta iota. eapply IH; [reflexivity|]. destruct n; reflexivity.
    + cbv zeta. destruct (truthy _).
      * simpl apply_updates. eapply IH; [exact Hms|exact Hl].
      * change (apply_updates [] c) with (c, @None exn); cbv beta iota.
        exact (IH c pre m l Hms Hl).
Qed.

(** X3.  A stream that breaks after events: where the placeholder was appended
    and no clarification question arrived, the rollback takes the user
    message and the assistant message the events had been filling, and the
    messages are those from before the send. *)
Theorem broken_send_restores_messages (JSON_parse : string -> completion value)
    (cid : string) (c : conversation) (s : option settings) (content : string)
    (body : list string) :
  cid <> "" ->
  clarification_first s = false \/ messages c <> [] ->
  Forall (fun event => event_kind event <> ClarificationQuestionKind)
         (map snd (decode JSON_parse body)) ->
  exists c',
    apply_updates
      (queued (effects (App.handleSendMessage JSON_parse (Some cid) c s content
                          (Responded {| ok := true; chunks := body; broken := true |})))) c
    = (c', None) /\
    messages c' = messages c.
Proof.
  intros Hcid Hplace Hevents.
  destruct (optimistic_appends cid c s content) as (sent & Hsent & Hshape).
  assert (Hpair : messages sent = (messages c ++ [userMessage content]) ++ [assistantMessage false]).
  { revert Hsent Hshape. unfold App.optimistic.
    change (match s with Some s0 => truthy (clarification_first_enabled s0) | None => false end)
      with (clarification_first s).
    destruct Hplace as [-> | Hne].
    - destruct (messages c) as [|m0 ms] eqn:Hms; simpl; rewrite ?Hms;
        intros [= <-]; simpl; rewrite ?Hms; intros _; [reflexivity|].
      rewrite <- !app_assoc. reflexivity.
    - intros _ [-> | [Hempty _]]; [rewrite <- app_assoc; reflexivity|contradiction]. }
  destruct (fold_keeps_earlier_messages cid _ Hevents sent
              (messages c ++ [userMessage content]) (assistantMessage false) _ Hpair eq_refl)
    as (c1 & m' & l' & Hfold & Hms1 & _).
  exists (rollback c1). split.
  - unfold App.handleSendMessage. apply String.eqb_neq in Hcid. rewrite Hcid.
    rewrite effects_bind_emit. change (queued (SetIsLoading true :: ?t)) with (queued t).
    rewrite effects_try_catch, effects_bind, outcome_bind, optimistic_normal.
    unfold sendMessageStream, stream. rewrite effects_bind_emit, outcome_bind_emit.
    cbn [ok chunks broken negb].
    destruct (read_loop_lines JSON_parse (App.onEvent cid) body true) as [_ ->].
    rewrite !queued_app. change (queued (Fetch ?r :: ?t)) with (queued t).
    rewrite !apply_updates_app, Hsent, send_stream_folds, Hfold. reflexivity.
  - simpl. rewrite Hms1, <- app_assoc. apply slice_0_minus2_snoc2.
Qed.

Lemma broken_send_restores_messages_witness :
  "c1" <> "" /\
  (clarification_first None = false \/ messages midway <> []) /\
  Forall (fun event => event_kind event <> ClarificationQuestionKind)
         (map snd (decode JSON.parse
                     [data_line "stage1_complete" ("[" +:+ quoted "a" +:+ "]") +:+ blank_line])) /\
  exists c',
    apply_updates
      (queued (effects (App.handleSendMessage JSON.parse (Some "c1") midway None "And v3?"
                          (Responded {| ok := true;
                                        chunks := [data_line "stage1_complete"
                                                     ("[" +:+ quoted "a" +:+ "]") +:+ blank_line];
                                        broken := true |})))) midway
    = (c', None) /\
    messages c' = messages midway.
Proof.
  assert (Hevents : Forall (fun event => event_kind event <> ClarificationQuestionKind)
         (map snd (decode JSON.parse
                     [data_line "stage1_complete" ("[" +:+ quoted "a" +:+ "]") +:+ blank_line]))).
  { vm_compute. repeat constructor. discriminate. }
  split; [discriminate|]. split; [left; reflexivity|]. split; [exact Hevents|].
  exact (broken_send_restores_messages JSON.parse "c1" midway None "And v3?" _
           ltac:(discriminate) (or_introl eq_refl) Hevents).
Defined.

Lemma fold_council_cons (cid : string) (event : value) (events : list value) (c : conversation) :
  fold_council cid (event :: events) c =
  match apply_updates
          (queued (effects (try_catch
             (dispatch (ChatInterface.onEvent cid passes_onUpdateConversationState
                          passes_onConversationUpdate) event) log_failure))) c with
  | (c', None) => fold_council cid events c'
  | stopped => stopped
  end.
Proof.
  unfold fold_council. simpl for_of.
  rewrite effects_bind, outcome_logged, queued_app, apply_updates_app. reflexivity.
Qed.

(** The council path, fed by a stream, folds the decoded events in order. *)
Lemma council_stream_folds (JSON_parse : string -> completion value) (cid : string)
    (body : list string) (broken : bool) (c : conversation) :
  apply_updates
    (queued (effects (read_loop JSON_parse
                        (ChatInterface.onEvent cid passes_onUpdateConversationState
                           passes_onConversationUpdate) body broken))) c
  = fold_council cid (map snd (decode JSON_parse body)) c.
Proof.
  rewrite queued_read_loop. unfold fold_council. f_equal.
  induction (decode_types JSON_parse body) as [|[type event] calls Htype _ IH]; [reflexivity|].
  simpl in *. rewrite effects_bind, outcome_logged, queued_app, <- IH.
  unfold dispatch at 1. rewrite Htype, bind_lift_normal. reflexivity.
Qed.

Lemma council_deliberation_fold (cid : string) (k : nat) (events : list value) :
  deliberation k events ->
  forall (c : conversation) (pre : list message) (m : message) (l : loading_flags),
    messages c = pre ++ [m] ->
    loading m = Some l ->
    exists c' m' l',
      fold_council cid events c = (c', None) /\
      messages c' = pre ++ [m'] /\
      loading m' = Some l' /\
      stage1 m' = (if decide (k <= 1) then payload (StageCompleteKind Stage1) "data" events
                   else stage1 m) /\
      stage2 m' = (if decide (k <= 3) then payload (StageCompleteKind Stage2) "data" events
                   else stage2 m) /\
      metadata m' = (if decide (k <= 3) then payload (StageCompleteKind Stage2) "metadata" events
                     else metadata m) /\
      stage3 m' = (if decide (k <= 5) then payload (StageCompleteKind Stage3) "data" events
                   else stage3 m) /\
      loading_stage1 l' = (if decide (k <= 1) then false else loading_stage1 l) /\
      loading_stage2 l' = (if decide (k <= 3) then false else loading_stage2 l) /\
      loading_stage3 l' = (if decide (k <= 5) then false else loading_stage3 l) /\
      role m' = role m /\
      clarification_state c' = clarification_state c.
Proof.
  induction 1 as [|k event events Hn _ IH|k event events Hk _ IH]; intros c pre m l Hms Hl.
  - exists c, m, l. repeat split; try assumption; case_decide; try lia; reflexivity.
  - destruct (IH c pre m l Hms Hl)
      as (c' & m' & l' & Hf & Hm' & Hl' & H1 & H2 & H3 & H4 & H5 & H6 & H7 & H8 & H9).
    exists c', m', l'. rewrite fold_council_cons, queued_council_event.
    rewrite !(neutral_payload _ _ event events Hn) by eauto.
    unfold neutral in Hn. destruct (event_kind event); try discriminate Hn;
      (split; [exact Hf|repeat split; assumption]).
  - destruct (step_kind_known k _ Hk) as [Hknown Hlt].
    pose proof (known_kind_data event Hknown) as Hdata.
    rewrite fold_council_cons, queued_council_event.
    destruct k as [|[|[|[|[|[|[|?]]]]]]]; try lia;
      injection Hk as Hk; rewrite <- Hk;
      rewrite ?(apply_updates_single _ _ _ (stage_start_snoc _ c pre m l Hms Hl)),
              ?(apply_updates_single _ _ _
                  (stage_complete_snoc _ event _ c pre m l Hms Hl Hdata));
      change (apply_updates [] c) with (c, @None exn); cbv beta iota;
      match goal with
      | |- context [fold_council cid events (set_messages (pre ++ [?m1]) c)] =>
          destruct (IH (set_messages (pre ++ [m1]) c) pre m1
                      (default l (loading m1)) eq_refl eq_refl)
            as (c' & m' & l' & Hf & Hm' & Hl' & H1 & H2 & H3 & H4 & H5 & H6 & H7 & H8 & H9)
      | |- context [fold_council cid events c] =>
          destruct (IH c pre m l Hms Hl)
            as (c' & m' & l' & Hf & Hm' & Hl' & H1 & H2 & H3 & H4 & H5 & H6 & H7 & H8 & H9)
      end;
      exists c', m', l'; rewrite Hf, !payload_cons, <- Hk;
      repeat split; try assumption;
      repeat case_decide; try lia; try discriminate; simpl in *; try congruence;
      destruct n; simpl in *; congruence.
Qed.

(** X4.  The council path, from the wire to the conversation: when the confirm
    stream delivers a well-formed deliberation, [proceedToCouncil] appends
    one assistant message and leaves in it each stage field equal to the
    data of its [stageN_complete] event, [metadata] equal to that of the
    stage 2 event, and the three loading flags false (the first of them
    starts raised on this path); no updater throws, and the clarification
    state is what it was. *)
Theorem council_fills_stages (JSON_parse : string -> completion value)
    (conv c : conversation) (body : list string) :
  deliberation 0 (map snd (decode JSON_parse body)) ->
  exists c' m,
    apply_updates
      (queued (effects (ChatInterface.proceedToCouncil JSON_parse (Some conv)
                          passes_onUpdateConversationState passes_onConversationUpdate
                          (delivered body)))) c
    = (c', None) /\
    messages c' = messages c ++ [m] /\
    role m = "assistant" /\
    stage1 m = payload (StageCompleteKind Stage1) "data" (map snd (decode JSON_parse body)) /\
    stage2 m = payload (StageCompleteKind Stage2) "data" (map snd (decode JSON_parse body)) /\
    metadata m = payload (StageCompleteKind Stage2) "metadata" (map snd (decode JSON_parse body)) /\
    stage3 m = payload (StageCompleteKind Stage3) "data" (map snd (decode JSON_parse body)) /\
    loading m = Some {| loading_stage1 := false; loading_stage2 := false;
                        loading_stage3 := false |} /\
    clarification_state c' = clarification_state c.
Proof.
  intros Hrun.
  destruct (council_deliberation_fold (id conv) 0 _ Hrun
              (set_messages (messages c ++ [assistantMessage true]) c)
              (messages c) (assistantMessage true) _ eq_refl eq_refl)
    as (c' & m & l & Hf & Hm & Hl & H1 & H2 & H3 & H4 & H5 & H6 & H7 & H8 & H9).
  assert (Hq : queued (effects (ChatInterface.proceedToCouncil JSON_parse (Some conv)
                          passes_onUpdateConversationState passes_onConversationUpdate
                          (delivered body)))
               = AppendMessage (assistantMessage true) ::
                 queued (effects (read_loop JSON_parse
                           (ChatInterface.onEvent (id conv) passes_onUpdateConversationState
                              passes_onConversationUpdate) body false))).
  { unfold ChatInterface.proceedToCouncil.
    rewrite effects_bind_emit. change (queued (?e :: ?t)) with (queued t).
    rewrite queued_try_catch_quiet by (intros e; reflexivity).
    change (when passes_onUpdateConversationState ?m) with m.
    rewrite !effects_bind_emit.
    change (queued (SetCurrentConversation ?u :: ?e :: ?t)) with (u :: queued t).
    unfold confirmClarificationBriefing, stream, delivered. rewrite effects_bind_emit.
    reflexivity. }
  exists c', m. rewrite Hq. simpl apply_updates. rewrite council_stream_folds.
  split; [exact Hf|]. split; [exact Hm|].
  repeat split; try assumption.
  rewrite Hl. destruct l; simpl in *. subst. reflexivity.
Qed.

Lemma scenario_A_body_well_formed :
  deliberation 0 (map snd (decode JSON.parse scenario_A_body)).
Proof.
  vm_compute.
  repeat first
    [ apply deliberation_done
    | apply deliberation_step; [reflexivity|]
    | apply deliberation_neutral; [reflexivity|] ].
Qed.

Lemma council_fills_stages_witness :
  deliberation 0 (map snd (decode JSON.parse scenario_A_body)) /\
  exists c' m,
    apply_updates
      (queued (effects (ChatInterface.proceedToCouncil JSON.parse (Some briefed)
                          passes_onUpdateConversationState passes_onConversationUpdate
                          (delivered scenario_A_body)))) briefed
    = (c', None) /\
    messages c' = messages briefed ++ [m] /\
    stage3 m = Str "Ship it." /\
    loading m = Some loaded.
Proof.
  split; [exact scenario_A_body_well_formed|].
  destruct (council_fills_stages JSON.parse briefed briefed scenario_A_body
              scenario_A_body_well_formed)
    as (c' & m & Hrun & Hms & _ & _ & _ & _ & H3 & Hl & _).
  exists c', m. split; [exact Hrun|]. split; [exact Hms|]. split; [|exact Hl].
  rewrite H3. vm_compute. reflexivity.
Defined.

Lemma perform_submission (JSON_parse : string -> completion value) (op : operation)
    (c : conversation) :
  is_submission op = true ->
  match accepted_answer op with
  | Some answer =>
      history_of (perform JSON_parse op c) = history_of c ++ [Str answer] /\
      clarification_state (perform JSON_parse op c) <> None
  | None => perform JSON_parse op c = c
  end /\
  messages (perform JSON_parse op c) = messages c /\
  title (perform JSON_parse op c) = title c /\
  model_selection (perform JSON_parse op c) = model_selection c.
Proof.
  destruct op as [| |answer reply| | |]; try discriminate. intros _.
  unfold perform, run_operation. rewrite queued_handleSubmit. unfold accepted_answer.
  destruct reply as [result|e]; [|repeat split; reflexivity].
  destruct (get_prop result "type") as [type|e]; [|repeat split; reflexivity].
  unfold history_of.
  destruct (is_string "briefing" type); simpl;
    destruct (clarification_state c) as [cs|]; simpl;
    repeat split; try reflexivity; discriminate.
Qed.

(** X5.  Answers, submitted one after the other: the history is what it was,
    followed by the answers of the submissions that went through, in order;
    a submission that fails leaves the conversation as it is.  Messages,
    title and model selection are never touched. *)
Theorem answers_accumulate (JSON_parse : string -> completion value)
    (ops : list operation) (c : conversation) :
  Forall (fun op => is_submission op = true) ops ->
  history_of (perform_all JSON_parse ops c)
  = history_of c ++ (Str <$> omap accepted_answer ops) /\
  (omap accepted_answer ops = [] -> perform_all JSON_parse ops c = c) /\
  messages (perform_all JSON_parse ops c) = messages c /\
  title (perform_all JSON_parse ops c) = title c /\
  model_selection (perform_all JSON_parse ops c) = model_selection c.
Proof.
  intros Hops. revert c. induction Hops as [|op ops Hop _ IH]; intros c.
  - simpl. rewrite app_nil_r. repeat split; reflexivity.
  - change (perform_all JSON_parse (op :: ops) c)
      with (perform_all JSON_parse ops (perform JSON_parse op c)).
    destruct (IH (perform JSON_parse op c)) as (Hh & Hnone & Hm & Ht & Hs).
    destruct (perform_submission JSON_parse op c Hop) as (Hstep & Hm1 & Ht1 & Hs1).
    split; [|split; [|split; [congruence|split; congruence]]].
    + rewrite Hh. simpl omap. destruct (accepted_answer op) as [answer|].
      * destruct Hstep as [-> _]. rewrite <- app_assoc. reflexivity.
      * rewrite Hstep. reflexivity.
    + simpl omap. destruct (accepted_answer op) as [answer|]; [discriminate|].
      intros Hnil. rewrite (Hnone Hnil). exact Hstep.
Qed.

Lemma answers_accumulate_witness :
  Forall (fun op => is_submission op = true)
    [SubmitAnswer "$2M" (Normal (Obj [("type", Str "question")]));
     SubmitAnswer "soon" (Throw NetworkError);
     SubmitAnswer "Q3" (Normal (Obj [("type", Str "briefing")]))] /\
  history_of
    (perform_all JSON.parse
       [SubmitAnswer "$2M" (Normal (Obj [("type", Str "question")]));
        SubmitAnswer "soon" (Throw NetworkError);
        SubmitAnswer "Q3" (Normal (Obj [("type", Str "briefing")]))] first_sent)
  = [Str "$2M"; Str "Q3"].
Proof.
  assert (Hops : Forall (fun op => is_submission op = true)
    [SubmitAnswer "$2M" (Normal (Obj [("type", Str "question")]));
     SubmitAnswer "soon" (Throw NetworkError);
     SubmitAnswer "Q3" (Normal (Obj [("type", Str "briefing")]))])
    by (repeat constructor).
  split; [exact Hops|].
  exact (proj1 (answers_accumulate JSON.parse _ first_sent Hops)).
Defined.

(** X6.  A submission settles whatever comes back: the handler does not throw,
    the busy flag of the chat view is raised first and lowered last, and
    the user is alerted exactly when the answer did not go through, in which
    case nothing is queued on the conversation. *)
Theorem submission_settles (conv : conversation) (answer : string) (reply : completion value) :
  let run := ChatInterface.handleSubmitClarificationAnswer (Some conv)
               passes_onUpdateConversationState answer reply in
  outcome run = Normal tt /\
  head (effects run) = Some (SetClarificationLoading true) /\
  last (effects run) = Some (SetClarificationLoading false) /\
  requests (effects run) = [PostClarificationAnswer (id conv) answer] /\
  match accepted_answer (SubmitAnswer answer reply) with
  | Some _ => filter is_alert (effects run) = [] /\ length (queued (effects run)) = 1
  | None => filter is_alert (effects run) = [Alert "Failed to submit answer. Please try again."] /\
            queued (effects run) = []
  end.
Proof.
  unfold ChatInterface.handleSubmitClarificationAnswer, accepted_answer, call.
  destruct reply as [result|e]; [|repeat split; reflexivity].
  rewrite bind_emit. simpl.
  destruct (get_prop result "type") as [type|e]; repeat split; reflexivity.
Qed.

Lemma keeps_clarification_time (t : value) (u : update) (c c' : conversation) :
  keeps_clarification u = true ->
  apply_update u c = Normal c' ->
  confirmed_since t c -> confirmed_since t c'.
Proof.
  intros Hu Hrun (Ht & cs & Hcs & Hat). split; [exact Ht|].
  destruct (is_stage_update u) eqn:Hs.
  - destruct (stage_update_frame u c c' Hs Hrun) as (Hsame & _).
    exists cs. rewrite Hsame. split; assumption.
  - destruct u; try discriminate Hu; try discriminate Hs;
      injection Hrun as <-;
      cbv [rollback answer_briefing answer_question confirm_briefing lock_selection
           set_title set_messages set_clarification_state set_selection];
      simpl; rewrite ?Hcs; eexists; (split; [reflexivity|]); simpl; try exact Hat.
    rewrite Hat. unfold js_or. rewrite Ht. reflexivity.
Qed.

(** X7.  The time of the confirmation, once recorded, stands: a second
    confirmation keeps the first time, and so does every other step but a
    cancel of the model evaluation, a [clarification_question] on the send
    path and a reload whose copy holds another time (the copy of the server
    replaces the conversation, [confirmed_at] included). *)
Theorem confirmation_time_stands (JSON_parse : string -> completion value)
    (steps : list step) (c : conversation) (t : value) :
  confirmed_since t c ->
  Forall (spares (confirmed_since t)) steps ->
  confirmed_since t (advance_all JSON_parse steps c) /\
  (forall now dp picked net,
     confirmed_since t
       (advance JSON_parse (Handled (ConfirmBriefingOp dp now picked net)) c)) /\
  (forall copy, advance JSON_parse (Reloaded (Normal copy)) c = copy).
Proof.
  intros Hc Hsteps. split; [|split].
  - apply spared_is_kept; [exact (keeps_clarification_time t)|exact Hc|exact Hsteps].
  - intros now dp picked net.
    apply (spared_is_kept JSON_parse (confirmed_since t)
             [Handled (ConfirmBriefingOp dp now picked net)] c).
    + exact (keeps_clarification_time t).
    + exact Hc.
    + repeat constructor.
  - intros copy. reflexivity.
Qed.

Lemma confirmation_time_stands_witness :
  confirmed_since (Str "2025-01-01T00:00:00.000Z") briefed /\
  Forall (spares (confirmed_since (Str "2025-01-01T00:00:00.000Z")))
    [Handled (ConfirmBriefingOp None "2025-06-30T12:00:00.000Z" (Throw NetworkError) Rejected);
     Handled (CouncilEvent complete_event);
     Reloaded (Normal briefed)] /\
  confirmed_since (Str "2025-01-01T00:00:00.000Z")
    (advance_all JSON.parse
       [Handled (ConfirmBriefingOp None "2025-06-30T12:00:00.000Z" (Throw NetworkError)
                   Rejected);
        Handled (CouncilEvent complete_event);
        Reloaded (Normal briefed)]
       briefed).
Proof.
  assert (Hc : confirmed_since (Str "2025-01-01T00:00:00.000Z") briefed)
    by (split; [reflexivity|exists briefed_state; split; reflexivity]).
  assert (Hsteps : Forall (spares (confirmed_since (Str "2025-01-01T00:00:00.000Z")))
    [Handled (ConfirmBriefingOp None "2025-06-30T12:00:00.000Z" (Throw NetworkError) Rejected);
     Handled (CouncilEvent complete_event);
     Reloaded (Normal briefed)]).
  { constructor; [split; reflexivity|]. constructor; [split; reflexivity|].
    constructor; [exact Hc|constructor]. }
  split; [exact Hc|]. split; [exact Hsteps|].
  exact (proj1 (confirmation_time_stands JSON.parse _ briefed _ Hc Hsteps)).
Defined.








Lemma closed_is_hidden (c : conversation) :
  is_closed c -> effects (clarificationEffect (Some c)) = view_hidden.
Proof.
  intros (cs & Hcs & Hconf & Hact). unfold clarificationEffect. simpl.
  rewrite Hcs, Hconf, Hact. reflexivity.
Qed.

(** X10.  From the confirmation on, the clarification view stays away.  Take
    the updaters of a run of [handleConfirmBriefing], whatever the stream
    brings, with the replacements by reloads that resolve in between (a
    [complete] in the stream starts one) wherever they fall: as long as
    every copy a reload brings is confirmed and not active, the effect that
    follows the conversation hides the view at every point.  A reload with
    another copy shows what that copy says. *)
Theorem confirmed_hides_view (JSON_parse : string -> completion value)
    (conv c : conversation) (dp : option dynamic_picking) (now : string)
    (picked : completion evaluation) (net : fetched) (us : list update) (k : nat) :
  let run := ChatInterface.handleConfirmBriefing JSON_parse (Some conv)
               passes_onUpdateConversationState passes_onConversationUpdate
               dp now picked net in
  own_updates us = queued (effects run) ->
  reloads_bring is_closed us ->
  effects (clarificationEffect (Some (fst (apply_updates (take (S k) us) c))))
  = view_hidden /\
  (forall copy,
     effects (clarificationEffect (Some (fst (apply_updates [Replace copy] c))))
     = effects (clarificationEffect (Some copy))).
Proof.
  cbv zeta. intros Hown Hreloads. split; [|intros copy; reflexivity].
  apply closed_is_hidden.
  destruct (queued_handleConfirmBriefing JSON_parse conv dp now picked net)
    as (rest & Hq & Hrest).
  rewrite Hq in Hown. clear Hq.
  set (allowed := fun u : update =>
         u = ConfirmBriefing now \/ (exists copy, u = Replace copy /\ is_closed copy) \/
         u = AppendMessage (assistantMessage true) \/ is_stage_update u = true).
  assert (Hclosed : forall c0, is_closed (confirm_briefing now c0)).
  { intros c0. eexists. split; [reflexivity|]. split; reflexivity. }
  assert (Hall : Forall allowed us).
  { apply Forall_forall. intros u Hu. destruct u as [copy| | | | | | | | | | | |] eqn:Eu.
    1:{ right. left. exists copy. split; [reflexivity|].
        exact (proj1 (Forall_forall _ _) Hreloads (Replace copy) Hu). }
    all: assert (Hin : u ∈ ConfirmBriefing now :: rest)
           by (rewrite <- Hown; unfold own_updates; apply list_elem_of_filter;
               subst u; split; [exact I|exact Hu]);
         subst u; apply elem_of_cons in Hin as [Hin|Hin];
         [left; exact Hin|
          right; right; exact (proj1 (Forall_forall _ _) Hrest _ Hin)]. }
  assert (Hstep : forall u c0 c1, allowed u -> apply_update u c0 = Normal c1 ->
                    is_closed c0 -> is_closed c1).
  { intros u c0 c1 [-> | [(copy & -> & Hcopy) | Hu]] Hrun Hc0.
    - injection Hrun as <-. apply Hclosed.
    - injection Hrun as <-. exact Hcopy.
    - destruct Hc0 as (cs & Hcs & Hconf & Hact).
      exists cs. rewrite (append_or_stage_frame u c0 c1 Hu Hrun). repeat split; assumption. }
  destruct us as [|u us]; [discriminate Hown|].
  apply Forall_cons in Hall as [Hu Hall].
  assert (Hfirst : u = ConfirmBriefing now \/ exists copy, u = Replace copy /\ is_closed copy).
  { destruct Hu as [Hu | [Hu | Hu]]; [left; exact Hu|right; exact Hu|].
    exfalso. unfold own_updates in Hown.
    assert (Hnot : negb (is_replace u) = true)
      by (destruct Hu as [-> | Hu]; [reflexivity|destruct u; try discriminate Hu; reflexivity]).
    rewrite filter_cons_True in Hown by (rewrite Hnot; exact I).
    injection Hown as Hown _. subst u.
    destruct Hu as [Hu | Hu]; discriminate Hu. }
  simpl take. simpl apply_updates.
  destruct Hfirst as [-> | (copy & -> & Hcopy)]; cbn [apply_update].
  - apply (apply_updates_invariant is_closed allowed); [exact Hstep| |apply Hclosed].
    apply Forall_take. exact Hall.
  - apply (apply_updates_invariant is_closed allowed); [exact Hstep| |exact Hcopy].
    apply Forall_take. exact Hall.
Qed.

Lemma confirmed_hides_view_witness :
  own_updates [ConfirmBriefing "2025-01-02T00:00:00.000Z";
               AppendMessage (assistantMessage true); Replace briefed]
  = queued (effects (ChatInterface.handleConfirmBriefing JSON.parse (Some asked)
                       passes_onUpdateConversationState passes_onConversationUpdate
                       None "2025-01-02T00:00:00.000Z" (Throw NetworkError) Rejected)) /\
  reloads_bring is_closed
    [ConfirmBriefing "2025-01-02T00:00:00.000Z";
     AppendMessage (assistantMessage true); Replace briefed] /\
  effects (clarificationEffect
             (Some (fst (apply_updates
                           (take 3 [ConfirmBriefing "2025-01-02T00:00:00.000Z";
                                    AppendMessage (assistantMessage true); Replace briefed])
                           asked))))
  = view_hidden.
Proof.
  assert (Hown : own_updates [ConfirmBriefing "2025-01-02T00:00:00.000Z";
                              AppendMessage (assistantMessage true); Replace briefed]
                 = queued (effects (ChatInterface.handleConfirmBriefing JSON.parse (Some asked)
                                      passes_onUpdateConversationState
                                      passes_onConversationUpdate
                                      None "2025-01-02T00:00:00.000Z" (Throw NetworkError)
                                      Rejected)))
    by reflexivity.
  assert (Hreloads : reloads_bring is_closed
            [ConfirmBriefing "2025-01-02T00:00:00.000Z";
             AppendMessage (assistantMessage true); Replace briefed]).
  { constructor; [exact I|]. constructor; [exact I|]. constructor; [|constructor].
    exists briefed_state. split; [reflexivity|]. split; reflexivity. }
  split; [exact Hown|]. split; [exact Hreloads|].
  exact (proj1 (confirmed_hides_view JSON.parse asked asked None "2025-01-02T00:00:00.000Z"
                  (Throw NetworkError) Rejected _ 2 Hown Hreloads)).
Defined.

(** X11.  The clarification view follows the conversation.  After a
    [clarification_question] event with a question, and after an answer that
    brought the next question, the view shows that question; after an answer
    that brought the briefing, it shows the briefing, marked as one, unless
    the conversation was confirmed before; after a cancelled model
    evaluation it is hidden. *)
Theorem view_follows_conversation (JSON_parse : string -> completion value)
    (c : conversation) :
  (forall event data,
     get_prop event "data" = Normal data ->
     exists c',
       apply_update (ClarificationQuestion event) c = Normal c' /\
       effects (clarificationEffect (Some c'))
       = if truthy data
         then [SetClarificationData data; SetShowClarificationUI true]
         else view_hidden) /\
  (forall answer result type,
     get_prop result "type" = Normal type ->
     effects (clarificationEffect
                (Some (perform JSON_parse (SubmitAnswer answer (Normal result)) c)))
     = if is_string "briefing" type then
         if truthy (default Undefined (confirmed <$> clarification_state c)) then view_hidden
         else [SetClarificationData (Obj (("type", Str "briefing") :: spread result));
               SetShowClarificationUI true]
       else if truthy result
            then [SetClarificationData result; SetShowClarificationUI true]
            else view_hidden) /\
  effects (clarificationEffect (Some (perform JSON_parse CancelOp c))) = view_hidden.
Proof.
  split; [|split].
  - intros event data Hdata. simpl. unfold clarification_question. rewrite Hdata. simpl.
    eexists. split; [reflexivity|]. unfold clarificationEffect. simpl.
    destruct (truthy data); reflexivity.
  - intros answer result type Htype.
    unfold perform, run_operation. rewrite queued_handleSubmit, Htype.
    destruct (is_string "briefing" type) eqn:Hb.
    + assert (Hobj : truthy result = true).
      { destruct result; try discriminate Htype; try reflexivity;
          injection Htype as <-; discriminate Hb. }
      simpl. unfold clarificationEffect. simpl.
      destruct (clarification_state c) as [cs|]; simpl; rewrite Hobj;
        [destruct (truthy (confirmed cs))|]; reflexivity.
    + simpl. unfold clarificationEffect. simpl.
      destruct (truthy result); [reflexivity|].
      destruct (clarification_state c) as [cs|]; simpl; rewrite ?andb_false_r; reflexivity.
  - reflexivity.
Qed.

(** ** Strings, byte by byte *)

Lemma append_nil_r (s : string) : s +:+ "" = s.
Proof.
  induction s as [|ch s IH]; [reflexivity|].
  change (String ch s +:+ "") with (String ch (s +:+ "")). rewrite IH. reflexivity.
Qed.

Lemma append_assoc (a b c : string) : (a +:+ b) +:+ c = a +:+ (b +:+ c).
Proof.
  induction a as [|ch a IH]; [reflexivity|].
  change ((String ch a +:+ b) +:+ c) with (String ch ((a +:+ b) +:+ c)).
  rewrite IH. reflexivity.
Qed.

Lemma append_inv_head (a b c : string) : a +:+ b = a +:+ c -> b = c.
Proof.
  induction a as [|ch a IH]; [exact (fun H => H)|].
  change (String ch a +:+ ?x) with (String ch (a +:+ x)). intros [= H]. exact (IH H).
Qed.

(** ** White space *)

Lemma begins_append (e s : string) : begins e s = true <-> exists r, s = e +:+ r.
Proof.
  revert s. induction e as [|x e IH]; intros s.
  - split; [intros _; exists s; reflexivity|intros _; reflexivity].
  - destruct s as [|y s].
    + split; [discriminate|intros [r Hr]; discriminate Hr].
    + cbn [begins]. rewrite andb_true_iff, IH. split.
      * intros [Hxy [r Hr]]. apply Ascii.eqb_eq in Hxy. subst. exists r. reflexivity.
      * intros [r Hr]. change (String x e +:+ r) with (String x (e +:+ r)) in Hr.
        injection Hr as -> ->. split; [apply Ascii.eqb_refl|exists r; reflexivity].
Qed.

Lemma space_at_some (s e : string) :
  space_at s = Some e -> e ∈ white_space /\ exists r, s = e +:+ r.
Proof.
  unfold space_at. intros H. apply find_some in H as [Hin Hpre].
  split; [apply list_elem_of_In, Hin|apply begins_append, Hpre].
Qed.

(** The encodings are prefix-free: the one a string starts with is found. *)
Lemma space_at_encoding (e r : string) : e ∈ white_space -> space_at (e +:+ r) = Some e.
Proof.
  revert e. apply Forall_forall. unfold white_space.
  repeat (constructor; [reflexivity|]). constructor.
Qed.

Lemma all_continue_inside (x y : string) :
  all_continue (x +:+ y) = true -> y <> "" -> starts_clear y = false.
Proof.
  induction x as [|a x IH].
  - change ("" +:+ y) with y. destruct y as [|b y]; [contradiction|].
    simpl. intros H _. apply andb_prop in H as [-> _]. reflexivity.
  - change (String a x +:+ y) with (String a (x +:+ y)). simpl.
    intros H. apply andb_prop in H as [_ H]. exact (IH H).
Qed.

(** An encoding starts with a byte that continues nothing, and goes on with
    bytes that do. *)
Lemma white_space_shape (e : string) :
  e ∈ white_space ->
  exists b tl, e = String b tl /\ continuation b = false /\
    forall x y, tl = x +:+ y -> y <> "" -> starts_clear y = false.
Proof.
  intros Hin. apply list_elem_of_In in Hin.
  assert (Hall : forallb (fun e => match e with
                                  | String b tl => negb (continuation b) && all_continue tl
                                  | "" => false
                                  end) white_space = true) by reflexivity.
  rewrite forallb_forall in Hall. specialize (Hall e Hin).
  destruct e as [|b tl]; [discriminate Hall|].
  apply andb_prop in Hall as [Hb Htl]. apply negb_true_iff in Hb.
  exists b, tl. split; [reflexivity|]. split; [exact Hb|].
  intros x y -> Hy. exact (all_continue_inside x y Htl Hy).
Qed.

Lemma append_cases (u t e r : string) :
  u +:+ t = e +:+ r ->
  (exists x, u = e +:+ x) \/ (exists x, x <> "" /\ e = u +:+ x /\ t = x +:+ r).
Proof.
  revert e. induction u as [|a u IH]; intros e H.
  - change ("" +:+ t) with t in H. destruct e as [|b e].
    + left. exists "". reflexivity.
    + right. exists (String b e). split; [discriminate|]. split; [reflexivity|exact H].
  - destruct e as [|b e].
    + left. exists (String a u). reflexivity.
    + change (String a u +:+ t) with (String a (u +:+ t)) in H.
      change (String b e +:+ r) with (String b (e +:+ r)) in H.
      injection H as -> H. destruct (IH e H) as [[x ->] | (x & Hx & -> & ->)].
      * left. exists x. reflexivity.
      * right. exists x. split; [exact Hx|]. split; reflexivity.
Qed.

(** What follows a string that white space does not start cannot make it
    start there, unless it starts in the middle of a character. *)
Lemma space_at_context (u t : string) :
  u <> "" -> space_at u = None -> starts_clear t = true -> space_at (u +:+ t) = None.
Proof.
  intros Hne Hu Ht. destruct (space_at (u +:+ t)) as [e|] eqn:H; [|reflexivity].
  exfalso. apply space_at_some in H as [Hin [r Hr]].
  destruct (append_cases u t e r Hr) as [[x ->] | (x & Hx & He & Hxt)].
  - rewrite (space_at_encoding e x Hin) in Hu. discriminate Hu.
  - destruct (white_space_shape e Hin) as (b & tl & Hb & _ & Htl).
    destruct u as [|a u]; [contradiction|].
    rewrite Hb in He. change (String a u +:+ x) with (String a (u +:+ x)) in He.
    injection He as _ He.
    pose proof (Htl u x He Hx) as Hclear.
    destruct x as [|c x]; [contradiction|].
    rewrite Hxt in Ht. simpl in Ht, Hclear. rewrite Hclear in Ht. discriminate Ht.
Qed.

Lemma space_at_prefix (u t : string) : space_at (u +:+ t) = None -> space_at u = None.
Proof.
  intros H. destruct (space_at u) as [e|] eqn:Hu; [|reflexivity].
  apply space_at_some in Hu as [Hin [r ->]].
  rewrite append_assoc, (space_at_encoding e _ Hin) in H. discriminate H.
Qed.

Lemma encoding_nonempty (e : string) : e ∈ white_space -> e <> "".
Proof.
  intros Hin. destruct (white_space_shape e Hin) as (b & tl & -> & _). discriminate.
Qed.

(** ** Reading a string *)

Lemma lex_from_skip (a r : string) : lex_from (String.length a) (a +:+ r) = lex_from 0 r.
Proof.
  induction a as [|x a IH]; [reflexivity|].
  change (String x a +:+ r) with (String x (a +:+ r)). simpl. exact IH.
Qed.

Lemma lex_space (e r : string) : e ∈ white_space -> lex (e +:+ r) = Space e :: lex r.
Proof.
  intros Hin. pose proof (space_at_encoding e r Hin) as Hat.
  destruct (white_space_shape e Hin) as (b & tl & -> & _).
  change (String b tl +:+ r) with (String b (tl +:+ r)) in Hat |- *.
  unfold lex. cbn [lex_from]. rewrite Hat.
  cbn [String.length]. rewrite Nat.sub_succ, Nat.sub_0_r, lex_from_skip. reflexivity.
Qed.

Lemma lex_byte (b : ascii) (r : string) :
  space_at (String b r) = None -> lex (String b r) = Byte b :: lex r.
Proof. intros H. unfold lex. cbn [lex_from]. rewrite H. reflexivity. Qed.

(** Induction along the reading. *)
Lemma lex_ind (P : string -> Prop) :
  P "" ->
  (forall b r, space_at (String b r) = None -> P r -> P (String b r)) ->
  (forall e r, e ∈ white_space -> P r -> P (e +:+ r)) ->
  forall s, P s.
Proof.
  intros Hnil Hbyte Hspace s.
  remember (String.length s) as n eqn:Hn. revert s Hn.
  induction n as [n IH] using lt_wf_ind. intros s Hn.
  destruct s as [|b r]; [exact Hnil|].
  destruct (space_at (String b r)) as [e|] eqn:Hat.
  - apply space_at_some in Hat as [Hin [r' Hr']]. rewrite Hr'.
    apply Hspace; [exact Hin|].
    apply (IH (String.length r')); [|reflexivity].
    rewrite Hn, Hr', string_length_app.
    pose proof (encoding_nonempty e Hin). destruct e; [contradiction|]. simpl. lia.
  - apply Hbyte; [exact Hat|]. apply (IH (String.length r)); [|reflexivity].
    rewrite Hn. simpl. lia.
Qed.

Lemma unlex_lex (s : string) : unlex (lex s) = s.
Proof.
  induction s as [|b r Hat IH|e r Hin IH] using lex_ind; [reflexivity| |].
  - rewrite (lex_byte b r Hat). simpl. rewrite IH. reflexivity.
  - rewrite (lex_space e r Hin). simpl. rewrite IH. reflexivity.
Qed.

Lemma lex_tokens (s : string) : Forall token_ok (lex s).
Proof.
  induction s as [|b r Hat IH|e r Hin IH] using lex_ind; [constructor| |].
  - rewrite (lex_byte b r Hat). constructor; [exact I|exact IH].
  - rewrite (lex_space e r Hin). constructor; [exact Hin|exact IH].
Qed.

Lemma unlex_app (ts1 ts2 : list token) : unlex (ts1 ++ ts2) = unlex ts1 +:+ unlex ts2.
Proof.
  induction ts1 as [|t ts1 IH]; [reflexivity|].
  simpl. rewrite IH, append_assoc. reflexivity.
Qed.

Lemma unlex_empty (ts : list token) : Forall token_ok ts -> unlex ts = "" -> ts = [].
Proof.
  intros Hok H. destruct Hok as [|t ts Ht _]; [reflexivity|].
  exfalso. simpl in H. destruct t as [e|b]; [|discriminate H].
  apply (encoding_nonempty e Ht). destruct e; [reflexivity|discriminate H].
Qed.

(** A reading that starts with given tokens. *)
Lemma lex_cons (s : string) (t : token) (ts : list token) :
  lex s = t :: ts -> exists r, s = text_of t +:+ r /\ lex r = ts /\ token_ok t.
Proof.
  destruct s as [|b r]; [discriminate|].
  destruct (space_at (String b r)) as [e|] eqn:Hat.
  - apply space_at_some in Hat as [Hin [r' Hr']]. rewrite Hr', (lex_space e r' Hin).
    intros [= <- <-]. exists r'. split; [reflexivity|]. split; [reflexivity|exact Hin].
  - rewrite (lex_byte b r Hat). intros [= <- <-]. exists r.
    split; [reflexivity|]. split; [reflexivity|exact I].
Qed.

Lemma lexed_lex (s : string) : lexed (lex s).
Proof. unfold lexed. rewrite unlex_lex. reflexivity. Qed.

Lemma lexed_tail (t : token) (ts : list token) : lexed (t :: ts) -> lexed ts.
Proof.
  unfold lexed. intros H. destruct (lex_cons _ _ _ H) as (r & Hr & Hts & _).
  simpl in Hr. apply append_inv_head in Hr. rewrite Hr. exact Hts.
Qed.

Lemma lexed_suffix (ts1 ts2 : list token) : lexed (ts1 ++ ts2) -> lexed ts2.
Proof.
  induction ts1 as [|t ts1 IH]; [exact (fun H => H)|].
  intros H. apply IH. exact (lexed_tail t _ H).
Qed.

Lemma lexed_prefix (ts1 ts2 : list token) : lexed (ts1 ++ ts2) -> lexed ts1.
Proof.
  induction ts1 as [|t ts1 IH]; [reflexivity|].
  intros H. pose proof (IH (lexed_tail t _ H)) as Htail.
  unfold lexed in H |- *. simpl in H |- *.
  destruct (lex_cons _ _ _ H) as (_ & _ & _ & Hok).
  destruct t as [e|b].
  - simpl. rewrite (lex_space e _ Hok), Htail. reflexivity.
  - simpl in H |- *.
    change (String b "" +:+ ?x) with (String b x) in H |- *.
    assert (Hat : space_at (String b (unlex (ts1 ++ ts2))) = None).
    { destruct (space_at (String b (unlex (ts1 ++ ts2)))) as [e|] eqn:Hat; [|reflexivity].
      apply space_at_some in Hat as [Hin [r' Hr']].
      rewrite Hr', (lex_space e r' Hin) in H. discriminate H. }
    rewrite unlex_app in Hat.
    change (String b (?x +:+ ?y)) with (String b x +:+ y) in Hat.
    apply space_at_prefix in Hat. rewrite (lex_byte b _ Hat), Htail. reflexivity.
Qed.

(** ** Words *)



Lemma no_space_app (a b : string) :
  no_space a = true -> no_space b = true -> starts_clear b = true ->
  no_space (a +:+ b) = true.
Proof.
  intros Ha Hb Hclear. induction a as [|x a IH]; [exact Hb|].
  simpl in Ha. destruct (space_at (String x a)) eqn:Hat; [discriminate Ha|].
  change (String x a +:+ b) with (String x (a +:+ b)). simpl.
  change (String x (a +:+ b)) with (String x a +:+ b).
  rewrite (space_at_context (String x a) b) by (first [discriminate|assumption]).
  exact (IH Ha).
Qed.


(** The first word of a string that starts with a byte of it is a prefix
    of the string. *)
Lemma words_are_words_aux (s : string) :
  Forall is_word (words s) /\
  (forall b r, s = String b r -> space_at s = None ->
     exists w ws rest, words s = w :: ws /\ s = w +:+ rest).
Proof.
  unfold words.
  induction s as [|b r Hat [IHw IHp]|e r Hin [IHw IHp]] using lex_ind.
  - split; [constructor|discriminate].
  - rewrite (lex_byte b r Hat).
    assert (Hone : is_word (String b "")).
    { split; [discriminate|]. simpl.
      change (String b r) with (String b "" +:+ r) in Hat.
      rewrite (space_at_prefix _ _ Hat). reflexivity. }
    destruct r as [|b' r'].
    + split; [repeat constructor; apply Hone|].
      intros _ _ _ _. exists (String b ""), [], "". split; reflexivity.
    + destruct (space_at (String b' r')) as [e|] eqn:Hat'.
      * apply space_at_some in Hat' as [Hin [r'' Hr'']]. rewrite Hr'' in *.
        rewrite (lex_space e r'' Hin) in *. cbn [word_runs] in *.
        split; [constructor; [exact Hone|exact IHw]|].
        intros _ _ _ _. eexists (String b ""), _, _. split; reflexivity.
      * destruct (IHp b' r' eq_refl eq_refl) as (w & ws & rest & Hws & Hrest).
        assert (Hruns : word_runs (Byte b :: lex (String b' r')) = String b w :: ws).
        { rewrite (lex_byte b' r' Hat').
          change (word_runs (Byte b :: Byte b' :: lex r'))
            with (match word_runs (Byte b' :: lex r') with
                  | w :: ws => String b w :: ws
                  | [] => [String b ""]
                  end).
          rewrite <- (lex_byte b' r' Hat'), Hws. reflexivity. }
        rewrite Hruns. rewrite Hws in IHw.
        apply Forall_cons in IHw as [[Hne Hw] IHw].
        assert (Hword : is_word (String b w)).
        { split; [discriminate|]. simpl.
          rewrite Hrest in Hat. change (String b (w +:+ rest)) with (String b w +:+ rest) in Hat.
          rewrite (space_at_prefix _ _ Hat). exact Hw. }
        split; [constructor; [exact Hword|exact IHw]|].
        intros _ _ _ _. exists (String b w), ws, rest. split; [reflexivity|].
        rewrite Hrest. reflexivity.
  - rewrite (lex_space e r Hin). cbn [word_runs]. split; [exact IHw|].
    intros b r' Hs Hnone. rewrite (space_at_encoding e r Hin) in Hnone. discriminate Hnone.
Qed.

Lemma words_are_words (s : string) : Forall is_word (words s).
Proof. apply words_are_words_aux. Qed.

Lemma join_cons_cons (w w' : string) (ws : list string) :
  join " " (w :: w' :: ws) = w +:+ String " " (join " " (w' :: ws)).
Proof. reflexivity. Qed.

Lemma join_snoc_append (l : list string) (w x : string) :
  join " " (l ++ [w]) +:+ x = join " " (l ++ [w +:+ x]).
Proof.
  induction l as [|a l IH]; [reflexivity|].
  destruct l as [|b l].
  - simpl app. rewrite !join_cons_cons. rewrite append_assoc. reflexivity.
  - change ((a :: b :: l) ++ [w]) with (a :: b :: (l ++ [w])).
    change ((a :: b :: l) ++ [w +:+ x]) with (a :: b :: (l ++ [w +:+ x])).
    rewrite !join_cons_cons. rewrite append_assoc.
    change (String " " ?s +:+ x) with (String " " (s +:+ x)).
    f_equal. f_equal. exact IH.
Qed.

Lemma join_empty (ws : list string) : Forall is_word ws -> join " " ws = "" -> ws = [].
Proof.
  intros Hws Hj. destruct Hws as [|w ws [Hne _] _]; [reflexivity|].
  destruct w as [|ch w]; [contradiction|].
  destruct ws; discriminate Hj.
Qed.

Lemma is_word_ellipsis (w : string) : is_word w -> is_word (w +:+ ellipsis).
Proof.
  intros [Hne Hw]. split.
  - destruct w; [contradiction|discriminate].
  - apply no_space_app; [exact Hw|reflexivity|reflexivity].
Qed.

Lemma append_empty (a b : string) : a +:+ b = "" -> a = "".
Proof. destruct a; [reflexivity|discriminate]. Qed.

(** The words of the optimistic title. *)
Lemma draftTitle_words (content : string) :
  exists title_words,
    Forall is_word title_words /\
    draftTitle content = join " " title_words /\
    length title_words = min 6 (length (words content)) /\
    take 5 title_words = take 5 (words content) /\
    title_words !! 5
    = (fun w => if (6 <? length (words content))%nat then w +:+ ellipsis else w)
        <$> words content !! 5.
Proof.
  unfold draftTitle. pose proof (words_are_words content) as Hws.
  destruct (6 <? length (words content))%nat eqn:Hlen.
  - apply Nat.ltb_lt in Hlen.
    destruct (words content !! 5) as [w|] eqn:Hw.
    2:{ apply lookup_ge_None in Hw. lia. }
    assert (Htake : take 6 (words content) = take 5 (words content) ++ [w]).
    { rewrite (take_S_r _ 5 w Hw). reflexivity. }
    exists (take 5 (words content) ++ [w +:+ ellipsis]).
    rewrite Htake, join_snoc_append.
    split; [|split; [reflexivity|split; [|split]]].
    + apply Forall_app. split; [apply Forall_take, Hws|].
      constructor; [|constructor]. apply is_word_ellipsis.
      exact (proj1 (Forall_lookup _ _) Hws 5 w Hw).
    + rewrite length_app, length_take. change (length [w +:+ ellipsis]) with 1. lia.
    + rewrite take_app_le by (rewrite length_take; lia).
      rewrite take_take. reflexivity.
    + rewrite lookup_app_r by (rewrite length_take; lia).
      rewrite length_take. replace (5 - 5 `min` length (words content)) with 0 by lia.
      reflexivity.
  - apply Nat.ltb_ge in Hlen. exists (words content).
    rewrite take_ge by lia. rewrite append_nil_r.
    split; [exact Hws|]. split; [reflexivity|]. split; [lia|]. split; [reflexivity|].
    destruct (words content !! 5); reflexivity.
Qed.

Lemma draftTitle_empty (content : string) : draftTitle content = "" <-> words content = [].
Proof.
  destruct (draftTitle_words content) as (tw & Hok & Htitle & Hlen & _).
  split.
  - intros Hempty. rewrite Htitle in Hempty. apply join_empty in Hempty; [|exact Hok].
    subst tw. destruct (words content); [reflexivity|].
    change (length (@nil string)) with 0 in Hlen. rewrite length_cons in Hlen. lia.
  - intros Hnone. unfold draftTitle. rewrite Hnone. reflexivity.
Qed.


(** ** Trimming *)

Lemma drop_spaces_head (ts : list token) :
  drop_spaces ts = [] \/ exists b rest, drop_spaces ts = Byte b :: rest.
Proof.
  induction ts as [|[e|b] ts IH]; [left; reflexivity|exact IH|].
  right. exists b, ts. reflexivity.
Qed.

Lemma drop_spaces_end_head (b : ascii) (rest : list token) :
  exists rest', drop_spaces_end (Byte b :: rest) = Byte b :: rest'.
Proof. simpl. destruct (drop_spaces_end rest); eexists; reflexivity. Qed.

Lemma drop_spaces_end_idempotent (ts : list token) :
  drop_spaces_end (drop_spaces_end ts) = drop_spaces_end ts.
Proof.
  induction ts as [|t ts IH]; [reflexivity|].
  simpl. destruct (drop_spaces_end ts) as [|t' ts'] eqn:Hts.
  - destruct (is_space t) eqn:Ht; [reflexivity|]. simpl. rewrite Ht. reflexivity.
  - simpl in IH |- *. destruct (drop_spaces_end ts') as [|t'' ts''].
    + destruct (is_space t'); [discriminate IH|]. rewrite IH. reflexivity.
    + rewrite IH. reflexivity.
Qed.

Lemma drop_spaces_suffix (ts : list token) : exists pre, ts = pre ++ drop_spaces ts.
Proof.
  induction ts as [|[e|b] ts [pre IH]]; [exists []; reflexivity| |exists []; reflexivity].
  exists (Space e :: pre). simpl. rewrite <- IH. reflexivity.
Qed.

Lemma drop_spaces_end_prefix (ts : list token) : exists post, ts = drop_spaces_end ts ++ post.
Proof.
  induction ts as [|t ts [post IH]]; [exists []; reflexivity|].
  simpl. destruct (drop_spaces_end ts) as [|t' ts'].
  - destruct (is_space t); [exists (t :: ts); reflexivity|].
    exists post. change (t :: ts = t :: ([] ++ post)). f_equal. exact IH.
  - exists post. change (t :: ts = t :: ((t' :: ts') ++ post)). f_equal. exact IH.
Qed.

Lemma drop_spaces_none (ts : list token) : drop_spaces ts = [] <-> word_runs ts = [].
Proof.
  induction ts as [|[e|b] ts IH]; [split; reflexivity|exact IH|].
  split; [discriminate|]. simpl.
  destruct ts as [|[e|b'] ts]; try discriminate.
  destruct (word_runs (Byte b' :: ts)); discriminate.
Qed.

(** What [trim] leaves, read. *)
Lemma trim_tokens (s : string) :
  lex (trim s) = drop_spaces_end (drop_spaces (lex s)).
Proof.
  unfold trim. change (lexed (drop_spaces_end (drop_spaces (lex s)))).
  destruct (drop_spaces_suffix (lex s)) as [pre Hpre].
  destruct (drop_spaces_end_prefix (drop_spaces (lex s))) as [post Hpost].
  apply (lexed_prefix _ post). rewrite <- Hpost.
  apply (lexed_suffix pre). rewrite <- Hpre. apply lexed_lex.
Qed.

(** [trim] leaves nothing exactly of a string without words. *)
Lemma trim_words (s : string) : trim s = "" <-> words s = [].
Proof.
  unfold words. rewrite <- drop_spaces_none. unfold trim.
  destruct (drop_spaces_head (lex s)) as [-> | (b & rest & ->)]; [split; reflexivity|].
  destruct (drop_spaces_end_head b rest) as [rest' ->]. split; discriminate.
Qed.

Lemma trim_idempotent (s : string) : trim (trim s) = trim s.
Proof.
  unfold trim at 1. rewrite trim_tokens. unfold trim.
  destruct (drop_spaces_head (lex s)) as [-> | (b & rest & ->)]; [reflexivity|].
  destruct (drop_spaces_end_head b rest) as [rest' Hend]. rewrite Hend.
  cbn [drop_spaces]. rewrite <- Hend, drop_spaces_end_idempotent. reflexivity.
Qed.

(** What [trim] leaves neither starts nor ends with white space. *)
Lemma trim_ends (s : string) :
  trim s <> "" ->
  exists b ts b', lex (trim s) = Byte b :: ts /\ last (lex (trim s)) = Some (Byte b').
Proof.
  rewrite trim_tokens. unfold trim.
  destruct (drop_spaces_head (lex s)) as [-> | (b & rest & ->)]; [contradiction|].
  intros _. destruct (drop_spaces_end_head b rest) as [rest' Hend].
  exists b, rest'. rewrite Hend.
  assert (Hlast : forall ts t, last (drop_spaces_end ts) = Some t -> is_space t = false).
  { clear. induction ts as [|t0 ts IH]; intros t; [discriminate|].
    simpl. destruct (drop_spaces_end ts) as [|t' ts'] eqn:Hts.
    - destruct (is_space t0) eqn:H0; [discriminate|]. intros [= <-]. exact H0.
    - intros H. apply IH. rewrite <- H. reflexivity. }
  destruct (last (Byte b :: rest')) as [[e|b']|] eqn:Hl.
  - rewrite <- Hend in Hl. apply Hlast in Hl. discriminate Hl.
  - exists b'. split; reflexivity.
  - destruct rest'; [discriminate Hl|]. apply last_None in Hl. discriminate Hl.
Qed.

Lemma eqb_empty (s : string) : negb (s =? "") = true <-> s <> "".
Proof.
  rewrite negb_true_iff. split.
  - intros H. apply String.eqb_neq. exact H.
  - intros H. apply String.eqb_neq. exact H.
Qed.

Example words_of_padded :
  words (" Should" +:+ utf8 [194; 160] +:+ "we" +:+ utf8 [226; 128; 168] +:+ "ship? ")
  = ["Should"; "we"; "ship?"].
Proof. vm_compute. reflexivity. Qed.

Example trim_of_padded :
  trim (utf8 [194; 160] +:+ " $2M, roughly" +:+ utf8 [239; 187; 191]) = "$2M, roughly".
Proof. vm_compute. reflexivity. Qed.

(** ** The two forms *)

(** X13.  What the chat form sends is the input as typed, and only when the input
    has a word in it (a character that is not white space) and nothing is
    under way; the optimistic title of a first message sent this way is drawn
    from its own words, never the fallback. *)
Theorem chat_form_sends_words (input content rest : string) (isLoading : bool)
    (c : conversation) :
  ChatInterfaceForm.handleSubmit input isLoading = (Some content, rest) ->
  content = input /\ rest = "" /\ isLoading = false /\
  words content <> [] /\
  js_or (Str (draftTitle content)) (Str "New reasoning") = Str (draftTitle content) /\
  apply_update (Retitle (draftTitle content)) c
  = Normal (set_title (Str (draftTitle content)) c).
Proof.
  unfold ChatInterfaceForm.handleSubmit.
  destruct (negb (trim input =? "") && negb isLoading) eqn:Hgo; [|discriminate].
  intros [= <- <-]. apply andb_prop in Hgo as [Htrim Hload].
  apply eqb_empty in Htrim. apply negb_true_iff in Hload.
  assert (Hwords : words input <> []) by (intros H; apply Htrim, trim_words, H).
  assert (Htitle : truthy (Str (draftTitle input)) = true).
  { simpl. apply eqb_empty. intros H.
    apply Hwords, draftTitle_empty, H. }
  repeat split; try assumption; try reflexivity.
  - unfold js_or. rewrite Htitle. reflexivity.
  - simpl. unfold js_or. rewrite Htitle. reflexivity.
Qed.

Lemma chat_form_sends_words_witness :
  ChatInterfaceForm.handleSubmit (utf8 [194; 160] +:+ " Should we ship? ") false
  = (Some (utf8 [194; 160] +:+ " Should we ship? "), "") /\
  js_or (Str (draftTitle (utf8 [194; 160] +:+ " Should we ship? "))) (Str "New reasoning")
  = Str "Should we ship?".
Proof.
  split; [reflexivity|].
  exact (proj1 (proj2 (proj2 (proj2 (proj2
           (chat_form_sends_words (utf8 [194; 160] +:+ " Should we ship? ")
              (utf8 [194; 160] +:+ " Should we ship? ") "" false
              new_conversation eq_refl)))))).
Defined.

(** X14.  What the clarification form submits is the answer without the white
    space around it (what [trim] leaves: trimming it again changes nothing),
    and only when something is left of it and nothing is under way; this is
    the string that enters the history when the answer goes through. *)
Theorem answers_are_trimmed (JSON_parse : string -> completion value)
    (typed answer rest : string) (isLoading : bool) (result type : value)
    (c : conversation) :
  ClarificationInterface.handleSubmit typed isLoading = (Some answer, rest) ->
  get_prop result "type" = Normal type ->
  answer = trim typed /\ answer <> "" /\ trim answer = answer /\
  rest = "" /\ isLoading = false /\
  history_of (perform JSON_parse (SubmitAnswer answer (Normal result)) c)
  = history_of c ++ [Str answer].
Proof.
  unfold ClarificationInterface.handleSubmit.
  destruct (negb (trim typed =? "") && negb isLoading) eqn:Hgo; [|discriminate].
  intros [= <- <-] Htype. apply andb_prop in Hgo as [Htrim Hload].
  apply eqb_empty in Htrim. apply negb_true_iff in Hload.
  repeat split; try assumption; try reflexivity; [apply trim_idempotent|].
  pose proof (perform_submission JSON_parse (SubmitAnswer (trim typed) (Normal result)) c eq_refl)
    as [Hstep _].
  simpl in Hstep. rewrite Htype in Hstep. apply Hstep.
Qed.

Lemma answers_are_trimmed_witness :
  ClarificationInterface.handleSubmit (utf8 [194; 160] +:+ " $2M, roughly ") false
  = (Some "$2M, roughly", "") /\
  get_prop (Obj [("type", Str "question")]) "type" = Normal (Str "question") /\
  history_of (perform JSON.parse
                (SubmitAnswer "$2M, roughly" (Normal (Obj [("type", Str "question")])))
                first_sent)
  = history_of first_sent ++ [Str "$2M, roughly"].
Proof.
  split; [reflexivity|]. split; [reflexivity|].
  exact (proj2 (proj2 (proj2 (proj2 (proj2
           (answers_are_trimmed JSON.parse (utf8 [194; 160] +:+ " $2M, roughly ")
              "$2M, roughly" "" false
              (Obj [("type", Str "question")]) (Str "question") first_sent
              eq_refl eq_refl)))))).
Defined.

(** ** The settings page *)

Lemma distinct_le (l : list string) : SettingsManager.distinct l <= length l.
Proof.
  unfold SettingsManager.distinct. induction l as [|x l IH]; [reflexivity|].
  simpl. pose proof (size_union_alt ({[x]} : gset string) (list_to_set l)) as Hu.
  assert (size (list_to_set l ∖ {[x]} : gset string) <= size (list_to_set l : gset string))
    by (apply subseteq_size, subseteq_difference_l; reflexivity).
  rewrite Hu, size_singleton. lia.
Qed.

Lemma distinct_NoDup (l : list string) :
  SettingsManager.distinct l = length l <-> NoDup l.
Proof.
  split; [|apply size_list_to_set].
  unfold SettingsManager.distinct. induction l as [|x l IH]; intros Hsize; [constructor|].
  simpl in Hsize. destruct (decide (x ∈ l)) as [Hin|Hnin].
  - exfalso. pose proof (distinct_le l) as Hle. unfold SettingsManager.distinct in Hle.
    assert (Hsame : ({[x]} ∪ list_to_set l : gset string) = list_to_set l)
      by (apply subseteq_union_1_L, singleton_subseteq_l, elem_of_list_to_set, Hin).
    rewrite Hsame in Hsize. lia.
  - constructor; [exact Hnin|]. apply IH.
    rewrite size_union in Hsize by (apply disjoint_singleton_l; rewrite elem_of_list_to_set; exact Hnin).
    rewrite size_singleton in Hsize. lia.
Qed.

Lemma includes_spec (l : list string) (x : string) :
  SettingsManager.includes l x = true <-> x ∈ l.
Proof. unfold SettingsManager.includes. apply bool_decide_eq_true. Qed.

Lemma validation_spec (f : SettingsManager.form) :
  SettingsManager.validation f = None <-> SettingsManager.acceptable f.
Proof.
  unfold SettingsManager.validation, SettingsManager.acceptable.
  destruct (SettingsManager.councilModels f) as [|m ms] eqn:Hms.
  { simpl. split; [discriminate|]. intros [H _]. contradiction. }
  change (length (m :: ms) =? 0)%nat with false. cbv iota.
  destruct (SettingsManager.chairmanModel f =? "") eqn:Hc.
  { apply String.eqb_eq in Hc. split; [discriminate|]. intros (_ & H & _). contradiction. }
  apply String.eqb_neq in Hc.
  destruct (SettingsManager.includes (m :: ms) (SettingsManager.chairmanModel f)) eqn:Hci;
    simpl negb; cbv iota.
  2:{ split; [discriminate|]. intros (_ & _ & H & _).
      apply includes_spec in H. congruence. }
  apply includes_spec in Hci.
  destruct (SettingsManager.analystModel f =? "") eqn:Ha.
  { apply String.eqb_eq in Ha. split; [discriminate|]. intros (_ & _ & _ & H & _). contradiction. }
  apply String.eqb_neq in Ha.
  destruct (SettingsManager.includes (m :: ms) (SettingsManager.analystModel f)) eqn:Hai;
    simpl negb; cbv iota.
  2:{ split; [discriminate|]. intros (_ & _ & _ & _ & H & _).
      apply includes_spec in H. congruence. }
  apply includes_spec in Hai.
  destruct ((SettingsManager.maxClarificationRounds f <? 1)%Z ||
            (20 <? SettingsManager.maxClarificationRounds f)%Z) eqn:Hr.
  { split; [discriminate|]. intros (_ & _ & _ & _ & _ & H & _).
    apply orb_true_iff in Hr as [Hr|Hr]; apply Z.ltb_lt in Hr; lia. }
  apply orb_false_iff in Hr as [Hr1 Hr2]. apply Z.ltb_ge in Hr1, Hr2.
  match goal with
  | |- context [negb (?a =? ?b)%nat] => destruct (a =? b)%nat eqn:Hd
  end; simpl negb; cbv iota.
  - apply Nat.eqb_eq, distinct_NoDup in Hd.
    split; [|reflexivity]. intros _. repeat split; try assumption; try discriminate; lia.
  - split; [discriminate|]. intros (_ & _ & _ & _ & _ & _ & H).
    apply distinct_NoDup in H. apply Nat.eqb_neq in Hd. exfalso. apply Hd. exact H.
Qed.

(** X15.  Saving is guarded: the settings are sent exactly when the form has at
    least one model, no model twice, a chairman and an analyst that are
    among the models, and one to twenty clarification rounds.  A form that
    is refused is left as it is, with the settings and the editing view, and
    a message says why; a form that is sent goes out as it stands, the key
    left out when the field is empty or still shows the mask. *)
Theorem save_is_guarded (engine_message : exn -> string) (st : SettingsManager.state)
    (reply : completion SettingsManager.settings_data) :
  let st' := fst (SettingsManager.handleSave engine_message st reply) in
  let sent := snd (SettingsManager.handleSave engine_message st reply) in
  (sent <> None <-> SettingsManager.acceptable (SettingsManager.formData st)) /\
  match sent with
  | Some c =>
      c = SettingsManager.call_of (SettingsManager.formData st) /\
      (SettingsManager.put_openrouter_api_key c = None <->
       SettingsManager.openrouterApiKey (SettingsManager.formData st) = "" \/
       startsWith (SettingsManager.openrouterApiKey (SettingsManager.formData st)) "********"
       = true)
  | None =>
      SettingsManager.formData st' = SettingsManager.formData st /\
      SettingsManager.settings st' = SettingsManager.settings st /\
      SettingsManager.isEditing st' = SettingsManager.isEditing st /\
      SettingsManager.success st' = false /\
      exists problem, SettingsManager.error st' = Some problem /\ problem <> ""
  end.
Proof.
  cbv zeta. unfold SettingsManager.handleSave.
  pose proof (validation_spec (SettingsManager.formData st)) as Hspec.
  destruct (SettingsManager.validation (SettingsManager.formData st)) as [problem|] eqn:Hv.
  - simpl. split.
    + split; [intros H; contradiction|]. intros H. apply Hspec in H. discriminate H.
    + repeat split. exists problem. split; [reflexivity|].
      unfold SettingsManager.validation in Hv.
      repeat match type of Hv with
             | (if ?b then _ else _) = _ => destruct b
             end; try discriminate Hv; injection Hv as <-; discriminate.
  - simpl. split.
    + split; [intros _; apply Hspec; reflexivity|discriminate].
    + split; [reflexivity|]. unfold SettingsManager.apiKey.
      destruct (startsWith _ "********"); [split; [right; reflexivity|reflexivity]|].
      destruct (SettingsManager.openrouterApiKey (SettingsManager.formData st) =? "") eqn:Hk.
      * apply String.eqb_eq in Hk. split; [left; exact Hk|reflexivity].
      * apply String.eqb_neq in Hk. split; [discriminate|].
        intros [H|H]; [contradiction|discriminate].
Qed.

(** X16.  What was saved is what is shown: when the server answers a save with
    the settings it was sent, the form the page builds from the answer is
    the form that was sent (the fallbacks for an analyst that is missing and
    for zero rounds find nothing to replace), with the key as the server
    shows it; editing is over and success is reported.  A key the server
    shows masked is not sent with the next save. *)
Theorem saved_is_shown (engine_message : exn -> string) (st : SettingsManager.state)
    (key : string) :
  SettingsManager.acceptable (SettingsManager.formData st) ->
  let c := SettingsManager.call_of (SettingsManager.formData st) in
  let st' := fst (SettingsManager.handleSave engine_message st (Normal (stored c key))) in
  SettingsManager.settings st' = Some (stored c key) /\
  SettingsManager.councilModels (SettingsManager.formData st')
  = SettingsManager.councilModels (SettingsManager.formData st) /\
  SettingsManager.chairmanModel (SettingsManager.formData st')
  = SettingsManager.chairmanModel (SettingsManager.formData st) /\
  SettingsManager.analystModel (SettingsManager.formData st')
  = SettingsManager.analystModel (SettingsManager.formData st) /\
  SettingsManager.clarificationFirstEnabled (SettingsManager.formData st')
  = SettingsManager.clarificationFirstEnabled (SettingsManager.formData st) /\
  SettingsManager.maxClarificationRounds (SettingsManager.formData st')
  = SettingsManager.maxClarificationRounds (SettingsManager.formData st) /\
  SettingsManager.openrouterApiKey (SettingsManager.formData st') = key /\
  SettingsManager.isEditing st' = false /\
  SettingsManager.success st' = true /\
  SettingsManager.error st' = None /\
  SettingsManager.acceptable (SettingsManager.formData st') /\
  (startsWith key "********" = true ->
   SettingsManager.put_openrouter_api_key
     (SettingsManager.call_of (SettingsManager.formData st')) = None).
Proof.
  intros Hok. cbv zeta. unfold SettingsManager.handleSave.
  rewrite (proj2 (validation_spec _) Hok). simpl.
  destruct Hok as (Hms & Hc & Hci & Ha & Hai & Hr & Hd).
  assert (Hanalyst : SettingsManager.or_string
                       (SettingsManager.analystModel (SettingsManager.formData st))
                       (SettingsManager.chairmanModel (SettingsManager.formData st))
                     = SettingsManager.analystModel (SettingsManager.formData st)).
  { unfold SettingsManager.or_string. apply String.eqb_neq in Ha. rewrite Ha. reflexivity. }
  assert (Hrounds : SettingsManager.or_number
                      (SettingsManager.maxClarificationRounds (SettingsManager.formData st)) 5
                    = SettingsManager.maxClarificationRounds (SettingsManager.formData st)).
  { unfold SettingsManager.or_number.
    destruct (Z.eqb_spec (SettingsManager.maxClarificationRounds
                            (SettingsManager.formData st)) 0); [lia|reflexivity]. }
  assert (Hkey : SettingsManager.or_string key "" = key).
  { unfold SettingsManager.or_string. destruct (key =? "") eqn:Hk; [|reflexivity].
    apply String.eqb_eq in Hk. congruence. }
  rewrite Hanalyst, Hrounds, Hkey, orb_false_r.
  do 10 (split; [reflexivity|]). split.
  - unfold SettingsManager.acceptable, SettingsManager.form_of, stored, SettingsManager.call_of.
    cbn [SettingsManager.councilModels SettingsManager.chairmanModel
         SettingsManager.analystModel SettingsManager.maxClarificationRounds
         SettingsManager.council_models SettingsManager.chairman_model
         SettingsManager.analyst_model SettingsManager.max_clarification_rounds
         SettingsManager.put_council_models SettingsManager.put_chairman_model
         SettingsManager.put_analyst_model SettingsManager.put_max_clarification_rounds].
    rewrite Hanalyst, Hrounds. repeat split; try assumption; lia.
  - intros Hmask. unfold SettingsManager.call_of, SettingsManager.apiKey,
      SettingsManager.form_of, stored.
    cbn [SettingsManager.put_openrouter_api_key SettingsManager.openrouterApiKey
         SettingsManager.openrouter_api_key].
    rewrite Hkey, Hmask. reflexivity.
Qed.

Lemma two_models_acceptable : SettingsManager.acceptable two_models.
Proof.
  unfold SettingsManager.acceptable, two_models. simpl.
  split; [discriminate|]. split; [discriminate|]. split; [left|].
  split; [discriminate|]. split; [left|]. split; [lia|].
  repeat constructor; rewrite ?list_elem_of_singleton; try discriminate.
  apply not_elem_of_nil.
Qed.

Lemma saved_is_shown_witness :
  SettingsManager.acceptable (SettingsManager.formData editing) /\
  SettingsManager.openrouterApiKey
    (SettingsManager.formData
       (fst (SettingsManager.handleSave (fun _ => "Failed to fetch") editing
               (Normal (stored (SettingsManager.call_of (SettingsManager.formData editing))
                          "********abcd")))))
  = "********abcd" /\
  SettingsManager.put_openrouter_api_key
    (SettingsManager.call_of
       (SettingsManager.formData
          (fst (SettingsManager.handleSave (fun _ => "Failed to fetch") editing
                  (Normal (stored (SettingsManager.call_of (SettingsManager.formData editing))
                             "********abcd"))))))
  = None.
Proof.
  split; [exact two_models_acceptable|].
  pose proof (saved_is_shown (fun _ => "Failed to fetch") editing "********abcd"
                two_models_acceptable) as H.
  cbv zeta in H. destruct H as (_ & _ & _ & _ & _ & _ & Hkey & _ & _ & _ & _ & Hmask).
  split; [exact Hkey|exact (Hmask eq_refl)].
Defined.

Lemma filter_other (modelId x : string) (l : list string) :
  x ∈ l -> x <> modelId -> x ∈ List.filter (fun m => negb (m =? modelId)) l.
Proof.
  intros Hin Hne. apply list_elem_of_In, filter_In. split.
  - apply list_elem_of_In, Hin.
  - apply negb_true_iff, String.eqb_neq, Hne.
Qed.

Lemma head_elem {A} (l : list A) (x : A) : head l = Some x -> x ∈ l.
Proof. destruct l; [discriminate|]. intros [= ->]. left. Qed.

Lemma first_left (l : list string) :
  default "" (head l) = "" \/ default "" (head l) ∈ l.
Proof. destruct l as [|x l]; [left; reflexivity|right; left]. Qed.

Lemma edit_keeps_consistent (e : SettingsManager.edit) (st : SettingsManager.state) :
  SettingsManager.offered e st ->
  SettingsManager.consistent (SettingsManager.formData st) ->
  SettingsManager.consistent (SettingsManager.formData (SettingsManager.apply_edit e st)).
Proof.
  intros Hoff (Hd & Hc & Ha). destruct e as [modelId|modelId|m|m]; simpl.
  - unfold SettingsManager.handleAddModel.
    destruct (SettingsManager.includes _ modelId) eqn:Hin; [repeat split; assumption|].
    assert (Hnin : modelId ∉ SettingsManager.councilModels (SettingsManager.formData st)).
    { intros H. apply includes_spec in H. congruence. }
    simpl. split; [|split].
    + apply NoDup_app. split; [exact Hd|]. split; [|apply NoDup_singleton].
      intros x Hx Hx'. apply list_elem_of_singleton in Hx'. subst x. contradiction.
    + destruct Hc as [Hc|Hc]; [left; exact Hc|right; apply elem_of_app; left; exact Hc].
    + destruct Ha as [Ha|Ha]; [left; exact Ha|right; apply elem_of_app; left; exact Ha].
  - unfold SettingsManager.handleRemoveModel. cbv zeta.
    pose proof (first_left (List.filter (fun m => negb (m =? modelId))
                              (SettingsManager.councilModels (SettingsManager.formData st))))
      as Hfirst.
    assert (Hnd : NoDup (List.filter (fun m => negb (m =? modelId))
                           (SettingsManager.councilModels (SettingsManager.formData st)))).
    { apply NoDup_ListNoDup, List.NoDup_filter, NoDup_ListNoDup, Hd. }
    assert (Hkeep : forall x,
              x = "" \/ x ∈ SettingsManager.councilModels (SettingsManager.formData st) ->
              modelId <> x ->
              x = "" \/ x ∈ List.filter (fun m => negb (m =? modelId))
                              (SettingsManager.councilModels (SettingsManager.formData st))).
    { intros x [Hx|Hx] Hne; [left; exact Hx|right; apply filter_other; [exact Hx|congruence]]. }
    destruct (String.eqb_spec modelId (SettingsManager.chairmanModel (SettingsManager.formData st)))
      as [Hmc|Hmc];
      destruct (String.eqb_spec modelId (SettingsManager.analystModel (SettingsManager.formData st)))
        as [Hma|Hma];
      (split; [exact Hnd|]); split;
      first [exact Hfirst | apply Hkeep; assumption].
  - split; [exact Hd|]. split; [|exact Ha].
    destruct Hoff as [Hin|[_ ->]]; [right; exact Hin|left; reflexivity].
  - split; [exact Hd|]. split; [exact Hc|].
    destruct Hoff as [Hin|[_ ->]]; [right; exact Hin|left; reflexivity].
Qed.

(** X17.  Editing keeps the form consistent: through every session of adding and
    removing models and choosing chairman and analyst from the options on
    offer, the list has no model twice and the chairman and the analyst, if
    chosen, are in it (a chairman or analyst that is removed gives way to
    the first model left).  So of the seven checks of the save, those for a
    stranger as chairman or analyst and for duplicates cannot fail after
    such a session. *)
Theorem editing_keeps_consistent (es : list SettingsManager.edit) (st : SettingsManager.state) :
  SettingsManager.consistent (SettingsManager.formData st) ->
  SettingsManager.session es st ->
  SettingsManager.consistent (SettingsManager.formData (SettingsManager.apply_edits es st)) /\
  SettingsManager.validation (SettingsManager.formData (SettingsManager.apply_edits es st))
  <> Some "Chairman model must be one of the selected models" /\
  SettingsManager.validation (SettingsManager.formData (SettingsManager.apply_edits es st))
  <> Some "Analyst model must be one of the selected models" /\
  SettingsManager.validation (SettingsManager.formData (SettingsManager.apply_edits es st))
  <> Some "Models list cannot contain duplicates".
Proof.
  intros Hc Hs.
  assert (Hend : SettingsManager.consistent
                   (SettingsManager.formData (SettingsManager.apply_edits es st))).
  { revert st Hc Hs. induction es as [|e es IH]; intros st Hc Hs; [exact Hc|].
    destruct Hs as [Hoff Hs]. simpl. apply IH; [|exact Hs].
    apply edit_keeps_consistent; assumption. }
  split; [exact Hend|].
  destruct Hend as (Hd & Hch & Han).
  set (f := SettingsManager.formData (SettingsManager.apply_edits es st)) in *.
  unfold SettingsManager.validation.
  destruct (length (SettingsManager.councilModels f) =? 0)%nat;
    [repeat split; discriminate|].
  destruct (String.eqb_spec (SettingsManager.chairmanModel f) "") as [Hc0|Hc0];
    [repeat split; discriminate|].
  destruct Hch as [Hch|Hch]; [contradiction|].
  rewrite (proj2 (includes_spec _ _) Hch). simpl negb. cbv iota.
  destruct (String.eqb_spec (SettingsManager.analystModel f) "") as [Ha0|Ha0];
    [repeat split; discriminate|].
  destruct Han as [Han|Han]; [contradiction|].
  rewrite (proj2 (includes_spec _ _) Han). simpl negb. cbv iota.
  destruct ((SettingsManager.maxClarificationRounds f <? 1)%Z ||
            (20 <? SettingsManager.maxClarificationRounds f)%Z);
    [repeat split; discriminate|].
  rewrite (proj2 (Nat.eqb_eq _ _) (proj2 (distinct_NoDup _) Hd)). simpl negb. cbv iota.
  repeat split; discriminate.
Qed.

Lemma editing_keeps_consistent_witness :
  SettingsManager.consistent (SettingsManager.formData editing) /\
  SettingsManager.session
    [SettingsManager.RemoveModel "vendor/model-a"; SettingsManager.AddModel "vendor/model-c";
     SettingsManager.SelectAnalyst "vendor/model-c"] editing /\
  SettingsManager.consistent
    (SettingsManager.formData
       (SettingsManager.apply_edits
          [SettingsManager.RemoveModel "vendor/model-a"; SettingsManager.AddModel "vendor/model-c";
           SettingsManager.SelectAnalyst "vendor/model-c"] editing)) /\
  SettingsManager.chairmanModel
    (SettingsManager.formData
       (SettingsManager.apply_edits
          [SettingsManager.RemoveModel "vendor/model-a"; SettingsManager.AddModel "vendor/model-c";
           SettingsManager.SelectAnalyst "vendor/model-c"] editing))
  = "vendor/model-b".
Proof.
  assert (Hc : SettingsManager.consistent (SettingsManager.formData editing)).
  { destruct two_models_acceptable as (_ & _ & Hci & _ & Hai & _ & Hd).
    split; [exact Hd|]. split; right; assumption. }
  assert (Hs : SettingsManager.session
    [SettingsManager.RemoveModel "vendor/model-a"; SettingsManager.AddModel "vendor/model-c";
     SettingsManager.SelectAnalyst "vendor/model-c"] editing).
  { split; [exact I|]. split; [exact I|]. split; [|exact I].
    left. vm_compute. right. left. }
  split; [exact Hc|]. split; [exact Hs|].
  split; [exact (proj1 (editing_keeps_consistent _ editing Hc Hs))|].
  reflexivity.
Defined.

(** ** The library pages *)

Lemma filter_split {A} (p q r : A -> bool) (l : list A) :
  (forall x, p x = true -> (q x = true /\ r x = false) \/ (q x = false /\ r x = true)) ->
  (forall x, p x = false -> q x = false /\ r x = false) ->
  List.filter p l ≡ₚ List.filter q l ++ List.filter r l.
Proof.
  intros Hone Hnone. induction l as [|x l IH]; [reflexivity|].
  simpl. destruct (p x) eqn:Hp.
  - destruct (Hone x Hp) as [[-> ->]|[-> ->]].
    + simpl. constructor. exact IH.
    + rewrite IH. apply Permutation_middle.
  - destruct (Hnone x Hp) as [-> ->]. exact IH.
Qed.

Lemma filter_sublist {A} (p : A -> bool) (l : list A) : sublist (List.filter p l) l.
Proof.
  induction l as [|x l IH]; [constructor|].
  simpl. destruct (p x); [constructor; exact IH|apply sublist_cons; exact IH].
Qed.

Lemma filter_all {A} (p : A -> bool) (l : list A) :
  (forall x, p x = true) -> List.filter p l = l.
Proof.
  intros Hp. induction l as [|x l IH]; [reflexivity|].
  simpl. rewrite Hp, IH. reflexivity.
Qed.

Lemma size_cases (e : Library.entry) :
  (Library.matchesSize "small" e = true /\ Library.matchesSize "medium" e = false /\
   Library.matchesSize "large" e = false) \/
  (Library.matchesSize "small" e = false /\ Library.matchesSize "medium" e = true /\
   Library.matchesSize "large" e = false) \/
  (Library.matchesSize "small" e = false /\ Library.matchesSize "medium" e = false /\
   Library.matchesSize "large" e = true).
Proof.
  unfold Library.matchesSize.
  change ("small" =? "any") with false. change ("medium" =? "any") with false.
  change ("large" =? "any") with false. change ("small" =? "small") with true.
  change ("medium" =? "small") with false. change ("large" =? "small") with false.
  change ("medium" =? "medium") with true. change ("large" =? "medium") with false.
  cbv beta iota zeta.
  destruct (Nat.ltb_spec (length16 (Library.text e)) 500);
    destruct (Nat.leb_spec 500 (length16 (Library.text e)));
    destruct (Nat.leb_spec (length16 (Library.text e)) 2000);
    destruct (Nat.ltb_spec 2000 (length16 (Library.text e)));
    simpl; try lia;
    first [ left; repeat split; reflexivity
          | right; left; repeat split; reflexivity
          | right; right; repeat split; reflexivity ].
Qed.

Lemma age_cases (currentTime : Z) (e : Library.entry) :
  Library.matchesUpdated "recent" currentTime e
  = negb (Library.matchesUpdated "older" currentTime e).
Proof.
  unfold Library.matchesUpdated.
  change ("recent" =? "any") with false. change ("older" =? "any") with false.
  change ("recent" =? "recent") with true. change ("older" =? "recent") with false.
  cbv beta iota zeta. rewrite negb_involutive. reflexivity.
Qed.

(** X18.  The filters of the library pages.  The three sizes split what is on
    display without them: every entry that passes the search and the date
    filter is small (under 500 characters), medium (500 to 2000) or large,
    and never two of these.  The two ages do the same: an entry is recent
    (updated within seven days of the load) or older, one whose date does
    not parse being older.  Without filters, a blank search shows the whole
    list; and what is shown is always in the order of the list. *)
Theorem filters_split_the_list (q u s : string) (currentTime : Z)
    (entries : list Library.entry) :
  Library.visible q u "any" currentTime entries
  ≡ₚ Library.visible q u "small" currentTime entries ++
     Library.visible q u "medium" currentTime entries ++
     Library.visible q u "large" currentTime entries /\
  Library.visible q "any" s currentTime entries
  ≡ₚ Library.visible q "recent" s currentTime entries ++
     Library.visible q "older" s currentTime entries /\
  (trim q = "" -> Library.visible q "any" "any" currentTime entries = entries) /\
  sublist (Library.visible q u s currentTime entries) entries.
Proof.
  split; [|split; [|split]].
  - unfold Library.visible.
    transitivity
      (List.filter (fun e => Library.matchesSearch e q &&
                             Library.matchesUpdated u currentTime e &&
                             Library.matchesSize "small" e) entries ++
       List.filter (fun e => Library.matchesSearch e q &&
                             Library.matchesUpdated u currentTime e &&
                             (Library.matchesSize "medium" e || Library.matchesSize "large" e))
                   entries).
    + apply filter_split; intros e; cbv beta;
        change (Library.matchesSize "any" e) with true;
        destruct (size_cases e) as [H|[H|H]];
        destruct H as (-> & -> & ->);
        destruct (Library.matchesSearch e q && Library.matchesUpdated u currentTime e);
        simpl; intros H; try discriminate H; auto.
    + apply Permutation_app_head.
      apply filter_split; intros e; cbv beta;
        destruct (size_cases e) as [H|[H|H]];
        destruct H as (_ & -> & ->);
        destruct (Library.matchesSearch e q && Library.matchesUpdated u currentTime e);
        simpl; intros H; try discriminate H; auto.
  - unfold Library.visible. apply filter_split; intros e; cbv beta;
      change (Library.matchesUpdated "any" currentTime e) with true;
      rewrite (age_cases currentTime e);
      destruct (Library.matchesSearch e q), (Library.matchesSize s e),
               (Library.matchesUpdated "older" currentTime e);
      simpl; intros H; try discriminate H; auto.
  - intros Hblank. unfold Library.visible. apply filter_all. intros e.
    unfold Library.matchesSearch. rewrite Hblank. reflexivity.
  - apply filter_sublist.
Qed.

(** ** The sidebar *)

Lemma bucket_cases (Date_parse : value -> option Z) (startOfToday startOfWeek : Z)
    (date : option Z) :
  Sidebar.bucketLabel startOfToday startOfWeek date = "Today" \/
  Sidebar.bucketLabel startOfToday startOfWeek date = "This week" \/
  Sidebar.bucketLabel startOfToday startOfWeek date = "Older".
Proof.
  destruct date as [t|]; simpl; [|right; right; reflexivity].
  destruct (startOfToday <=? t)%Z; [left; reflexivity|].
  destruct (startOfWeek <=? t)%Z; [right; left|right; right]; reflexivity.
Qed.

Lemma omap_cons_some {A B} (f : A -> option B) (x : A) (l : list A) (y : B) :
  f x = Some y -> omap f (x :: l) = y :: omap f l.
Proof. intros H. simpl. rewrite H. reflexivity. Qed.

Lemma groups_shape {A B} (bucket : A -> string) (render : A -> B) (labels : list string)
    (l : list A) :
  let shown := omap (fun label =>
                 let items := List.filter (fun x => bucket x =? label) l in
                 match items with
                 | [] => None
                 | _ => Some (label, map render items)
                 end) labels in
  concat (map snd shown)
  = concat (map (fun label => map render (List.filter (fun x => bucket x =? label) l)) labels) /\
  sublist (map fst shown) labels /\
  Forall (fun g => g.2 <> [] /\
                   g.2 = map render (List.filter (fun x => bucket x =? g.1) l)) shown.
Proof.
  cbv zeta. induction labels as [|label labels (IHc & IHs & IHf)].
  - repeat split; constructor.
  - rewrite omap_cons_list. cbv beta zeta.
    destruct (List.filter (fun x => bucket x =? label) l) as [|x items] eqn:Hitems.
    + change (option_list None ++ ?t) with t.
      change (concat (map ?f (label :: labels))) with (f label ++ concat (map f labels)).
      cbv beta. rewrite ?Hitems. change (map render [] ++ ?t) with t.
      split; [exact IHc|]. split; [apply sublist_cons; exact IHs|exact IHf].
    + change (option_list (Some ?g) ++ ?t) with (g :: t).
      change (concat (map ?f (label :: labels))) with (f label ++ concat (map f labels)).
      cbv beta.
      change (concat (map snd (?g :: ?t))) with (g.2 ++ concat (map snd t)).
      rewrite IHc, ?Hitems. split; [reflexivity|]. split; [constructor; exact IHs|].
      constructor; [|exact IHf]. cbn [fst snd]. rewrite ?Hitems.
      split; [discriminate|reflexivity].
Qed.

Lemma filter_bucket {A} (bucket : A -> string) (label : string) (l : list A) :
  Forall (fun x => bucket x = label) (List.filter (fun x => bucket x =? label) l).
Proof.
  apply Forall_forall. intros x Hx. apply list_elem_of_In, filter_In in Hx as [_ Hx].
  apply String.eqb_eq, Hx.
Qed.

(** Three labels that every element has one of split a list in three. *)
Lemma three_buckets {A} (bucket : A -> string) (a b c : string) (l : list A) :
  a <> b -> a <> c -> b <> c ->
  (forall x, bucket x = a \/ bucket x = b \/ bucket x = c) ->
  List.filter (fun x => bucket x =? a) l ++ List.filter (fun x => bucket x =? b) l ++
  List.filter (fun x => bucket x =? c) l ≡ₚ l.
Proof.
  intros Hab Hac Hbc Hall. induction l as [|x l IH]; [reflexivity|].
  simpl. destruct (Hall x) as [H|[H|H]]; rewrite H.
  - rewrite String.eqb_refl, (proj2 (String.eqb_neq a b) Hab), (proj2 (String.eqb_neq a c) Hac).
    cbn [app]. constructor. exact IH.
  - assert (Hba : b <> a) by congruence.
    rewrite (proj2 (String.eqb_neq b a) Hba), String.eqb_refl, (proj2 (String.eqb_neq b c) Hbc).
    cbn [app]. rewrite <- Permutation_middle. constructor. exact IH.
  - assert (Hca : c <> a) by congruence. assert (Hcb : c <> b) by congruence.
    rewrite (proj2 (String.eqb_neq c a) Hca), (proj2 (String.eqb_neq c b) Hcb), String.eqb_refl.
    rewrite app_assoc, <- Permutation_middle, <- app_assoc. constructor. exact IH.
Qed.

(** X19.  The sidebar shows every conversation once: its groups, in the order
    Today, This week, Older, hold between them the rows of all the
    conversations, each group in the order of the list and none of them
    empty; a conversation whose date does not parse is among the older
    ones, and no row is without a title. *)
Theorem sidebar_shows_all (Date_parse : value -> option Z) (startOfToday startOfWeek : Z)
    (now : Z) (toLocaleDateString : Z -> string)
    (conversations : list Sidebar.summary) (currentConversationId : value) :
  let shown := Sidebar.groups Date_parse now startOfToday startOfWeek toLocaleDateString
                 conversations currentConversationId in
  concat (map snd shown)
  ≡ₚ map (Sidebar.row_of Date_parse now toLocaleDateString currentConversationId)
         conversations /\
  sublist (map fst shown) ["Today"; "This week"; "Older"] /\
  Forall (fun g => g.2 <> [] /\
                   exists items,
                     sublist items conversations /\
                     g.2 = map (Sidebar.row_of Date_parse now toLocaleDateString
                                  currentConversationId) items /\
                     Forall (fun conv =>
                               Sidebar.bucketLabel startOfToday startOfWeek
                                 (Sidebar.parseISO Date_parse
                                    (js_or (Sidebar.updated_at conv) (Sidebar.created_at conv)))
                               = g.1) items) shown /\
  Forall (fun r => truthy (Sidebar.normalizedTitle r) = true) (concat (map snd shown)) /\
  Sidebar.bucketLabel startOfToday startOfWeek None = "Older".
Proof.
  cbv zeta.
  destruct (groups_shape
              (fun conv => Sidebar.bucketLabel startOfToday startOfWeek
                 (Sidebar.parseISO Date_parse
                    (js_or (Sidebar.updated_at conv) (Sidebar.created_at conv))))
              (Sidebar.row_of Date_parse now toLocaleDateString currentConversationId)
              ["Today"; "This week"; "Older"] conversations) as (Hc & Hs & Hf).
  assert (Hall : concat (map snd (Sidebar.groups Date_parse now startOfToday startOfWeek
                                    toLocaleDateString conversations currentConversationId))
                 ≡ₚ map (Sidebar.row_of Date_parse now toLocaleDateString currentConversationId)
                        conversations).
  { etransitivity; [apply Permutation_refl'; exact Hc|].
    simpl concat. rewrite app_nil_r, <- !map_app.
    apply Permutation_map. apply three_buckets; try discriminate.
    intros conv. apply (bucket_cases Date_parse). }
  split; [exact Hall|]. split; [exact Hs|]. split; [|split; [|reflexivity]].
  - eapply Forall_impl; [exact Hf|]. intros [label rows] [Hne Hrows]. simpl in *.
    split; [exact Hne|]. eexists. split; [apply filter_sublist|].
    split; [exact Hrows|]. apply filter_bucket.
  - rewrite Hall. apply Forall_map, Forall_forall. intros conv _. simpl.
    destruct (is_string "New Conversation" (Sidebar.title conv) ||
              is_string "New reasoning" (Sidebar.title conv)); [reflexivity|].
    unfold js_or. destruct (truthy (Sidebar.title conv)) eqn:Ht; [exact Ht|reflexivity].
Qed.

Lemma div_ltb (a b k : Z) : (0 < b)%Z -> (a / b <? k)%Z = (a <? b * k)%Z.
Proof.
  intros Hb. destruct (Z.ltb_spec a (b * k)) as [H|H].
  - apply Z.ltb_lt. apply Z.div_lt_upper_bound; assumption.
  - apply Z.ltb_ge. apply Z.div_le_lower_bound; assumption.
Qed.

Lemma div_between (a b lo hi : Z) :
  (0 < b)%Z -> (b * lo <= a < b * (hi + 1))%Z -> (lo <= a / b <= hi)%Z.
Proof.
  intros Hb [Hlo Hhi]. split.
  - apply Z.div_le_lower_bound; assumption.
  - apply Z.lt_succ_r. apply Z.div_lt_upper_bound; assumption.
Qed.

(** X20.  The age a row shows, by the milliseconds since the update: just now
    under two minutes (and for a date in the future), then whole minutes
    from 2 to 59, whole hours from 1 to 23, yesterday for the second day,
    whole days from 2 to 6, and the date from the seventh day on; nothing
    for a date that does not parse. *)
Theorem relative_label_by_age (now t : Z) (toLocaleDateString : Z -> string) :
  let diff := (now - t)%Z in
  Sidebar.relativeLabel now toLocaleDateString (Some t)
  = (if (diff <? 120000)%Z then "Updated just now"
     else if (diff <? 3600000)%Z then "Updated " +:+ pretty (diff / 60000)%Z +:+ "m ago"
     else if (diff <? 86400000)%Z then "Updated " +:+ pretty (diff / 3600000)%Z +:+ "h ago"
     else if (diff <? 172800000)%Z then "Updated yesterday"
     else if (diff <? 604800000)%Z then "Updated " +:+ pretty (diff / 86400000)%Z +:+ "d ago"
     else "Updated " +:+ toLocaleDateString t) /\
  ((120000 <= diff < 3600000)%Z -> (2 <= diff / 60000 <= 59)%Z) /\
  ((3600000 <= diff < 86400000)%Z -> (1 <= diff / 3600000 <= 23)%Z) /\
  ((172800000 <= diff < 604800000)%Z -> (2 <= diff / 86400000 <= 6)%Z) /\
  Sidebar.relativeLabel now toLocaleDateString None = "".
Proof.
  cbv zeta. split; [|split; [|split; [|split]]].
  - unfold Sidebar.relativeLabel. cbv zeta.
    change (1000 * 60 * 60 * 24)%Z with 86400000%Z.
    change (1000 * 60 * 60)%Z with 3600000%Z. change (1000 * 60)%Z with 60000%Z.
    rewrite (div_ltb (now - t) 60000 2), (div_ltb (now - t) 60000 60),
            (div_ltb (now - t) 3600000 24), (div_ltb (now - t) 86400000 7) by lia.
    change (60000 * 2)%Z with 120000%Z. change (60000 * 60)%Z with 3600000%Z.
    change (3600000 * 24)%Z with 86400000%Z. change (86400000 * 7)%Z with 604800000%Z.
    destruct (Z.ltb_spec (now - t) 120000); [reflexivity|].
    destruct (Z.ltb_spec (now - t) 3600000); [reflexivity|].
    destruct (Z.ltb_spec (now - t) 86400000); [reflexivity|].
    destruct (Z.ltb_spec (now - t) 172800000) as [Hy|Hy].
    + assert (Hone : ((now - t) / 86400000 = 1)%Z).
      { pose proof (div_between (now - t) 86400000 1 1) as Hb. lia. }
      rewrite Hone. reflexivity.
    + assert (Hmore : (2 <= (now - t) / 86400000)%Z).
      { apply Z.div_le_lower_bound; lia. }
      destruct (Z.eqb_spec ((now - t) / 86400000) 1); [lia|reflexivity].
  - intros H. apply div_between; lia.
  - intros H. apply div_between; lia.
  - intros H. apply div_between; lia.
  - reflexivity.
Qed.

(** ** The model evaluation stage *)

Lemma split_on_nonempty (sep : ascii) (s : string) : split_on sep s <> [].
Proof.
  destruct s as [|ch s]; simpl; [discriminate|].
  destruct (Ascii.eqb ch sep); [discriminate|].
  destruct (split_on sep s); discriminate.
Qed.

Lemma split_on_free (sep : ascii) (s : string) : free_of sep s = true -> split_on sep s = [s].
Proof.
  induction s as [|ch s IH]; [reflexivity|].
  simpl. destruct (Ascii.eqb ch sep); [discriminate|]. simpl. intros H.
  rewrite (IH H). reflexivity.
Qed.

Lemma split_on_app (sep : ascii) (a b : string) :
  free_of sep a = true ->
  split_on sep (a +:+ String sep b) = a :: split_on sep b.
Proof.
  induction a as [|ch a IH]; intros Ha.
  - change ("" +:+ String sep b) with (String sep b). simpl. rewrite Ascii.eqb_refl. reflexivity.
  - change (String ch a +:+ String sep b) with (String ch (a +:+ String sep b)).
    simpl in Ha |- *. destruct (Ascii.eqb ch sep); [discriminate Ha|].
    rewrite (IH Ha). reflexivity.
Qed.

Lemma or_string_nonempty (a b : string) : b <> "" -> SettingsManager.or_string a b <> "".
Proof.
  intros Hb. unfold SettingsManager.or_string.
  destruct (String.eqb_spec a ""); [exact Hb|assumption].
Qed.

(** X21.  The entries of the selected models: one for each model, in order; no
    entry is without a provider, and none without a name unless the
    identifier itself is empty.  An identifier of the form provider/name is
    shown as these two, one without a slash as its own name.  The place of
    the rationale never holds an empty text: it holds the rationale of the
    model if that is not empty, and the stock phrase otherwise, unless the
    identifier is no key of [rationales] but the name of a property every
    object inherits, in which case it holds that property, which is no
    text.  A rationale for a model that was not selected shows nowhere: the
    entries depend on the rationales of the selected models only. *)
Theorem evaluation_items_are_labelled (inherited : string -> bool) (models : list string)
    (rationales rationales' : gmap string string) :
  length (ModelEvaluationStage.items inherited models rationales) = length models /\
  Forall (fun it => ModelEvaluationStage.provider it <> "" /\
                    ModelEvaluationStage.rationale it <> ModelEvaluationStage.Text "")
         (ModelEvaluationStage.items inherited models rationales) /\
  (forall modelId,
     ModelEvaluationStage.rationale (ModelEvaluationStage.item_of inherited rationales modelId)
     = match rationales !! modelId with
       | Some "" => ModelEvaluationStage.Text "Selected for this reasoning task"
       | Some text => ModelEvaluationStage.Text text
       | None =>
           if inherited modelId then ModelEvaluationStage.Inherited modelId
           else ModelEvaluationStage.Text "Selected for this reasoning task"
       end) /\
  (forall modelId,
     ModelEvaluationStage.modelName
       (ModelEvaluationStage.item_of inherited rationales modelId) = ""
     <-> modelId = "") /\
  (forall p n,
     free_of "/" p = true -> free_of "/" n = true -> p <> "" -> n <> "" ->
     ModelEvaluationStage.provider
       (ModelEvaluationStage.item_of inherited rationales (p +:+ "/" +:+ n)) = p /\
     ModelEvaluationStage.modelName
       (ModelEvaluationStage.item_of inherited rationales (p +:+ "/" +:+ n)) = n) /\
  (forall modelId,
     free_of "/" modelId = true -> modelId <> "" ->
     ModelEvaluationStage.provider (ModelEvaluationStage.item_of inherited rationales modelId)
     = modelId /\
     ModelEvaluationStage.modelName (ModelEvaluationStage.item_of inherited rationales modelId)
     = modelId) /\
  ((forall m, m ∈ models -> rationales !! m = rationales' !! m) ->
   ModelEvaluationStage.items inherited models rationales
   = ModelEvaluationStage.items inherited models rationales').
Proof.
  split; [apply length_map|]. split; [|split; [|split; [|split; [|split]]]].
  - apply Forall_map, Forall_forall. intros modelId _. simpl.
    split; [apply or_string_nonempty; discriminate|].
    unfold ModelEvaluationStage.rationale_of.
    destruct (rationales !! modelId) as [text|].
    + intros [= H]. revert H. apply or_string_nonempty. discriminate.
    + destruct (inherited modelId); discriminate.
  - intros modelId. simpl. unfold ModelEvaluationStage.rationale_of.
    destruct (rationales !! modelId) as [[|ch text]|]; reflexivity.
  - intros modelId. simpl. unfold SettingsManager.or_string.
    destruct (String.eqb_spec (default "" (split_on "/" modelId !! 1)) "") as [H|H];
      [reflexivity|]. split; [contradiction|].
    intros ->. contradiction H. reflexivity.
  - intros p n Hp Hn Hpne Hnne. unfold ModelEvaluationStage.item_of. cbv zeta.
    change (p +:+ "/" +:+ n) with (p +:+ String "/" n).
    rewrite (split_on_app "/" p n Hp), (split_on_free "/" n Hn). simpl.
    unfold SettingsManager.or_string.
    destruct (String.eqb_spec p ""); [contradiction|].
    destruct (String.eqb_spec n ""); [contradiction|]. split; reflexivity.
  - intros modelId Hfree Hne. unfold ModelEvaluationStage.item_of. cbv zeta.
    rewrite (split_on_free "/" modelId Hfree). simpl.
    unfold SettingsManager.or_string.
    destruct (String.eqb_spec modelId ""); [contradiction|]. split; reflexivity.
  - intros Hsame. unfold ModelEvaluationStage.items. apply map_ext_in. intros m Hm.
    unfold ModelEvaluationStage.item_of, ModelEvaluationStage.rationale_of.
    rewrite (Hsame m) by (apply list_elem_of_In, Hm).
    reflexivity.
Qed.

(** ** The clarification transcript *)

Lemma split_lines_length (s : string) : length (split_lines s) = S (newlines s).
Proof.
  induction s as [|ch s IH]; [reflexivity|].
  simpl. destruct (Ascii.eqb ch newline); simpl; [rewrite IH; reflexivity|].
  destruct (split_lines s) as [|l ls] eqn:Hs; [destruct (split_lines_nonempty s Hs)|].
  simpl in *. exact IH.
Qed.

Lemma newlines_app (a b : string) : newlines (a +:+ b) = newlines a + newlines b.
Proof.
  induction a as [|ch a IH]; [reflexivity|].
  change (String ch a +:+ b) with (String ch (a +:+ b)). simpl. rewrite IH. lia.
Qed.

Lemma split_lines_cons_line (line rest : string) :
  free_of newline line = true ->
  split_lines (line +:+ String newline rest) = line :: split_lines rest.
Proof.
  induction line as [|ch line IH]; intros Hfree.
  - reflexivity.
  - change (String ch line +:+ String newline rest)
      with (String ch (line +:+ String newline rest)).
    simpl in Hfree |- *. destruct (Ascii.eqb ch newline); [discriminate Hfree|].
    rewrite (IH Hfree). reflexivity.
Qed.

Lemma fold_left_append (pieces : list string) (init : string) :
  fold_left String.append pieces init = init +:+ whole pieces.
Proof.
  revert init. induction pieces as [|p pieces IH]; intros init; simpl.
  - symmetry. apply append_nil_r.
  - rewrite IH. apply append_assoc.
Qed.

(** The text, from its heading to the end of the first answer. *)
Lemma transcript_shape (String_of : value -> string) (answer : value) (answers : list value)
    (briefing : value) :
  exists tail,
    ClarificationHistory.clarificationText String_of (answer :: answers) briefing
    = "CLARIFICATION PHASE" +:+ String newline
        ("" +:+ String newline
           ("Q1: [Question from analyst]" +:+ String newline
              (("A1: " +:+ ClarificationHistory.to_string String_of answer) +:+
               String newline (String newline tail)))).
Proof.
  unfold ClarificationHistory.clarificationText. cbv zeta.
  rewrite fold_left_append. simpl imap. simpl whole.
  set (rest := whole (imap (ClarificationHistory.round String_of ∘ S) answers)).
  unfold ClarificationHistory.round, ClarificationHistory.nl.
  change (pretty (0 + 1)) with "1".
  assert (Hfront : forall more,
            (("CLARIFICATION PHASE" +:+ String newline "" +:+ String newline "") +:+
             ("Q" +:+ "1" +:+ ": [Question from analyst]" +:+ String newline "" +:+
              "A" +:+ "1" +:+ ": " +:+ ClarificationHistory.to_string String_of answer +:+
              String newline "" +:+ String newline "") +:+ rest) +:+ more
            = "CLARIFICATION PHASE" +:+ String newline
                ("" +:+ String newline
                   ("Q1: [Question from analyst]" +:+ String newline
                      (("A1: " +:+ ClarificationHistory.to_string String_of answer) +:+
                       String newline (String newline (rest +:+ more)))))).
  { intros more. rewrite !append_assoc. reflexivity. }
  destruct (truthy briefing); [destruct (truthy (get_opt briefing "objective"))|].
  - eexists. rewrite (append_assoc _ (String newline "" +:+ _) ("Objective: " +:+ _)).
    apply Hfront.
  - eexists. apply Hfront.
  - exists rest. etransitivity; [symmetry; apply append_nil_r|].
    rewrite Hfront, append_nil_r. reflexivity.
Qed.

(** X22.  The transcript is always longer than its preview: whenever the
    component renders (there is at least one answer), the text has more
    than five lines, so that the toggle is on offer; the text opens with
    the heading, an empty line and the label of the first question, and
    the preview shows these. *)
Theorem transcript_needs_expansion (String_of : value -> string) (cs : clarification) :
  match ClarificationHistory.render String_of (Some cs) with
  | Some r =>
      (exists answer answers, history cs = Some (answer :: answers)) /\
      ClarificationHistory.needsExpansion r = true /\
      5 < length (split_lines (ClarificationHistory.text r)) /\
      take 3 (split_lines (ClarificationHistory.text r))
      = ["CLARIFICATION PHASE"; ""; "Q1: [Question from analyst]"] /\
      take 3 (split_lines (ClarificationHistory.preview r))
      = ["CLARIFICATION PHASE"; ""; "Q1: [Question from analyst]"]
  | None => history cs = None \/ history cs = Some []
  end.
Proof.
  unfold ClarificationHistory.render.
  destruct (history cs) as [[|answer answers]|] eqn:Hh;
    [right; reflexivity| |left; reflexivity].
  cbv zeta. cbn [ClarificationHistory.text ClarificationHistory.preview
                 ClarificationHistory.needsExpansion].
  destruct (transcript_shape String_of answer answers (briefing cs)) as (tail & Htext).
  rewrite Htext. clear Htext.
  set (first := ("A1: " +:+ ClarificationHistory.to_string String_of answer) +:+
                String newline (String newline tail)).
  assert (Hlines : split_lines
            ("CLARIFICATION PHASE" +:+ String newline
               ("" +:+ String newline ("Q1: [Question from analyst]" +:+ String newline first)))
          = "CLARIFICATION PHASE" :: "" :: "Q1: [Question from analyst]" :: split_lines first).
  { rewrite !split_lines_cons_line by reflexivity. reflexivity. }
  rewrite Hlines. clear Hlines.
  assert (Hfirst : 3 <= length (split_lines first)).
  { rewrite split_lines_length. unfold first. rewrite newlines_app.
    cbn [newlines]. rewrite Ascii.eqb_refl. lia. }
  destruct (split_lines first) as [|r1 [|r2 [|r3 rs]]]; cbn [length] in Hfirst; try lia.
  split; [exists answer, answers; reflexivity|].
  split; [reflexivity|]. split; [cbn [length]; lia|]. split; [reflexivity|].
  cbn [take].
  change (join ClarificationHistory.nl
            ["CLARIFICATION PHASE"; ""; "Q1: [Question from analyst]"; r1; r2])
    with ("CLARIFICATION PHASE" +:+ String newline
            ("" +:+ String newline
               ("Q1: [Question from analyst]" +:+ String newline
                  (r1 +:+ String newline r2)))).
  rewrite !split_lines_cons_line by reflexivity. reflexivity.
Qed.
